(** * zen-tasker: the task allocation bot of [BOT.py]

    A shallow embedding of the allocation cycle of [BOT.py]
    ([TaskBot.task_allocation_loop_impl]) and of the operations it calls
    ([on_reaction_add], [get_member_safely], [get_or_create_role],
    [dm_winner], [write_to_sheet]), together with the administrative
    commands that drive it ([create_task], [stop_tasks], [pause_tasks],
    [resume_tasks]).

    The bot object is a record that is passed along explicitly.  A
    coroutine is a function of the bot state that returns either a value
    or a raised exception, and the state it leaves behind; what a call to
    Discord or to the spreadsheet answers is an argument of the model.
    Calls made and log records of level WARNING and above are appended to
    a trace; [logger.info] lines are left out. *)

From Stdlib Require Import ZArith String Ascii List Bool Lia Sorted Permutation.
From stdpp Require Import base gmap list strings.
Import ListNotations.
Local Open Scope Z_scope.

(** ** Exceptions and results *)

(** The exception classes the code distinguishes.  [Forbidden] and
    [NotFound] are subclasses of [discord.HTTPException]; everything here
    is a subclass of [Exception]. *)
Inductive exn : Type :=
| Forbidden
| NotFound
| HTTPException
| TypeError
| KeyError
| OtherError.

Definition is_HTTPException (e : exn) : bool :=
  match e with
  | Forbidden | NotFound | HTTPException => true
  | _ => false
  end.

Definition is_NotFound (e : exn) : bool :=
  match e with NotFound => true | _ => false end.

Definition is_Forbidden (e : exn) : bool :=
  match e with Forbidden => true | _ => false end.

Inductive result (A : Type) : Type :=
| Ok (a : A)
| Raise (e : exn).
Arguments Ok {A} a.
Arguments Raise {A} e.

Definition is_ok {A} (r : result A) : bool :=
  match r with Ok _ => true | Raise _ => false end.

(** ** Discord objects *)

Record Role : Type := { role_id : Z; role_name : string }.

Record Member : Type :=
  { member_id : Z; member_name : string; member_roles : list Role }.

Record User : Type := { user_id : Z; user_name : string; user_bot : bool }.

(** A guild: its roles, the member cache behind [guild.get_member] and what
    [guild.fetch_member] answers. *)
Record Guild : Type :=
  { guild_roles : list Role;
    guild_members : list Member;
    guild_fetch_member : Z -> result Member }.

(** [reaction.users()] is an asynchronous iterator over an HTTP call. *)
Record Reaction : Type :=
  { reaction_emoji : string; reaction_users : result (list User) }.

(** The announcement as [fetch_message] returns it; its id is the id that
    was asked for. *)
Record Message : Type :=
  { message_guild : option Guild; message_reactions : list Reaction }.

(** The check mark the announcement is seeded with, U+2705 in UTF-8. *)
Definition CHECK_MARK : string :=
  String (ascii_of_nat 226) (String (ascii_of_nat 156)
    (String (ascii_of_nat 133) EmptyString)).

(** [Role.__eq__] and [Member.__eq__] compare ids. *)
Definition role_in (r : Role) (roles : list Role) : bool :=
  existsb (fun x => role_id x =? role_id r) roles.

Definition member_in (m : Member) (members : list Member) : bool :=
  existsb (fun x => member_id x =? member_id m) members.

(** [discord.utils.get(roles, name=...)]: the first role of that name. *)
Definition utils_get (roles : list Role) (name : string) : option Role :=
  List.find (fun r => String.eqb (role_name r) name) roles.

(** ** Time stamps

    [on_reaction_add] stores [datetime.now(timezone.utc)], an aware
    datetime; the sort key falls back to [datetime.max], which is naive.
    [datetime.__lt__] raises [TypeError] between the two kinds. *)
Inductive datetime : Type :=
| Aware (microseconds : Z)
| Naive (microseconds : Z).

(** 9999-12-31 23:59:59.999999, counted from 0001-01-01. *)
Definition datetime_max : datetime := Naive 315537897599999999.

Definition datetime_lt (a b : datetime) : result bool :=
  match a, b with
  | Aware x, Aware y => Ok (x <? y)
  | Naive x, Naive y => Ok (x <? y)
  | _, _ => Raise TypeError
  end.

(** ** Trace *)

Inductive level : Type := WARNING | ERROR | CRITICAL.

Inductive log_msg : Type :=
| LFetchMemberFailed (user : Z) (e : exn)
| LRoleMissing (name : string)
| LCreateRoleFailed (name : string) (e : exn)
| LSheetsNotConfigured
| LInvalidSheetUrl
| LRowOutOfBounds (task_number : Z)
| LSheetAttemptFailed (attempt : Z) (e : exn)
| LSheetGaveUp (task_number : Z)
| LCannotDM (member : Z) (e : exn)
| LLogSendFailed (e : exn)
| LNotConfigured
| LPingFailed (e : exn)
| LPingRoleMissing
| LGuildIsNone
| LFailedWinner (member : Z) (e : exn)
| LNoWinnersAssigned
| LLoopFailed (e : exn)
| LStopNotRunning.

(** What [send_log] is asked to post in the logs channel. *)
Inductive log_text : Type :=
| TDMSent (member task_number : Z)
| TDMInaccessible (member : Z)
| TAllCompleted
| TPingForbidden
| TPingError
| TPingRoleMissing
| TStarted (tasks : Z)
| TStopped
| TPaused
| TResumed.

(** What [/create_task] answers through [interaction.followup.send]. *)
Inductive create_reply : Type :=
| BotNotConfigured
| AllocationStarted (tasks : Z).

(** Calls to the outside. *)
Inductive call : Type :=
| InteractionDefer
| InteractionFollowup (text : create_reply)
| MemberSend (member task_number : Z)
| AnnounceFallback (channel member task_number : Z)
| LogsSend (channel : Z) (text : log_text)
| AnnounceTasks (channel first count : Z)
| AddReaction (message : Z) (emoji : string)
| PingRole (channel : Z)
| FetchMessage (channel message : Z)
| FetchMember (user : Z)
| CreateRole (name : string)
| AddRoles (member role task_number : Z)
| OpenSheet (sheet_id : string)
| UpdateCell (row col : Z) (value : string)
| Congratulate (channel : Z) (winners : list Z)
| Unclaimed (channel first count : Z)
| Sleep (seconds : Z).

Inductive effect : Type :=
| Log (l : level) (m : log_msg)
| IO (c : call) (ok : bool)
| LoopStop.

(** ** The bot *)

(** The fields of [TaskBot.__init__] the cycle reads or writes.
    [TASK_ROLE_NAME] is the module constant read from the environment;
    [gc] tells whether the spreadsheet client was set up; [loop_running]
    whether [task_allocation_loop] is started; [role_removal_tasks] has one
    (member, role) pair for each task in [_role_removal_tasks]; a channel
    is kept by its id.  [trace] is not a field of the bot: it collects what
    the bot did to the outside. *)
Record TaskBot : Type :=
  { TASK_ROLE_NAME : string;
    total_tasks : Z;
    sheet_url : string;
    configured : bool;
    loop_running : bool;
    announce_channel : option Z;
    logs_channel : option Z;
    current_task : Z;
    gc : bool;
    reaction_timestamps : gmap Z (gmap Z Z);
    winners_per_task : Z;
    task_type : string;
    is_paused : bool;
    task_description : string;
    role_removal_tasks : list (Z * Z);
    stop_requested : bool;
    trace : list effect }.

Definition DEFAULT_WINNERS_PER_TASK : Z := 1.

Definition set_trace (t : list effect) (b : TaskBot) : TaskBot :=
  {| TASK_ROLE_NAME := TASK_ROLE_NAME b; total_tasks := total_tasks b;
     sheet_url := sheet_url b; configured := configured b;
     loop_running := loop_running b; announce_channel := announce_channel b;
     logs_channel := logs_channel b; current_task := current_task b;
     gc := gc b; reaction_timestamps := reaction_timestamps b;
     winners_per_task := winners_per_task b; task_type := task_type b;
     is_paused := is_paused b; task_description := task_description b;
     role_removal_tasks := role_removal_tasks b;
     stop_requested := stop_requested b; trace := t |}.

Definition set_current_task (n : Z) (b : TaskBot) : TaskBot :=
  {| TASK_ROLE_NAME := TASK_ROLE_NAME b; total_tasks := total_tasks b;
     sheet_url := sheet_url b; configured := configured b;
     loop_running := loop_running b; announce_channel := announce_channel b;
     logs_channel := logs_channel b; current_task := n;
     gc := gc b; reaction_timestamps := reaction_timestamps b;
     winners_per_task := winners_per_task b; task_type := task_type b;
     is_paused := is_paused b; task_description := task_description b;
     role_removal_tasks := role_removal_tasks b;
     stop_requested := stop_requested b; trace := trace b |}.

Definition set_reaction_timestamps (m : gmap Z (gmap Z Z)) (b : TaskBot)
  : TaskBot :=
  {| TASK_ROLE_NAME := TASK_ROLE_NAME b; total_tasks := total_tasks b;
     sheet_url := sheet_url b; configured := configured b;
     loop_running := loop_running b; announce_channel := announce_channel b;
     logs_channel := logs_channel b; current_task := current_task b;
     gc := gc b; reaction_timestamps := m;
     winners_per_task := winners_per_task b; task_type := task_type b;
     is_paused := is_paused b; task_description := task_description b;
     role_removal_tasks := role_removal_tasks b;
     stop_requested := stop_requested b; trace := trace b |}.

Definition set_is_paused (p : bool) (b : TaskBot) : TaskBot :=
  {| TASK_ROLE_NAME := TASK_ROLE_NAME b; total_tasks := total_tasks b;
     sheet_url := sheet_url b; configured := configured b;
     loop_running := loop_running b; announce_channel := announce_channel b;
     logs_channel := logs_channel b; current_task := current_task b;
     gc := gc b; reaction_timestamps := reaction_timestamps b;
     winners_per_task := winners_per_task b; task_type := task_type b;
     is_paused := p; task_description := task_description b;
     role_removal_tasks := role_removal_tasks b;
     stop_requested := stop_requested b; trace := trace b |}.

Definition set_stop_requested (p : bool) (b : TaskBot) : TaskBot :=
  {| TASK_ROLE_NAME := TASK_ROLE_NAME b; total_tasks := total_tasks b;
     sheet_url := sheet_url b; configured := configured b;
     loop_running := loop_running b; announce_channel := announce_channel b;
     logs_channel := logs_channel b; current_task := current_task b;
     gc := gc b; reaction_timestamps := reaction_timestamps b;
     winners_per_task := winners_per_task b; task_type := task_type b;
     is_paused := is_paused b; task_description := task_description b;
     role_removal_tasks := role_removal_tasks b;
     stop_requested := p; trace := trace b |}.

Definition set_loop_running (p : bool) (b : TaskBot) : TaskBot :=
  {| TASK_ROLE_NAME := TASK_ROLE_NAME b; total_tasks := total_tasks b;
     sheet_url := sheet_url b; configured := configured b;
     loop_running := p; announce_channel := announce_channel b;
     logs_channel := logs_channel b; current_task := current_task b;
     gc := gc b; reaction_timestamps := reaction_timestamps b;
     winners_per_task := winners_per_task b; task_type := task_type b;
     is_paused := is_paused b; task_description := task_description b;
     role_removal_tasks := role_removal_tasks b;
     stop_requested := stop_requested b; trace := trace b |}.

Definition set_role_removal_tasks (l : list (Z * Z)) (b : TaskBot) : TaskBot :=
  {| TASK_ROLE_NAME := TASK_ROLE_NAME b; total_tasks := total_tasks b;
     sheet_url := sheet_url b; configured := configured b;
     loop_running := loop_running b; announce_channel := announce_channel b;
     logs_channel := logs_channel b; current_task := current_task b;
     gc := gc b; reaction_timestamps := reaction_timestamps b;
     winners_per_task := winners_per_task b; task_type := task_type b;
     is_paused := is_paused b; task_description := task_description b;
     role_removal_tasks := l;
     stop_requested := stop_requested b; trace := trace b |}.

(** ** Coroutines: state and exceptions *)

Definition M (A : Type) : Type := TaskBot -> result A * TaskBot.

Definition ret {A} (a : A) : M A := fun s => (Ok a, s).

Definition raise {A} (e : exn) : M A := fun s => (Raise e, s).

Definition bind {A B} (m : M A) (k : A -> M B) : M B :=
  fun s =>
    match m s with
    | (Ok a, s') => k a s'
    | (Raise e, s') => (Raise e, s')
    end.

Notation "x <- m ;; k" := (bind m (fun x => k))
  (at level 100, m at next level, right associativity).
Notation "m ;; k" := (bind m (fun _ => k))
  (at level 100, right associativity).

(** [try: m  except <classes accepted by catches> as e: handler e]. *)
Definition try_except {A} (m : M A) (catches : exn -> bool)
    (handler : exn -> M A) : M A :=
  fun s =>
    match m s with
    | (Ok a, s') => (Ok a, s')
    | (Raise e, s') => if catches e then handler e s' else (Raise e, s')
    end.

(** [except Exception]. *)
Definition any_Exception (e : exn) : bool := true.

Definition gets {A} (f : TaskBot -> A) : M A := fun s => (Ok (f s), s).

Definition modify (f : TaskBot -> TaskBot) : M unit := fun s => (Ok tt, f s).

Definition lift {A} (r : result A) : M A := fun s => (r, s).

Definition emit (e : effect) : M unit :=
  modify (fun s => set_trace (trace s ++ [e]) s).

(** An awaited call: it is recorded with whether it succeeded, then gives
    its answer. *)
Definition io {A} (c : call) (answer : result A) : M A :=
  emit (IO c (is_ok answer)) ;; lift answer.

Definition log (l : level) (m : log_msg) : M unit := emit (Log l m).

(** ** [on_reaction_add] *)

Record ReactionEvent : Type :=
  { ev_message_id : Z; ev_user : User; ev_emoji : string }.

(** [now] is the clock reading of [datetime.now(timezone.utc)]. *)
Definition on_reaction_add (ev : ReactionEvent) (now : Z) (b : TaskBot)
  : TaskBot :=
  if user_bot (ev_user ev) then b
  else
    let message_id := ev_message_id ev in
    match reaction_timestamps b !! message_id with
    | Some stamps =>
        match stamps !! user_id (ev_user ev) with
        | None =>
            set_reaction_timestamps
              (<[message_id := <[user_id (ev_user ev) := now]> stamps]>
                 (reaction_timestamps b)) b
        | Some _ => b
        end
    | None => b
    end.

(** ** [send_log] *)

(** [answer] is what [logs_channel.send] does.  Nothing leaves
    [send_log]: its body is under [except Exception]. *)
Definition send_log (answer : result unit) (text : log_text) : M unit :=
  ch <- gets logs_channel ;;
  match ch with
  | Some c =>
      try_except (io (LogsSend c text) answer) any_Exception
        (fun e => log ERROR (LLogSendFailed e))
  | None => ret tt
  end.

(** ** [dm_winner] *)

Record DMEnv : Type :=
  { dm_send : result unit;          (* winner_member.send(embed=embed) *)
    dm_fallback_send : result unit; (* announce_channel.send(content=..., embed=embed) *)
    dm_log_send : result unit }.

Definition dm_winner (env : DMEnv) (winner_member : Member) (task_number : Z)
  : M bool :=
  try_except
    (io (MemberSend (member_id winner_member) task_number) (dm_send env) ;;
     send_log (dm_log_send env) (TDMSent (member_id winner_member) task_number) ;;
     ret true)
    is_HTTPException
    (fun e =>
       log WARNING (LCannotDM (member_id winner_member) e) ;;
       ch <- gets announce_channel ;;
       match ch with
       | Some c =>
           io (AnnounceFallback c (member_id winner_member) task_number)
              (dm_fallback_send env)
       | None => ret tt
       end ;;
       send_log (dm_log_send env) (TDMInaccessible (member_id winner_member)) ;;
       ret false).

(** ** [extract_sheet_id] and [write_to_sheet] *)

(** The class [[A-Za-z0-9\-_]]. *)
Definition sheet_id_char (c : ascii) : bool :=
  let n := nat_of_ascii c in
  ((65 <=? n) && (n <=? 90) || (97 <=? n) && (n <=? 122)
   || (48 <=? n) && (n <=? 57) || (n =? 45) || (n =? 95))%nat.

Fixpoint sheet_id_run (s : string) : string :=
  match s with
  | String c rest =>
      if sheet_id_char c then String c (sheet_id_run rest) else EmptyString
  | EmptyString => EmptyString
  end.

(** [re.search(r'/d/([A-Za-z0-9\-_]+)', url)]: the leftmost ["/d/"] that is
    followed by at least one character of the class, and the longest run
    after it. *)
Fixpoint extract_sheet_id (url : string) : option string :=
  match url with
  | EmptyString => None
  | String c rest =>
      match url with
      | String "/"%char (String "d"%char (String "/"%char tail)) =>
          match sheet_id_run tail with
          | EmptyString => extract_sheet_id rest
          | id => Some id
          end
      | _ => extract_sheet_id rest
      end
  end.

(** What one pass of the retry loop meets: [open_by_key] or
    [get_worksheet] raises, or the worksheet opens with [row_count] rows and
    [update_cell] answers. *)
Inductive sheet_attempt : Type :=
| OpenFails (e : exn)
| Opened (row_count : Z) (update : result unit).

(** The [try] body of one pass.  [true]: the function returns. *)
Definition sheet_try (a : sheet_attempt) (task_number : Z)
    (winner_name : string) : M bool :=
  url <- gets sheet_url ;;
  match extract_sheet_id url with
  | None => log ERROR LInvalidSheetUrl ;; ret true
  | Some sheet_id =>
      match a with
      | OpenFails e => io (OpenSheet sheet_id) (Raise e)
      | Opened row_count update =>
          io (OpenSheet sheet_id) (Ok tt) ;;
          if row_count <? task_number + 1 then
            log ERROR (LRowOutOfBounds task_number) ;; ret true
          else
            io (UpdateCell (task_number + 1) 4 winner_name) update ;;
            ret true
      end
  end.

(** [for attempt in attempts: ...]. *)
Fixpoint sheet_loop (sheet : Z -> sheet_attempt) (task_number : Z)
    (winner_name : string) (attempts : list Z) : M unit :=
  match attempts with
  | [] => ret tt
  | attempt :: rest =>
      returned <-
        try_except (sheet_try (sheet attempt) task_number winner_name)
          any_Exception
          (fun e =>
             log ERROR (LSheetAttemptFailed (attempt + 1) e) ;;
             (if attempt <? 2 then io (Sleep (2 ^ attempt)) (Ok tt)
              else log CRITICAL (LSheetGaveUp task_number)) ;;
             ret false) ;;
      if returned then ret tt
      else sheet_loop sheet task_number winner_name rest
  end.

Definition write_to_sheet (sheet : Z -> sheet_attempt) (task_number : Z)
    (winner_name : string) : M unit :=
  has_gc <- gets gc ;;
  url <- gets sheet_url ;;
  if negb has_gc || String.eqb url EmptyString then log WARNING LSheetsNotConfigured
  else sheet_loop sheet task_number winner_name [0; 1; 2].

(** ** [get_member_safely] and [get_or_create_role] *)

Definition get_member_safely (guild : option Guild) (uid : Z)
  : M (option Member) :=
  match guild with
  | None => ret None
  | Some g =>
      match List.find (fun m => member_id m =? uid) (guild_members g) with
      | Some member => ret (Some member)
      | None =>
          try_except
            (member <- io (FetchMember uid) (guild_fetch_member g uid) ;;
             ret (Some member))
            is_HTTPException
            (fun e => log ERROR (LFetchMemberFailed uid e) ;; ret None)
      end
  end.

(** [create] is what [guild.create_role] answers. *)
Definition get_or_create_role (guild : Guild) (name : string)
    (create : result Role) : M Role :=
  match utils_get (guild_roles guild) name with
  | Some role => ret role
  | None =>
      log WARNING (LRoleMissing name) ;;
      try_except (io (CreateRole name) create) any_Exception
        (fun e => log ERROR (LCreateRoleFailed name e) ;; raise e)
  end.

(** ** Resolving a round: reactors, eligibility, winners *)

(** The inner loop, [async for user in reaction.users()]. *)
Fixpoint collect_users (guild : option Guild) (users : list User)
    (reactors : list Member) : M (list Member) :=
  match users with
  | [] => ret reactors
  | user :: rest =>
      if user_bot user then collect_users guild rest reactors
      else
        match guild with
        | Some _ =>
            member <- get_member_safely guild (user_id user) ;;
            match member with
            | Some m =>
                if member_in m reactors then collect_users guild rest reactors
                else collect_users guild rest (reactors ++ [m])
            | None => collect_users guild rest reactors
            end
        | None => collect_users guild rest reactors
        end
  end.

(** The outer loop, [for reaction in message.reactions]. *)
Fixpoint collect_reactions (guild : option Guild) (reactions : list Reaction)
    (reactors : list Member) : M (list Member) :=
  match reactions with
  | [] => ret reactors
  | reaction :: rest =>
      users <- lift (reaction_users reaction) ;;
      reactors' <- collect_users guild users reactors ;;
      collect_reactions guild rest reactors'
  end.

Definition collect_reactors (message : Message) : M (list Member) :=
  collect_reactions (message_guild message) (message_reactions message) [].

Definition task_holder_role (name : string) (guild : option Guild)
  : option Role :=
  match guild with
  | Some g => utils_get (guild_roles g) name
  | None => None
  end.

(** [[m for m in reactors
      if not task_holder_role or task_holder_role not in m.roles]]. *)
Definition eligible_reactors (name : string) (guild : option Guild)
    (reactors : list Member) : list Member :=
  List.filter
    (fun m =>
       match task_holder_role name guild with
       | None => true
       | Some role => negb (role_in role (member_roles m))
       end)
    reactors.

(** [self.reaction_timestamps.get(message.id, {}).get(r.id, datetime.max)]. *)
Definition sort_key (stamps : gmap Z (gmap Z Z)) (message_id : Z) (r : Member)
  : datetime :=
  match default ∅ (stamps !! message_id) !! member_id r with
  | Some t => Aware t
  | None => datetime_max
  end.

(** [sorted(l, key=key)]: stable, and built on [<] alone.  An element goes
    in front of the first later one that is not smaller than it.  The
    result does not depend on the order in which a sort compares: with keys
    of one kind it is the stable ascending order, and with keys of both
    kinds any sort has to compare an aware key with a naive one, and
    raises. *)
Fixpoint sorted_insert {A} (key : A -> datetime) (x : A) (l : list A)
  : result (list A) :=
  match l with
  | [] => Ok [x]
  | y :: rest =>
      match datetime_lt (key y) (key x) with
      | Raise e => Raise e
      | Ok true =>
          match sorted_insert key x rest with
          | Ok rest' => Ok (y :: rest')
          | Raise e => Raise e
          end
      | Ok false => Ok (x :: y :: rest)
      end
  end.

Fixpoint sorted {A} (key : A -> datetime) (l : list A) : result (list A) :=
  match l with
  | [] => Ok []
  | x :: rest =>
      match sorted key rest with
      | Ok rest' => sorted_insert key x rest'
      | Raise e => Raise e
      end
  end.

(** [l[:n]]. *)
Definition slice_to {A} (l : list A) (n : Z) : list A :=
  if 0 <=? n then firstn (Z.to_nat n) l
  else firstn (length l - Z.to_nat (- n)) l.

(** Lines 503-504. *)
Definition select_winners (stamps : gmap Z (gmap Z Z)) (message_id : Z)
    (eligible : list Member) (tasks_this_round : Z) : result (list Member) :=
  match sorted (sort_key stamps message_id) eligible with
  | Ok sorted_reactors => Ok (slice_to sorted_reactors tasks_this_round)
  | Raise e => Raise e
  end.

(** ** Settling the winners *)

Record SettleEnv : Type :=
  { se_create_role : result Role;    (* guild.create_role *)
    se_add_roles : result unit;      (* winner_member.add_roles *)
    se_dm : DMEnv;
    se_sheet : Z -> sheet_attempt }.

(** The [try] body of the loop over the winners, lines 511-525.  The value
    is what the body appends to [winners_assigned], if anything.
    [asyncio.create_task(self.schedule_role_removal(...))] puts the deferred
    removal in [_role_removal_tasks]; it sleeps for hours and is not run
    here. *)
Definition process_winner (env : SettleEnv) (guild : option Guild)
    (starting_task_num : Z) (i : nat) (winner_member : Member)
  : M (option (Member * Z)) :=
  let current_task_num := starting_task_num + Z.of_nat i in
  match guild with
  | Some g =>
      name <- gets TASK_ROLE_NAME ;;
      role <- get_or_create_role g name (se_create_role env) ;;
      io (AddRoles (member_id winner_member) (role_id role) current_task_num)
         (se_add_roles env) ;;
      modify (fun b =>
                set_role_removal_tasks
                  (role_removal_tasks b
                     ++ [(member_id winner_member, role_id role)]) b) ;;
      dm_winner (se_dm env) winner_member current_task_num ;;
      write_to_sheet (se_sheet env) current_task_num
        (member_name winner_member) ;;
      ret (Some (winner_member, current_task_num))
  | None => log ERROR LGuildIsNone ;; ret None
  end.

(** [for i, winner_member in enumerate(winners)], from index [i] on.
    Besides [winners_assigned] the loop keeps, for each winner in turn, how
    the [try] body ended. *)
Fixpoint settle_loop (envs : nat -> SettleEnv) (guild : option Guild)
    (starting_task_num : Z) (i : nat) (winners : list Member)
    (winners_assigned : list (Member * Z)) (outcomes : list (result unit))
  : M (list (Member * Z) * list (result unit)) :=
  match winners with
  | [] => ret (winners_assigned, outcomes)
  | winner_member :: rest =>
      step <-
        try_except
          (appended <-
             process_winner (envs i) guild starting_task_num i winner_member ;;
           ret (match appended with
                | Some a => winners_assigned ++ [a]
                | None => winners_assigned
                end, outcomes ++ [Ok tt]))
          any_Exception
          (fun e =>
             log ERROR (LFailedWinner (member_id winner_member) e) ;;
             ret (winners_assigned, outcomes ++ [Raise e])) ;;
      settle_loop envs guild starting_task_num (S i) rest (fst step) (snd step)
  end.

(** ** Administrative commands *)

Definition loop_stop : M unit :=
  emit LoopStop ;; modify (set_loop_running false).

Definition stop_tasks (log_answer : result unit) : M unit :=
  modify (set_stop_requested true) ;;
  running <- gets loop_running ;;
  if running then loop_stop ;; send_log log_answer TStopped
  else log WARNING LStopNotRunning.

Definition pause_tasks (log_answer : result unit) : M unit :=
  paused <- gets is_paused ;;
  if negb paused then modify (set_is_paused true) ;; send_log log_answer TPaused
  else ret tt.

Definition resume_tasks (log_answer : result unit) : M unit :=
  paused <- gets is_paused ;;
  if paused then modify (set_is_paused false) ;; send_log log_answer TResumed
  else ret tt.

(** [restart_task_loop]: the loop runs again once it is started. *)
Definition restart_task_loop : M unit :=
  modify (fun b =>
            set_loop_running
              (configured b
               && match announce_channel b with Some _ => true | None => false end)
              b).

(** [stop_tasks], [pause_tasks] and [resume_tasks] above are taken between
    their deferral and their reply, which come before and after all they do
    to the bot.  [/create_task] awaits its reply between setting the batch
    and starting the loop, so its deferral and its replies are part of the
    model.

    What the calls of [/create_task] answer. *)
Record CreateEnv : Type :=
  { ct_defer : result unit;      (* interaction.response.defer *)
    ct_followup : result unit;   (* interaction.followup.send *)
    ct_log_send : result unit }. (* logs_channel.send *)

(** Lines 704-710: the assignments that set the batch up.  No await comes
    between them. *)
Definition set_batch (tasks : Z) (type : string) (winners : option Z)
    (description : option string) (b : TaskBot) : TaskBot :=
  {| TASK_ROLE_NAME := TASK_ROLE_NAME b;
     total_tasks := tasks;
     sheet_url := sheet_url b;
     configured := configured b;
     loop_running := loop_running b;
     announce_channel := announce_channel b;
     logs_channel := logs_channel b;
     current_task := 1;
     gc := gc b;
     reaction_timestamps := reaction_timestamps b;
     winners_per_task :=
       match winners with
       | Some w => w
       | None => DEFAULT_WINNERS_PER_TASK
       end;
     task_type := type;
     is_paused := false;
     task_description :=
       match description with Some d => d | None => EmptyString end;
     role_removal_tasks := role_removal_tasks b;
     stop_requested := false;
     trace := trace b |}.

(** Lines 697-710, up to the first await after the batch is set.  [true]:
    the batch is set; [false]: the command was refused and returns. *)
Definition create_task_batch (tasks : Z) (type : string)
    (winners : option Z) (description : option string) (env : CreateEnv)
  : M bool :=
  io InteractionDefer (ct_defer env) ;;
  is_configured <- gets configured ;;
  if negb is_configured then
    log WARNING LNotConfigured ;;
    io (InteractionFollowup BotNotConfigured) (ct_followup env) ;;
    ret false
  else
    modify (set_batch tasks type winners description) ;;
    ret true.

(** Lines 712-714: the reply, the post in the logs channel, and the start of
    the loop.  The rest of the bot goes on while the command awaits the
    first two: a round in flight runs between [create_task_batch] and the
    end of [create_task_start]. *)
Definition create_task_start (tasks : Z) (env : CreateEnv) : M unit :=
  io (InteractionFollowup (AllocationStarted tasks)) (ct_followup env) ;;
  send_log (ct_log_send env) (TStarted tasks) ;;
  restart_task_loop.

(** The command when nothing else runs during its awaits. *)
Definition create_task (tasks : Z) (type : string)
    (winners : option Z) (description : option string)
    (env : CreateEnv) : M unit :=
  batch_set <- create_task_batch tasks type winners description env ;;
  if batch_set then create_task_start tasks env else ret tt.

(** ** The allocation cycle *)

(** What happens while the cycle is suspended in
    [asyncio.sleep(self.reaction_time)]. *)
Inductive window_event : Type :=
| WReaction (ev : ReactionEvent) (now : Z)
| WStop
| WPause
| WResume.

Record TickEnv : Type :=
  { env_log_send : result unit;       (* logs_channel.send *)
    env_announce : result Z;          (* announce_channel.send(embed=embed): the id of the message *)
    env_add_reaction : result unit;   (* message.add_reaction *)
    env_ping : option (result unit);  (* get_role(VERIFIED_ROLE_ID), then the ping *)
    env_window : list window_event;
    env_fetch_message : result Message;
    env_settle : nat -> SettleEnv;
    env_congratulate : result unit;
    env_unclaimed : result unit }.

Definition window_step (log_answer : result unit) (w : window_event)
  : M unit :=
  match w with
  | WReaction ev now => modify (on_reaction_add ev now)
  | WStop => stop_tasks log_answer
  | WPause => pause_tasks log_answer
  | WResume => resume_tasks log_answer
  end.

Fixpoint window (log_answer : result unit) (events : list window_event)
  : M unit :=
  match events with
  | [] => ret tt
  | w :: rest => window_step log_answer w ;; window log_answer rest
  end.

(** Lines 461-474. *)
Definition ping (env : TickEnv) (channel : Z) : M unit :=
  match env_ping env with
  | Some answer =>
      try_except (io (PingRole channel) answer) any_Exception
        (fun e =>
           log ERROR (LPingFailed e) ;;
           send_log (env_log_send env)
             (if is_Forbidden e then TPingForbidden else TPingError))
  | None =>
      log WARNING LPingRoleMissing ;;
      send_log (env_log_send env) TPingRoleMissing
  end.

(** [self.announce_channel], which the guard at line 409 found set. *)
Definition the_announce_channel : M Z :=
  ch <- gets announce_channel ;;
  match ch with
  | Some c => ret c
  | None => raise OtherError
  end.

(** [del self.reaction_timestamps[message_id]]. *)
Definition del_reaction_timestamps (message_id : Z) : M unit :=
  stamps <- gets reaction_timestamps ;;
  match stamps !! message_id with
  | Some _ => modify (set_reaction_timestamps (delete message_id stamps))
  | None => raise KeyError
  end.

(** Where the [try] body stands when the loop over the winners is over, or
    when it returned before. *)
Inductive round_state : Type :=
| RNothingToAssign
| RAbandoned (message_id : Z)
| RUnclaimed (message_id starting_task_num tasks_this_round : Z)
| RSettled (message_id : Z) (eligible winners : list Member)
    (winners_assigned : list (Member * Z)) (outcomes : list (result unit)).

Definition tasks_this_round (b : TaskBot) : Z :=
  Z.min (winners_per_task b) (total_tasks b - current_task b + 1).

(** The [try] body up to the end of the loop over the winners,
    lines 422-527. *)
Definition round_settle (env : TickEnv) : M round_state :=
  starting_task_num <- gets current_task ;;
  this_round <- gets tasks_this_round ;;
  if this_round <=? 0 then loop_stop ;; ret RNothingToAssign
  else
    channel <- the_announce_channel ;;
    message_id <-
      io (AnnounceTasks channel starting_task_num this_round)
         (env_announce env) ;;
    modify (fun b =>
              set_reaction_timestamps
                (<[message_id := ∅]> (reaction_timestamps b)) b) ;;
    io (AddReaction message_id CHECK_MARK) (env_add_reaction env) ;;
    ping env channel ;;
    window (env_log_send env) (env_window env) ;;
    stop <- gets stop_requested ;;
    if stop then ret (RAbandoned message_id)
    else
      channel <- the_announce_channel ;;
      message <- io (FetchMessage channel message_id) (env_fetch_message env) ;;
      reactors <- collect_reactors message ;;
      name <- gets TASK_ROLE_NAME ;;
      match eligible_reactors name (message_guild message) reactors with
      | [] => ret (RUnclaimed message_id starting_task_num this_round)
      | eligible =>
          stamps <- gets reaction_timestamps ;;
          winners <- lift (select_winners stamps message_id eligible this_round) ;;
          settled <-
            settle_loop (env_settle env) (message_guild message)
              starting_task_num 0 winners [] [] ;;
          ret (RSettled message_id eligible winners (fst settled) (snd settled))
      end.

Inductive tick_report : Type :=
| StopRequested
| Paused
| NotConfigured
| AllAssigned
| NothingToAssign
| Abandoned (message_id : Z)
| RoundUnclaimed (message_id : Z)
| RoundSettled (message_id : Z) (eligible winners : list Member)
    (winners_assigned : list (Member * Z))
| LoopFailed (e : exn).

(** The rest of the [try] body, lines 529-559. *)
Definition round_close (env : TickEnv) (r : round_state) : M tick_report :=
  match r with
  | RNothingToAssign => ret NothingToAssign
  | RAbandoned message_id => ret (Abandoned message_id)
  | RSettled message_id eligible winners winners_assigned _ =>
      match winners_assigned with
      | _ :: _ =>
          modify (fun b =>
                    set_current_task
                      (current_task b + Z.of_nat (length winners_assigned)) b) ;;
          channel <- the_announce_channel ;;
          io (Congratulate channel
                (map (fun a => member_id (fst a)) winners_assigned))
             (env_congratulate env)
      | [] => log WARNING LNoWinnersAssigned
      end ;;
      del_reaction_timestamps message_id ;;
      ret (RoundSettled message_id eligible winners winners_assigned)
  | RUnclaimed message_id starting_task_num this_round =>
      channel <- the_announce_channel ;;
      io (Unclaimed channel starting_task_num this_round) (env_unclaimed env) ;;
      del_reaction_timestamps message_id ;;
      ret (RoundUnclaimed message_id)
  end.

(** Why a tick does not enter the [try], lines 402-419. *)
Inductive guard : Type :=
| GStopRequested
| GPaused
| GNotConfigured
| GAllAssigned
| GPass.

Definition tick_guard (b : TaskBot) : guard :=
  if stop_requested b then GStopRequested
  else if is_paused b then GPaused
  else if negb (configured b)
          || match announce_channel b with Some _ => false | None => true end
  then GNotConfigured
  else if total_tasks b <? current_task b then GAllAssigned
  else GPass.

Definition task_allocation_loop_impl (env : TickEnv) : M tick_report :=
  g <- gets tick_guard ;;
  match g with
  | GStopRequested => ret StopRequested
  | GPaused => ret Paused
  | GNotConfigured => log WARNING LNotConfigured ;; ret NotConfigured
  | GAllAssigned =>
      send_log (env_log_send env) TAllCompleted ;;
      loop_stop ;;
      ret AllAssigned
  | GPass =>
      try_except (r <- round_settle env ;; round_close env r) any_Exception
        (fun e => log CRITICAL (LLoopFailed e) ;; ret (LoopFailed e))
  end.

(** ** Runs *)

(** What can happen to the bot once a batch is started: a timer tick, a
    reaction event, or one of the commands that leave the batch alone. *)
Inductive event : Type :=
| Tick (env : TickEnv)
| ReactionAdd (ev : ReactionEvent) (now : Z)
| StopTasks (log_answer : result unit)
| PauseTasks (log_answer : result unit)
| ResumeTasks (log_answer : result unit).

Definition step (e : event) (b : TaskBot) : TaskBot :=
  match e with
  | Tick env => snd (task_allocation_loop_impl env b)
  | ReactionAdd ev now => on_reaction_add ev now b
  | StopTasks a => snd (stop_tasks a b)
  | PauseTasks a => snd (pause_tasks a b)
  | ResumeTasks a => snd (resume_tasks a b)
  end.

Fixpoint run (events : list event) (b : TaskBot) : TaskBot :=
  match events with
  | [] => b
  | e :: rest => run rest (step e b)
  end.

Definition count_ok {A} (l : list (result A)) : Z :=
  Z.of_nat (length (List.filter is_ok l)).

(** The winners of the round a tick runs whose [try] body ended without an
    exception; none when the tick does not get to settle anyone. *)
Definition settled_in_tick (env : TickEnv) (b : TaskBot) : Z :=
  match tick_guard b with
  | GPass =>
      match round_settle env b with
      | (Ok (RSettled _ _ _ _ outcomes), _) => count_ok outcomes
      | _ => 0
      end
  | _ => 0
  end.

Fixpoint settled_in_run (events : list event) (b : TaskBot) : Z :=
  match events with
  | [] => 0
  | e :: rest =>
      match e with
      | Tick env => settled_in_tick env b
      | _ => 0
      end + settled_in_run rest (step e b)
  end.

(** ** Sample data *)

Module Sample.

Definition holder : Role :=
  {| role_id := 900; role_name := "TaskHolder"%string |}.

Definition alice : Member :=
  {| member_id := 1; member_name := "alice"%string; member_roles := [] |}.

Definition bob : Member :=
  {| member_id := 2; member_name := "bob"%string; member_roles := [] |}.

(** carol still holds the role of an earlier task. *)
Definition carol : Member :=
  {| member_id := 3; member_name := "carol"%string;
     member_roles := [holder] |}.

Definition user_of (m : Member) : User :=
  {| user_id := member_id m; user_name := member_name m; user_bot := false |}.

Definition zen : User :=
  {| user_id := 99; user_name := "zen-tasker"%string; user_bot := true |}.

Definition guild : Guild :=
  {| guild_roles := [holder];
     guild_members := [alice; bob; carol];
     guild_fetch_member := fun _ => Raise NotFound |}.

Definition THUMBS_UP : string :=
  String (ascii_of_nat 240) (String (ascii_of_nat 159)
    (String (ascii_of_nat 145) (String (ascii_of_nat 141) EmptyString))).

(** The bot after [on_ready], before any batch. *)
Definition fresh : TaskBot :=
  {| TASK_ROLE_NAME := "TaskHolder"%string;
     total_tasks := 0;
     sheet_url := "https://docs.google.com/spreadsheets/d/1umbEo-x_y/edit"%string;
     configured := true;
     loop_running := false;
     announce_channel := Some 10;
     logs_channel := Some 11;
     current_task := 1;
     gc := true;
     reaction_timestamps := ∅;
     winners_per_task := DEFAULT_WINNERS_PER_TASK;
     task_type := "Comment"%string;
     is_paused := false;
     task_description := EmptyString;
     role_removal_tasks := [];
     stop_requested := false;
     trace := [] |}.

(** Every call of [/create_task] succeeds. *)
Definition create_ok : CreateEnv :=
  {| ct_defer := Ok tt; ct_followup := Ok tt; ct_log_send := Ok tt |}.

(** [/create_task tasks:3 task_type:Comment winners_per_task:2]. *)
Definition batch : TaskBot :=
  snd (create_task 3 "Comment"%string (Some 2) None create_ok fresh).

Definition dm_ok : DMEnv :=
  {| dm_send := Ok tt; dm_fallback_send := Ok tt; dm_log_send := Ok tt |}.

(** Direct messages closed, and the announce channel refuses the notice. *)
Definition dm_lost : DMEnv :=
  {| dm_send := Raise Forbidden;
     dm_fallback_send := Raise HTTPException;
     dm_log_send := Ok tt |}.

Definition settle_ok : SettleEnv :=
  {| se_create_role := Raise Forbidden;
     se_add_roles := Ok tt;
     se_dm := dm_ok;
     se_sheet := fun _ => Opened 1000 (Ok tt) |}.

Definition settle_dm_lost : SettleEnv :=
  {| se_create_role := Raise Forbidden;
     se_add_roles := Ok tt;
     se_dm := dm_lost;
     se_sheet := fun _ => Opened 1000 (Ok tt) |}.

Definition reacts (message_id : Z) (m : Member) (emoji : string)
  : ReactionEvent :=
  {| ev_message_id := message_id; ev_user := user_of m; ev_emoji := emoji |}.

(** The announcement with the bot's own check mark and the check marks of
    [users]. *)
Definition announcement (users : list User) : Message :=
  {| message_guild := Some guild;
     message_reactions :=
       [ {| reaction_emoji := CHECK_MARK; reaction_users := Ok (zen :: users) |} ] |}.

(** A tick in which every call succeeds: the announcement gets id 500. *)
Definition tick_env (events : list window_event) (fetched : Message)
    (settle : nat -> SettleEnv) : TickEnv :=
  {| env_log_send := Ok tt;
     env_announce := Ok 500;
     env_add_reaction := Ok tt;
     env_ping := Some (Ok tt);
     env_window := events;
     env_fetch_message := Ok fetched;
     env_settle := settle;
     env_congratulate := Ok tt;
     env_unclaimed := Ok tt |}.

(** carol, alice and bob react in that order; all three are seen. *)
Definition tick_three : TickEnv :=
  tick_env
    [ WReaction (reacts 500 carol CHECK_MARK) 5;
      WReaction (reacts 500 alice CHECK_MARK) 7;
      WReaction (reacts 500 bob CHECK_MARK) 9 ]
    (announcement [user_of bob; user_of carol; user_of alice])
    (fun _ => settle_ok).

(** alice's reaction event arrives, bob's does not; the fetched message
    shows both reactions. *)
Definition tick_missed_event : TickEnv :=
  tick_env
    [ WReaction (reacts 500 alice CHECK_MARK) 7 ]
    (announcement [user_of alice; user_of bob])
    (fun _ => settle_ok).

(** [/stop_tasks] while the reactions are collected. *)
Definition tick_stopped : TickEnv :=
  tick_env
    [ WReaction (reacts 500 alice CHECK_MARK) 7; WStop ]
    (announcement [user_of alice])
    (fun _ => settle_ok).

(** alice wins task 1 and bob task 2; alice's notification is lost after
    her role was granted. *)
Definition tick_first_winner_fails : TickEnv :=
  tick_env
    [ WReaction (reacts 500 alice CHECK_MARK) 7;
      WReaction (reacts 500 bob CHECK_MARK) 9 ]
    (announcement [user_of alice; user_of bob])
    (fun i => match i with O => settle_dm_lost | _ => settle_ok end).

(** bob reacts with a thumbs-up only. *)
Definition thumbs_up_message : Message :=
  {| message_guild := Some guild;
     message_reactions :=
       [ {| reaction_emoji := CHECK_MARK; reaction_users := Ok [zen] |};
         {| reaction_emoji := THUMBS_UP; reaction_users := Ok [user_of bob] |} ] |}.

(** The announcement gets id [message_id]; fetching it back fails. *)
Definition tick_fetch_fails (message_id : Z) : TickEnv :=
  {| env_log_send := Ok tt;
     env_announce := Ok message_id;
     env_add_reaction := Ok tt;
     env_ping := Some (Ok tt);
     env_window := [ WReaction (reacts message_id alice CHECK_MARK) 7 ];
     env_fetch_message := Raise HTTPException;
     env_settle := fun _ => settle_ok;
     env_congratulate := Ok tt;
     env_unclaimed := Ok tt |}.

(** A round is open on message 500 and alice's reaction is recorded. *)
Definition recorded : TaskBot :=
  set_reaction_timestamps {[ 500 := {[ 1 := 7 ]} ]} batch.

(** The ledger is down. *)
Definition sheet_down (attempt : Z) : sheet_attempt := OpenFails HTTPException.

(** A run: a round that settles alice and bob, then one in which the only
    winner's notification is lost. *)
Definition two_ticks : list event :=
  [ Tick tick_three; Tick tick_first_winner_fails ].

End Sample.

(** ** The claims as the specification words them, where the code differs *)

(** Section 4.2: the reactions are restricted to the canonical emoji, so
    somebody who reacted with other emojis only is not eligible. *)
Definition only_check_mark_counts : Prop :=
  forall (b : TaskBot) (message : Message) (user : User)
         (reactors : list Member) (b' : TaskBot),
    collect_reactors message b = (Ok reactors, b') ->
    (forall reaction users,
        In reaction (message_reactions message) ->
        reaction_users reaction = Ok users ->
        In user users -> reaction_emoji reaction <> CHECK_MARK) ->
    ~ In (user_id user)
         (map member_id
            (eligible_reactors (TASK_ROLE_NAME b) (message_guild message)
               reactors)).

(** Section 4.5: nothing is raised past [dm_winner]. *)
Definition dm_winner_never_raises : Prop :=
  forall (env : DMEnv) (winner : Member) (task_number : Z) (b : TaskBot),
    is_ok (fst (dm_winner env winner task_number b)) = true.

(** ** Reading a trace *)

Definition is_update_cell (e : effect) : bool :=
  match e with IO (UpdateCell _ _ _) _ => true | _ => false end.

Definition is_open_sheet (e : effect) : bool :=
  match e with IO (OpenSheet _) _ => true | _ => false end.

Fixpoint sleeps (t : list effect) : list Z :=
  match t with
  | [] => []
  | IO (Sleep d) _ :: rest => d :: sleeps rest
  | _ :: rest => sleeps rest
  end.

Definition count_effects (p : effect -> bool) (t : list effect) : nat :=
  length (List.filter p t).

(** ** Notions used in the statements and proofs *)

(** What [send_log] leaves in the trace. *)
Definition send_log_trace (answer : result unit) (text : log_text)
    (channel : option Z) : list effect :=
  match channel with
  | Some c =>
      IO (LogsSend c text) (is_ok answer)
      :: match answer with
         | Ok _ => []
         | Raise e => [Log ERROR (LLogSendFailed e)]
         end
  | None => []
  end.

(** What one pass of the retry loop leaves in the trace, and how its [try]
    body ends. *)
Definition sheet_try_trace (sheet_id : option string) (a : sheet_attempt)
    (task_number : Z) (winner_name : string) : list effect * result bool :=
  match sheet_id with
  | None => ([Log ERROR LInvalidSheetUrl], Ok true)
  | Some id =>
      match a with
      | OpenFails e => ([IO (OpenSheet id) false], Raise e)
      | Opened row_count update =>
          if row_count <? task_number + 1 then
            ([IO (OpenSheet id) true; Log ERROR (LRowOutOfBounds task_number)],
             Ok true)
          else
            ([IO (OpenSheet id) true;
              IO (UpdateCell (task_number + 1) 4 winner_name) (is_ok update)],
             match update with Ok _ => Ok true | Raise e => Raise e end)
      end
  end.

(** What the retry loop leaves in the trace. *)
Fixpoint sheet_loop_trace (sheet_id : option string)
    (sheet : Z -> sheet_attempt) (task_number : Z) (winner_name : string)
    (attempts : list Z) : list effect :=
  match attempts with
  | [] => []
  | attempt :: rest =>
      let (d, r) :=
        sheet_try_trace sheet_id (sheet attempt) task_number winner_name in
      match r with
      | Ok true => d
      | Ok false =>
          d ++ sheet_loop_trace sheet_id sheet task_number winner_name rest
      | Raise e =>
          d ++ Log ERROR (LSheetAttemptFailed (attempt + 1) e)
            :: (if attempt <? 2 then IO (Sleep (2 ^ attempt)) true
                else Log CRITICAL (LSheetGaveUp task_number))
            :: sheet_loop_trace sheet_id sheet task_number winner_name rest
      end
  end.

(** One pass of the retry loop raises: the sheet does not open, or the row
    is within bounds and the cell update fails. *)
Definition attempt_raises (task_number : Z) (a : sheet_attempt) : bool :=
  match a with
  | OpenFails _ => true
  | Opened row_count update =>
      negb (row_count <? task_number + 1) && negb (is_ok update)
  end.

(** A coroutine leaves an observation of the bot as it found it. *)
Definition keeps {A X} (f : TaskBot -> X) (m : M A) : Prop :=
  forall s, f (snd (m s)) = f s.

(** An observation that no assignment of the cycle touches, except those to
    [current_task] itself. *)
Record untouched {X} (f : TaskBot -> X) : Prop :=
  { untouched_trace : forall t s, f (set_trace t s) = f s;
    untouched_stamps : forall m s, f (set_reaction_timestamps m s) = f s;
    untouched_paused : forall p s, f (set_is_paused p s) = f s;
    untouched_stop : forall p s, f (set_stop_requested p s) = f s;
    untouched_loop : forall p s, f (set_loop_running p s) = f s;
    untouched_removal : forall l s, f (set_role_removal_tasks l s) = f s }.

(** The keys of a list are all aware, or all naive. *)
Definition is_aware (d : datetime) : bool :=
  match d with Aware _ => true | Naive _ => false end.

Definition instant (d : datetime) : Z :=
  match d with Aware t => t | Naive t => t end.

Definition same_kind {A} (key : A -> datetime) (l : list A) : bool :=
  forallb (fun x => is_aware (key x)) l
  || forallb (fun x => negb (is_aware (key x))) l.

(** The order of the stamps behind two sort keys. *)
Definition key_le {A} (key : A -> datetime) (a b : A) : Prop :=
  instant (key a) <= instant (key b).

(** The same message with other emojis on its reactions. *)
Definition with_emojis (relabel : string -> string) (message : Message)
  : Message :=
  {| message_guild := message_guild message;
     message_reactions :=
       map (fun r =>
              {| reaction_emoji := relabel (reaction_emoji r);
                 reaction_users := reaction_users r |})
           (message_reactions message) |}.

(** How many winners the [try] body appended to [winners_assigned]. *)
Definition assigned_count (r : round_state) : Z :=
  match r with
  | RSettled _ _ _ winners_assigned _ => Z.of_nat (length winners_assigned)
  | _ => 0
  end.

(** A coroutine moves [current_task] forward by [n], however it ends. *)
Definition advances {A} (n : Z) (m : M A) : Prop :=
  forall s, current_task (snd (m s)) = current_task s + n.

(** The same settlement with another ledger. *)
Definition with_sheet (sheet : Z -> sheet_attempt) (env : SettleEnv)
  : SettleEnv :=
  {| se_create_role := se_create_role env;
     se_add_roles := se_add_roles env;
     se_dm := se_dm env;
     se_sheet := sheet |}.

(** * Further notions *)

(** ** Sheet ids *)

(** Every character of a string is of the class [[A-Za-z0-9\-_]]. *)
Fixpoint all_sheet_id_chars (s : string) : bool :=
  match s with
  | EmptyString => true
  | String c rest => sheet_id_char c && all_sheet_id_chars rest
  end.

(** A string is empty or starts outside the class: a run of the class ends
    in front of it. *)
Definition ends_run (s : string) : bool :=
  match s with
  | EmptyString => true
  | String c _ => negb (sheet_id_char c)
  end.

(** The start of the address of a Google sheet, as in
    [DEFAULT_SHEETS_URL]. *)
Definition SHEETS_ADDRESS : string :=
  "https://docs.google.com/spreadsheets/d/"%string.

(** ["/d/"] followed by a character of the class occurs in a string. *)
Definition has_sheet_id (url : string) : Prop :=
  exists pre c post,
    url = (pre ++ "/d/" ++ String c post)%string /\ sheet_id_char c = true.

(** ** Members *)

(** What [get_member_safely] finds for an id: the member of the cache, or
    else the one [fetch_member] returns. *)
Definition resolves (g : Guild) (uid : Z) (m : Member) : Prop :=
  List.find (fun x => member_id x =? uid) (guild_members g) = Some m
  \/ (List.find (fun x => member_id x =? uid) (guild_members g) = None
      /\ guild_fetch_member g uid = Ok m).

(** ** Task numbers *)

(** The winners of a round with the task numbers the loop gives them:
    [starting_task_num + i] for the winner at index [i]. *)
Definition numbered (starting_task_num : Z) (winners : list Member)
  : list (Member * Z) :=
  combine winners
    (map (fun i => starting_task_num + Z.of_nat i) (seq 0 (length winners))).

(** ** Calls of a round *)

(** What a round does to the outside: every call but a post in the logs
    channel. *)
Definition is_round_call (e : effect) : bool :=
  match e with
  | IO (LogsSend _ _) _ => false
  | IO _ _ => true
  | Log _ _ => false
  | LoopStop => false
  end.

Definition round_calls (t : list effect) : list effect :=
  List.filter is_round_call t.

(** ** Not reading the trace *)

(** A coroutine does not read the trace: on the same bot with any other
    trace it ends the same way, leaves the same bot and appends the same
    records. *)
Definition oblivious {A} (m : M A) : Prop :=
  forall s,
  exists d,
    trace (snd (m s)) = trace s ++ d
    /\ forall t,
         m (set_trace t s) = (fst (m s), set_trace (t ++ d) (snd (m s))).


(** Whether [dm_winner] returns, by what its two sends answer: the fallback
    send is the one call of it that is not guarded. *)
Definition dm_returns (env : DMEnv) (channel : option Z) : bool :=
  match dm_send env with
  | Ok _ => true
  | Raise e =>
      is_HTTPException e
      && match channel with
         | Some _ => is_ok (dm_fallback_send env)
         | None => true
         end
  end.

(** Whether [get_or_create_role] returns a role. *)
Definition role_obtained (g : Guild) (name : string) (create : result Role)
  : bool :=
  match utils_get (guild_roles g) name with
  | Some _ => true
  | None => is_ok create
  end.

(** Whether the [try] body of a winner ends without an exception, by what the
    calls of the settlement answer.  The ledger is not among them. *)
Definition settles (env : SettleEnv) (g : Guild) (name : string)
    (channel : option Z) : bool :=
  role_obtained g name (se_create_role env)
  && is_ok (se_add_roles env)
  && dm_returns (se_dm env) channel.

(** The elements of a list at the positions flagged. *)
Fixpoint kept {A} (l : list A) (flags : list bool) : list A :=
  match l, flags with
  | x :: l, true :: flags => x :: kept l flags
  | _ :: l, false :: flags => kept l flags
  | _, _ => []
  end.

(** A cell update that went through. *)
Definition is_cell_written (e : effect) : bool :=
  match e with IO (UpdateCell _ _ _) true => true | _ => false end.

(** The first pass of the retry loop that does not raise, if there is one. *)
Fixpoint first_returning (sheet : Z -> sheet_attempt) (task_number : Z)
    (attempts : list Z) : option sheet_attempt :=
  match attempts with
  | [] => None
  | attempt :: rest =>
      if attempt_raises task_number (sheet attempt)
      then first_returning sheet task_number rest
      else Some (sheet attempt)
  end.

(** That pass finds the row of the task within the sheet. *)
Definition writes_cell (sheet : Z -> sheet_attempt) (task_number : Z)
    (attempts : list Z) : bool :=
  match first_returning sheet task_number attempts with
  | Some (Opened row_count _) => negb (row_count <? task_number + 1)
  | _ => false
  end.

(** The stamp recorded for a user under a message, if there is one. *)
Definition stamp_of (b : TaskBot) (message_id uid : Z) : option Z :=
  match reaction_timestamps b !! message_id with
  | Some stamps => stamps !! uid
  | None => None
  end.

(** The message has a record in [reaction_timestamps]. *)
Definition tracked (b : TaskBot) (message_id : Z) : bool :=
  match reaction_timestamps b !! message_id with
  | Some _ => true
  | None => false
  end.

(** The clock reading of the first reaction event of the window that a user
    who is not a bot makes on the message. *)
Fixpoint first_reaction (message_id uid : Z) (events : list window_event)
  : option Z :=
  match events with
  | [] => None
  | WReaction ev now :: rest =>
      if negb (user_bot (ev_user ev)) && (ev_message_id ev =? message_id)
         && (user_id (ev_user ev) =? uid)
      then Some now
      else first_reaction message_id uid rest
  | _ :: rest => first_reaction message_id uid rest
  end.

(** The member and the role of each [add_roles] call of a trace that went
    through. *)
Definition roles_added (t : list effect) : list (Z * Z) :=
  flat_map
    (fun e =>
       match e with
       | IO (AddRoles member role _) true => [(member, role)]
       | _ => []
       end) t.

(** A coroutine puts a removal in [_role_removal_tasks] for each role it
    grants, in the order of the grants, and for nothing else. *)
Definition balanced {A} (m : M A) : Prop :=
  forall s, exists d,
    trace (snd (m s)) = trace s ++ d
    /\ role_removal_tasks (snd (m s)) = role_removal_tasks s ++ roles_added d.

(** A coroutine changes nothing of the bot but the trace and the removals
    scheduled. *)
Definition only_records {A} (m : M A) : Prop :=
  forall s, exists t l,
    snd (m s) = set_role_removal_tasks l (set_trace t s).

(** ** [/configure_settings]

    The settings of [TaskBot.__init__] besides those of [TaskBot] above. *)
Record Settings : Type :=
  { interval_minutes : Z;
    role_removal_hours : Z;
    reaction_time : Z;
    ping_role_name : string }.

(** [DEFAULT_INTERVAL_MINUTES], [DEFAULT_ROLE_REMOVAL_HOURS] and
    [DEFAULT_REACTION_TIME_SECONDS]. *)
Definition default_settings (ping : string) : Settings :=
  {| interval_minutes := 1;
     role_removal_hours := 6;
     reaction_time := 10;
     ping_role_name := ping |}.

(** The options of the command; a channel is given by its id. *)
Record ConfigureOptions : Type :=
  { opt_interval_minutes : option Z;
    opt_role_removal_hours : option Z;
    opt_reaction_time : option Z;
    opt_announce_channel : option Z;
    opt_logs_channel : option Z;
    opt_sheets_url : option string;
    opt_ping_role_name : option string }.

(** What the command answers through [interaction.followup.send]. *)
Inductive reply : Type :=
| IntervalTooSmall
| ReactionTimeOutOfRange
| RoleRemovalHoursOutOfRange
| SettingsUpdated.

Definition set_announce_channel (c : option Z) (b : TaskBot) : TaskBot :=
  {| TASK_ROLE_NAME := TASK_ROLE_NAME b; total_tasks := total_tasks b;
     sheet_url := sheet_url b; configured := configured b;
     loop_running := loop_running b; announce_channel := c;
     logs_channel := logs_channel b; current_task := current_task b;
     gc := gc b; reaction_timestamps := reaction_timestamps b;
     winners_per_task := winners_per_task b; task_type := task_type b;
     is_paused := is_paused b; task_description := task_description b;
     role_removal_tasks := role_removal_tasks b;
     stop_requested := stop_requested b; trace := trace b |}.

Definition set_logs_channel (c : option Z) (b : TaskBot) : TaskBot :=
  {| TASK_ROLE_NAME := TASK_ROLE_NAME b; total_tasks := total_tasks b;
     sheet_url := sheet_url b; configured := configured b;
     loop_running := loop_running b; announce_channel := announce_channel b;
     logs_channel := c; current_task := current_task b; gc := gc b;
     reaction_timestamps := reaction_timestamps b;
     winners_per_task := winners_per_task b; task_type := task_type b;
     is_paused := is_paused b; task_description := task_description b;
     role_removal_tasks := role_removal_tasks b;
     stop_requested := stop_requested b; trace := trace b |}.

Definition set_sheet_url (url : string) (b : TaskBot) : TaskBot :=
  {| TASK_ROLE_NAME := TASK_ROLE_NAME b; total_tasks := total_tasks b;
     sheet_url := url; configured := configured b;
     loop_running := loop_running b; announce_channel := announce_channel b;
     logs_channel := logs_channel b; current_task := current_task b;
     gc := gc b; reaction_timestamps := reaction_timestamps b;
     winners_per_task := winners_per_task b; task_type := task_type b;
     is_paused := is_paused b; task_description := task_description b;
     role_removal_tasks := role_removal_tasks b;
     stop_requested := stop_requested b; trace := trace b |}.

Definition set_configured (v : bool) (b : TaskBot) : TaskBot :=
  {| TASK_ROLE_NAME := TASK_ROLE_NAME b; total_tasks := total_tasks b;
     sheet_url := sheet_url b; configured := v;
     loop_running := loop_running b; announce_channel := announce_channel b;
     logs_channel := logs_channel b; current_task := current_task b;
     gc := gc b; reaction_timestamps := reaction_timestamps b;
     winners_per_task := winners_per_task b; task_type := task_type b;
     is_paused := is_paused b; task_description := task_description b;
     role_removal_tasks := role_removal_tasks b;
     stop_requested := stop_requested b; trace := trace b |}.

(** [x is not None and x < lo]. *)
Definition below (lo : Z) (x : option Z) : bool :=
  match x with Some v => v <? lo | None => false end.

(** [x is not None and not (lo <= x <= hi)]. *)
Definition outside (lo hi : Z) (x : option Z) : bool :=
  match x with Some v => negb ((lo <=? v) && (v <=? hi)) | None => false end.

(** [if x is not None: field = x]. *)
Definition override {A} (x : option A) (old : A) : A :=
  match x with Some v => v | None => old end.

(** [if s: ...] for an optional string: [None] and the empty string do not
    count. *)
Definition nonempty (s : option string) : option string :=
  match s with
  | Some EmptyString => None
  | other => other
  end.

(** The command, lines 635-678, on the bot and its settings.  [defer] and
    [followup] are what [interaction.response.defer] and
    [interaction.followup.send] answer; the reply asked for is returned
    beside the state. *)
Definition configure_settings (o : ConfigureOptions)
    (defer followup : result unit) (st : TaskBot * Settings)
  : result unit * (TaskBot * Settings) * list reply :=
  match defer with
  | Raise e => (Raise e, st, [])
  | Ok _ =>
      if below 1 (opt_interval_minutes o) then
        (followup, st, [IntervalTooSmall])
      else if outside 1 60 (opt_reaction_time o) then
        (followup, st, [ReactionTimeOutOfRange])
      else if outside 1 168 (opt_role_removal_hours o) then
        (followup, st, [RoleRemovalHoursOutOfRange])
      else
        let (b, s) := st in
        let s' :=
          {| interval_minutes :=
               override (opt_interval_minutes o) (interval_minutes s);
             role_removal_hours :=
               override (opt_role_removal_hours o) (role_removal_hours s);
             reaction_time := override (opt_reaction_time o) (reaction_time s);
             ping_role_name :=
               override (nonempty (opt_ping_role_name o)) (ping_role_name s) |}
        in
        let b :=
          match opt_announce_channel o with
          | Some c => set_announce_channel (Some c) b
          | None => b
          end in
        let b :=
          match opt_logs_channel o with
          | Some c => set_logs_channel (Some c) b
          | None => b
          end in
        let b :=
          match nonempty (opt_sheets_url o) with
          | Some url => set_sheet_url url b
          | None => b
          end in
        let b := set_configured true b in
        let b :=
          match opt_interval_minutes o with
          | Some _ => if loop_running b then snd (restart_task_loop b) else b
          | None => b
          end in
        (followup, (b, s'), [SettingsUpdated])
  end.

(** One use of the command after another. *)
Fixpoint configure_all
    (uses : list (ConfigureOptions * result unit * result unit))
    (st : TaskBot * Settings) : TaskBot * Settings :=
  match uses with
  | [] => st
  | (o, defer, followup) :: rest =>
      configure_all rest (snd (fst (configure_settings o defer followup st)))
  end.

(** The ranges the command asks of the numbers it is given. *)
Definition settings_in_range (s : Settings) : Prop :=
  1 <= interval_minutes s
  /\ 1 <= reaction_time s <= 60
  /\ 1 <= role_removal_hours s <= 168.

(** ** [/manual_assign]

    What the command says besides the calls of the cycle: its replies
    through [interaction.followup.send], the post of its [send_log], and
    the error records of its handlers. *)
Inductive followup_text : Type :=
| MustBeConfigured
| NoBatchStarted
| InvalidTaskNumber (total : Z)
| Assigned (task_number member : Z)
| PermissionError
| UnexpectedError (e : exn).

Inductive remark : Type :=
| Followup (text : followup_text) (ok : bool)
| LogsSendAssigned (channel task_number member : Z) (ok : bool)
| LoggedLacksPermissions
| LoggedFailedToAssign (e : exn).

(** What the calls of the command answer: [interaction.response.defer],
    the reply of the body, the reply of a handler, the calls of the
    settlement, and the post in the logs channel. *)
Record ManualEnv : Type :=
  { ma_defer : result unit;
    ma_followup : result unit;
    ma_followup_error : result unit;
    ma_settle : SettleEnv;
    ma_log_send : result unit }.

(** Lines 872-880 of the [try] body: the settlement of the cycle for one
    member and the task number given.  The reason of [add_roles] names the
    administrator instead of the task. *)
Definition manual_assign_grant (env : SettleEnv) (g : Guild)
    (task_number : Z) (user : Member) : M unit :=
  name <- gets TASK_ROLE_NAME ;;
  role <- get_or_create_role g name (se_create_role env) ;;
  io (AddRoles (member_id user) (role_id role) task_number)
     (se_add_roles env) ;;
  modify (fun b =>
            set_role_removal_tasks
              (role_removal_tasks b ++ [(member_id user, role_id role)]) b) ;;
  dm_winner (se_dm env) user task_number ;;
  write_to_sheet (se_sheet env) task_number (member_name user).

(** The [try] body, lines 871-883. *)
Definition manual_assign_try (env : ManualEnv) (g : Guild) (task_number : Z)
    (user : Member) (b : TaskBot) : result unit * TaskBot * list remark :=
  match manual_assign_grant (ma_settle env) g task_number user b with
  | (Raise e, b) => (Raise e, b, [])
  | (Ok _, b) =>
      let (b, posted) :=
        match logs_channel b with
        | Some c =>
            match ma_log_send env with
            | Ok _ =>
                (b, [LogsSendAssigned c task_number (member_id user) true])
            | Raise e =>
                (snd (log ERROR (LLogSendFailed e) b),
                 [LogsSendAssigned c task_number (member_id user) false])
            end
        | None => (b, [])
        end in
      (ma_followup env, b,
       posted ++ [Followup (Assigned task_number (member_id user))
                    (is_ok (ma_followup env))])
  end.

(** The command, lines 853-890. *)
Definition manual_assign (env : ManualEnv) (guild : option Guild)
    (task_number : Z) (user : Member) (b : TaskBot)
  : result unit * TaskBot * list remark :=
  match ma_defer env with
  | Raise e => (Raise e, b, [])
  | Ok _ =>
      if negb (configured b) then
        (ma_followup env, b,
         [Followup MustBeConfigured (is_ok (ma_followup env))])
      else if total_tasks b =? 0 then
        (ma_followup env, b,
         [Followup NoBatchStarted (is_ok (ma_followup env))])
      else if negb ((1 <=? task_number) && (task_number <=? total_tasks b))
      then
        (ma_followup env, b,
         [Followup (InvalidTaskNumber (total_tasks b))
            (is_ok (ma_followup env))])
      else
        match guild with
        | None => (Ok tt, b, [])
        | Some g =>
            match manual_assign_try env g task_number user b with
            | (Ok _, b, said) => (Ok tt, b, said)
            | (Raise e, b, said) =>
                if is_Forbidden e then
                  (ma_followup_error env, b,
                   said ++ [LoggedLacksPermissions;
                            Followup PermissionError
                              (is_ok (ma_followup_error env))])
                else
                  (ma_followup_error env, b,
                   said ++ [LoggedFailedToAssign e;
                            Followup (UnexpectedError e)
                              (is_ok (ma_followup_error env))])
            end
        end
  end.

(** ** [cleanup_lingering_roles]

    What the cleanup does to the outside, and what it logs at WARNING and
    above. *)
Inductive cleanup_effect : Type :=
| RemoveRoles (member role : Z) (ok : bool)
| SleepOneSecond
| FoundLingering (count : nat)
| RemoveForbidden (member : Z)
| RemoveFailed (member : Z) (e : exn).

(** [role.members]: the members in the cache of the guild that hold the
    role. *)
Definition role_members (g : Guild) (role : Role) : list Member :=
  List.filter (fun m => role_in role (member_roles m)) (guild_members g).

(** [for member in members_with_role], from index [i] on; [remove i] is
    what [remove_roles] answers for the member at that index. *)
Fixpoint cleanup_members (remove : nat -> result unit) (task_role : Role)
    (i : nat) (members : list Member) : list cleanup_effect * result unit :=
  match members with
  | [] => ([], Ok tt)
  | member :: rest =>
      let attempt :=
        RemoveRoles (member_id member) (role_id task_role)
          (is_ok (remove i)) in
      match remove i with
      | Ok _ =>
          let (t, r) := cleanup_members remove task_role (S i) rest in
          (attempt :: SleepOneSecond :: t, r)
      | Raise e =>
          if is_Forbidden e then
            let (t, r) := cleanup_members remove task_role (S i) rest in
            (attempt :: RemoveForbidden (member_id member) :: t, r)
          else if is_HTTPException e then
            let (t, r) := cleanup_members remove task_role (S i) rest in
            (attempt :: RemoveFailed (member_id member) e :: t, r)
          else ([attempt], Raise e)
      end
  end.

(** [for guild in self.guilds], from index [j] on. *)
Fixpoint cleanup_guilds (remove : nat -> nat -> result unit) (name : string)
    (j : nat) (guilds : list Guild) : list cleanup_effect * result unit :=
  match guilds with
  | [] => ([], Ok tt)
  | guild :: rest =>
      match utils_get (guild_roles guild) name with
      | Some task_role =>
          match role_members guild task_role with
          | [] => cleanup_guilds remove name (S j) rest
          | members_with_role =>
              let (t, r) :=
                cleanup_members (remove j) task_role 0 members_with_role in
              match r with
              | Ok _ =>
                  let (t', r') := cleanup_guilds remove name (S j) rest in
                  (FoundLingering (length members_with_role) :: t ++ t', r')
              | Raise e =>
                  (FoundLingering (length members_with_role) :: t, Raise e)
              end
          end
      | None => cleanup_guilds remove name (S j) rest
      end
  end.

Definition cleanup_lingering_roles (remove : nat -> nat -> result unit)
    (guilds : list Guild) (b : TaskBot) : list cleanup_effect * result unit :=
  cleanup_guilds remove (TASK_ROLE_NAME b) 0 guilds.

(** The member and role of each [remove_roles] call. *)
Definition removals (t : list cleanup_effect) : list (Z * Z) :=
  flat_map
    (fun e =>
       match e with
       | RemoveRoles member role _ => [(member, role)]
       | _ => []
       end) t.

(** The holders of the task role, guild by guild. *)
Definition lingering (name : string) (guilds : list Guild) : list (Z * Z) :=
  flat_map
    (fun g =>
       match utils_get (guild_roles g) name with
       | Some role =>
           map (fun m => (member_id m, role_id role)) (role_members g role)
       | None => []
       end) guilds.

Definition is_sleep (e : cleanup_effect) : bool :=
  match e with SleepOneSecond => true | _ => false end.

Definition is_removed (e : cleanup_effect) : bool :=
  match e with RemoveRoles _ _ true => true | _ => false end.

(** ** A round in two halves

    The lines of a round up to the end of the reaction window, 422-477.
    The value is the id of the announcement with the numbers read at lines
    422-424, or [None] when there is nothing to assign. *)
Definition round_to_window (env : TickEnv) : M (option (Z * Z * Z)) :=
  starting_task_num <- gets current_task ;;
  this_round <- gets tasks_this_round ;;
  if this_round <=? 0 then loop_stop ;; ret None
  else
    channel <- the_announce_channel ;;
    message_id <-
      io (AnnounceTasks channel starting_task_num this_round)
         (env_announce env) ;;
    modify (fun b =>
              set_reaction_timestamps
                (<[message_id := ∅]> (reaction_timestamps b)) b) ;;
    io (AddReaction message_id CHECK_MARK) (env_add_reaction env) ;;
    ping env channel ;;
    window (env_log_send env) (env_window env) ;;
    ret (Some (message_id, starting_task_num, this_round)).

(** The lines past the re-check of [stop_requested] up to the end of the
    loop over the winners, 482-527, with the locals [message],
    [starting_task_num] and [tasks_this_round] of the first half.  The flag
    is not read again in them. *)
Definition round_after_check (env : TickEnv)
    (message_id starting_task_num this_round : Z) : M round_state :=
  channel <- the_announce_channel ;;
  message <- io (FetchMessage channel message_id) (env_fetch_message env) ;;
  reactors <- collect_reactors message ;;
  name <- gets TASK_ROLE_NAME ;;
  match eligible_reactors name (message_guild message) reactors with
  | [] => ret (RUnclaimed message_id starting_task_num this_round)
  | eligible =>
      stamps <- gets reaction_timestamps ;;
      winners <- lift (select_winners stamps message_id eligible this_round) ;;
      settled <-
        settle_loop (env_settle env) (message_guild message)
          starting_task_num 0 winners [] [] ;;
      ret (RSettled message_id eligible winners (fst settled) (snd settled))
  end.

(** The lines after the window up to the end of the loop over the winners,
    478-527. *)
Definition round_after_window (env : TickEnv)
    (message_id starting_task_num this_round : Z) : M round_state :=
  stop <- gets stop_requested ;;
  if stop then ret (RAbandoned message_id)
  else round_after_check env message_id starting_task_num this_round.

(** The rest of a tick from the end of the window on, lines 478-561. *)
Definition round_rest (env : TickEnv)
    (message_id starting_task_num this_round : Z) : M tick_report :=
  try_except
    (r <- round_after_window env message_id starting_task_num this_round ;;
     round_close env r)
    any_Exception
    (fun e => log CRITICAL (LLoopFailed e) ;; ret (LoopFailed e)).

(** The rest of a tick that has passed the re-check, lines 482-561. *)
Definition round_finish (env : TickEnv)
    (message_id starting_task_num this_round : Z) : M tick_report :=
  try_except
    (r <- round_after_check env message_id starting_task_num this_round ;;
     round_close env r)
    any_Exception
    (fun e => log CRITICAL (LLoopFailed e) ;; ret (LoopFailed e)).

(** ** Further sample data *)

(** alice and bob each reacted with the check mark and with a thumbs-up. *)
Definition both_emojis : Message :=
  {| message_guild := Some Sample.guild;
     message_reactions :=
       [ {| reaction_emoji := CHECK_MARK;
            reaction_users :=
              Ok [Sample.zen; Sample.user_of Sample.alice;
                  Sample.user_of Sample.bob] |};
         {| reaction_emoji := Sample.THUMBS_UP;
            reaction_users :=
              Ok [Sample.user_of Sample.bob; Sample.user_of Sample.alice] |} ] |}.

(** A tick in which nobody reacts. *)
Definition tick_nobody_reacts : TickEnv :=
  Sample.tick_env [] (Sample.announcement []) (fun _ => Sample.settle_ok).

(** [/configure_settings] with no option at all. *)
Definition no_options : ConfigureOptions :=
  {| opt_interval_minutes := None;
     opt_role_removal_hours := None;
     opt_reaction_time := None;
     opt_announce_channel := None;
     opt_logs_channel := None;
     opt_sheets_url := None;
     opt_ping_role_name := None |}.

(** An interval of five minutes and a reaction time of ninety seconds. *)
Definition slow_reactions : ConfigureOptions :=
  {| opt_interval_minutes := Some 5;
     opt_role_removal_hours := None;
     opt_reaction_time := Some 90;
     opt_announce_channel := None;
     opt_logs_channel := None;
     opt_sheets_url := None;
     opt_ping_role_name := None |}.

(** An interval of five minutes and a removal after a day. *)
Definition daily_removal : ConfigureOptions :=
  {| opt_interval_minutes := Some 5;
     opt_role_removal_hours := Some 24;
     opt_reaction_time := None;
     opt_announce_channel := None;
     opt_logs_channel := None;
     opt_sheets_url := None;
     opt_ping_role_name := None |}.

(** The bot when [on_ready] found none of its channels. *)
Definition unconfigured : TaskBot :=
  set_configured false
    (set_logs_channel None (set_announce_channel None Sample.fresh)).

(** [/manual_assign] when every call succeeds. *)
Definition manual_ok : ManualEnv :=
  {| ma_defer := Ok tt;
     ma_followup := Ok tt;
     ma_followup_error := Ok tt;
     ma_settle := Sample.settle_ok;
     ma_log_send := Ok tt |}.
(** * Theorems *)

(** ** Running a coroutine *)

Ltac unfold_m :=
  unfold log, io;
  unfold bind, try_except, emit, modify, lift, gets, ret, raise, any_Exception.

Lemma bind_gets {A B} (f : TaskBot -> A) (k : A -> M B) s :
  bind (gets f) k s = k (f s) s.
Proof. reflexivity. Qed.

Lemma bind_inv {A B} (m : M A) (k : A -> M B) s b s' :
  bind m k s = (Ok b, s') ->
  exists a s1, m s = (Ok a, s1) /\ k a s1 = (Ok b, s').
Proof.
  unfold bind. destruct (m s) as [[a|e] s1]; intros H.
  - now exists a, s1.
  - discriminate.
Qed.

Lemma set_trace_same (s : TaskBot) : set_trace (trace s) s = s.
Proof. now destruct s. Qed.

Lemma set_trace_nil (s : TaskBot) : set_trace (trace s ++ []) s = s.
Proof. rewrite app_nil_r. apply set_trace_same. Qed.

(** ** What a coroutine leaves alone *)

Section Frame.
Context {X : Type} (f : TaskBot -> X) (Hf : untouched f).

Lemma keeps_ret {A} (a : A) : keeps f (ret a).
Proof. now intros s. Qed.

Lemma keeps_raise {A} (e : exn) : keeps f (@raise A e).
Proof. now intros s. Qed.

Lemma keeps_gets {A} (g : TaskBot -> A) : keeps f (gets g).
Proof. now intros s. Qed.

Lemma keeps_lift {A} (r : result A) : keeps f (lift r).
Proof. now intros s. Qed.

Lemma keeps_bind {A B} (m : M A) (k : A -> M B) :
  keeps f m -> (forall a, keeps f (k a)) -> keeps f (bind m k).
Proof.
  intros Hm Hk s. unfold bind. specialize (Hm s).
  destruct (m s) as [[a|e] s1]; cbn in *; [|assumption].
  now rewrite Hk.
Qed.

Lemma keeps_try_except {A} (m : M A) catches (h : exn -> M A) :
  keeps f m -> (forall e, keeps f (h e)) -> keeps f (try_except m catches h).
Proof.
  intros Hm Hh s. unfold try_except. specialize (Hm s).
  destruct (m s) as [[a|e] s1]; cbn in *; [assumption|].
  destruct (catches e); [|assumption]. now rewrite Hh.
Qed.

Lemma keeps_emit (e : effect) : keeps f (emit e).
Proof. intros s. cbn. apply (untouched_trace f Hf). Qed.

Lemma keeps_log l m : keeps f (log l m).
Proof. apply keeps_emit. Qed.

Lemma keeps_io {A} (c : call) (answer : result A) : keeps f (io c answer).
Proof. apply keeps_bind; [apply keeps_emit|intros; apply keeps_lift]. Qed.

Lemma keeps_modify (g : TaskBot -> TaskBot) :
  (forall s, f (g s) = f s) -> keeps f (modify g).
Proof. intros Hg s. apply Hg. Qed.

Lemma keeps_on_reaction_add ev now s : f (on_reaction_add ev now s) = f s.
Proof.
  unfold on_reaction_add. destruct (user_bot (ev_user ev)); [reflexivity|].
  destruct (reaction_timestamps s !! ev_message_id ev) as [stamps|];
    [|reflexivity].
  destruct (stamps !! user_id (ev_user ev)); [reflexivity|].
  apply (untouched_stamps f Hf).
Qed.

End Frame.

(** One step of a frame proof: split a sequence, a handler or a branch, or
    close a leaf. *)
Ltac keeps_step Hf :=
  first
    [ apply keeps_ret | apply keeps_raise | apply keeps_gets | apply keeps_lift
    | apply (keeps_emit _ Hf) | apply (keeps_log _ Hf) | apply (keeps_io _ Hf)
    | apply keeps_bind; [|intro]
    | apply keeps_try_except; [|intro]
    | apply keeps_modify; intro;
      first [ apply (untouched_trace _ Hf) | apply (untouched_stamps _ Hf)
            | apply (untouched_paused _ Hf) | apply (untouched_stop _ Hf)
            | apply (untouched_loop _ Hf) | apply (untouched_removal _ Hf)
            | apply (keeps_on_reaction_add _ Hf) ]
    | match goal with
      | |- keeps _ (match ?x with _ => _ end) => destruct x
      end ].

Section Operations.
Context {X : Type} (f : TaskBot -> X) (Hf : untouched f).

Lemma keeps_send_log answer text : keeps f (send_log answer text).
Proof. unfold send_log. repeat keeps_step Hf. Qed.

Lemma keeps_dm_winner env w n : keeps f (dm_winner env w n).
Proof. unfold dm_winner. repeat (keeps_step Hf || apply keeps_send_log). Qed.

Lemma keeps_sheet_loop sheet n name attempts :
  keeps f (sheet_loop sheet n name attempts).
Proof.
  induction attempts as [|a rest IH]; cbn [sheet_loop].
  - apply keeps_ret.
  - unfold sheet_try. repeat (keeps_step Hf || apply IH).
Qed.

Lemma keeps_write_to_sheet sheet n name : keeps f (write_to_sheet sheet n name).
Proof. unfold write_to_sheet. repeat (keeps_step Hf || apply keeps_sheet_loop). Qed.

Lemma keeps_get_member_safely guild uid : keeps f (get_member_safely guild uid).
Proof. unfold get_member_safely. repeat keeps_step Hf. Qed.

Lemma keeps_get_or_create_role guild name create :
  keeps f (get_or_create_role guild name create).
Proof. unfold get_or_create_role. repeat keeps_step Hf. Qed.

Lemma keeps_collect_users guild users :
  forall reactors, keeps f (collect_users guild users reactors).
Proof.
  induction users as [|u rest IH]; intros reactors; cbn [collect_users].
  - apply keeps_ret.
  - repeat (keeps_step Hf || apply IH || apply keeps_get_member_safely).
Qed.

Lemma keeps_collect_reactions guild reactions :
  forall reactors, keeps f (collect_reactions guild reactions reactors).
Proof.
  induction reactions as [|r rest IH]; intros reactors;
    cbn [collect_reactions].
  - apply keeps_ret.
  - repeat (keeps_step Hf || apply IH || apply keeps_collect_users).
Qed.

Lemma keeps_process_winner env guild start i w :
  keeps f (process_winner env guild start i w).
Proof.
  unfold process_winner.
  repeat (keeps_step Hf || apply keeps_get_or_create_role
          || apply keeps_dm_winner || apply keeps_write_to_sheet).
Qed.

Lemma keeps_settle_loop envs guild start winners :
  forall i acc outs, keeps f (settle_loop envs guild start i winners acc outs).
Proof.
  induction winners as [|w rest IH]; intros i acc outs; cbn [settle_loop].
  - apply keeps_ret.
  - repeat (keeps_step Hf || apply IH || apply keeps_process_winner).
Qed.

Lemma keeps_loop_stop : keeps f loop_stop.
Proof. unfold loop_stop. repeat keeps_step Hf. Qed.

Lemma keeps_stop_tasks a : keeps f (stop_tasks a).
Proof.
  unfold stop_tasks.
  repeat (keeps_step Hf || apply keeps_loop_stop || apply keeps_send_log).
Qed.

Lemma keeps_pause_tasks a : keeps f (pause_tasks a).
Proof. unfold pause_tasks. repeat (keeps_step Hf || apply keeps_send_log). Qed.

Lemma keeps_resume_tasks a : keeps f (resume_tasks a).
Proof. unfold resume_tasks. repeat (keeps_step Hf || apply keeps_send_log). Qed.

Lemma keeps_window a events : keeps f (window a events).
Proof.
  induction events as [|w rest IH]; cbn [window].
  - apply keeps_ret.
  - unfold window_step.
    repeat (keeps_step Hf || apply IH || apply keeps_stop_tasks
            || apply keeps_pause_tasks || apply keeps_resume_tasks).
Qed.

Lemma keeps_ping env c : keeps f (ping env c).
Proof. unfold ping. repeat (keeps_step Hf || apply keeps_send_log). Qed.

Lemma keeps_round_settle env : keeps f (round_settle env).
Proof.
  unfold round_settle, the_announce_channel, collect_reactors.
  repeat (keeps_step Hf || apply keeps_loop_stop || apply keeps_ping
          || apply keeps_window || apply keeps_collect_reactions
          || apply keeps_settle_loop).
Qed.

Lemma keeps_the_announce_channel : keeps f the_announce_channel.
Proof. unfold the_announce_channel. repeat keeps_step Hf. Qed.

Lemma keeps_del_reaction_timestamps mid :
  keeps f (del_reaction_timestamps mid).
Proof. unfold del_reaction_timestamps. repeat keeps_step Hf. Qed.

Lemma keeps_restart_task_loop : keeps f restart_task_loop.
Proof. unfold restart_task_loop. repeat keeps_step Hf. Qed.

End Operations.


Lemma untouched_current_task : untouched current_task.
Proof. now split. Qed.

Lemma untouched_TASK_ROLE_NAME : untouched TASK_ROLE_NAME.
Proof. now split. Qed.

(** ** [send_log], [dm_winner] and the ledger *)

(** [send_log] returns, whatever the logs channel does. *)
Lemma send_log_run answer text s :
  send_log answer text s
  = (Ok tt, set_trace (trace s ++ send_log_trace answer text (logs_channel s)) s).
Proof.
  unfold send_log, send_log_trace. unfold_m.
  destruct (logs_channel s); [destruct answer as [[]|e]|]; cbn.
  - reflexivity.
  - now rewrite <- app_assoc.
  - now rewrite set_trace_nil.
Qed.

Section Ledger.
Variables (sheet : Z -> sheet_attempt) (n : Z) (name : string).

Lemma sheet_try_run a s :
  sheet_try a n name s
  = (snd (sheet_try_trace (extract_sheet_id (sheet_url s)) a n name),
     set_trace
       (trace s
          ++ fst (sheet_try_trace (extract_sheet_id (sheet_url s)) a n name))
       s).
Proof.
  unfold sheet_try, sheet_try_trace. unfold_m.
  destruct (extract_sheet_id (sheet_url s)) as [id|]; [|reflexivity].
  destruct a as [e|rows [[]|e]]; cbn; try reflexivity;
    destruct (rows <? n + 1); cbn; now rewrite <- app_assoc.
Qed.

Lemma sheet_loop_run attempts s :
  sheet_loop sheet n name attempts s
  = (Ok tt,
     set_trace
       (trace s
          ++ sheet_loop_trace (extract_sheet_id (sheet_url s)) sheet n name
               attempts) s).
Proof.
  revert s. induction attempts as [|attempt rest IH]; intros s.
  - cbn. unfold ret. now rewrite set_trace_nil.
  - cbn [sheet_loop sheet_loop_trace]. unfold bind at 1, try_except.
    rewrite sheet_try_run.
    destruct (sheet_try_trace _ _ _ _) as [d [[]|e]]; cbn [fst snd].
    + reflexivity.
    + rewrite IH. cbn [trace set_trace sheet_url]. now rewrite <- app_assoc.
    + unfold any_Exception. unfold_m.
      destruct (attempt <? 2); cbn [trace set_trace fst snd];
        rewrite IH; cbn [trace set_trace sheet_url];
        rewrite <- !app_assoc; reflexivity.
Qed.

End Ledger.

Lemma extract_sheet_id_empty : extract_sheet_id EmptyString = None.
Proof. reflexivity. Qed.

Ltac ltb_facts :=
  repeat match goal with
    | H : (_ <? _) = false |- _ => apply Z.ltb_ge in H
    | H : (_ <? _) = true |- _ => apply Z.ltb_lt in H
    end.

(** The back-off delays met so far: none, [2^0], or [2^0] then [2^1]. *)
Lemma backoff_prefix (l : list Z) :
  l = [] \/ l = [1] \/ l = [1; 2] ->
  exists k : nat,
    (k <= 2)%nat /\ l = map (fun a => 2 ^ Z.of_nat a) (seq 0 k).
Proof.
  intros [-> | [-> | ->]];
    [exists 0%nat|exists 1%nat|exists 2%nat]; (split; [lia|reflexivity]).
Qed.

(** C8.  [write_to_sheet] always returns and changes nothing of the bot but
    the trace, so [current_task] and the roles granted stay as they are.
    It calls [update_cell] at most three times; the delays it sleeps are
    [2^0], [2^1], one after each of the first two failed passes; once a
    pass finds the row out of bounds no later pass is made; the critical
    record is written when, and only when, three passes have raised. *)
Theorem C8_write_to_sheet_bounded_retry
    (sheet : Z -> sheet_attempt) (n : Z) (name : string) (b : TaskBot) :
  exists d : list effect,
    write_to_sheet sheet n name b = (Ok tt, set_trace (trace b ++ d) b)
    /\ (count_effects is_update_cell d <= 3)%nat
    /\ (exists k : nat,
          (k <= 2)%nat /\ sleeps d = map (fun a => 2 ^ Z.of_nat a) (seq 0 k))
    /\ (forall a rows update,
          0 <= a -> sheet a = Opened rows update -> rows < n + 1 ->
          (count_effects is_open_sheet d <= Z.to_nat a + 1)%nat)
    /\ (In (Log CRITICAL (LSheetGaveUp n)) d ->
        count_effects is_open_sheet d = 3%nat /\ sleeps d = [1; 2])
    /\ (gc b = true -> extract_sheet_id (sheet_url b) <> None ->
        attempt_raises n (sheet 0) = true ->
        attempt_raises n (sheet 1) = true ->
        attempt_raises n (sheet 2) = true ->
        In (Log CRITICAL (LSheetGaveUp n)) d).
Proof.
  unfold write_to_sheet. unfold bind at 1 2, gets.
  assert (Ha : forall a : Z, 0 <= a -> a = 0 \/ a = 1 \/ 2 <= a)
    by (intros; lia).
  destruct (negb (gc b) || String.eqb (sheet_url b) EmptyString) eqn:Hcfg.
  { exists [Log WARNING LSheetsNotConfigured]. unfold_m.
    split; [reflexivity|]. cbn.
    split; [lia|]. split; [apply backoff_prefix; tauto|].
    split; [intros; lia|].
    split; [intros [H|[]]; discriminate|].
    intros Hgc Hid _ _ _. exfalso. rewrite Hgc in Hcfg. cbn in Hcfg.
    apply String.eqb_eq in Hcfg. rewrite Hcfg in Hid. now apply Hid. }
  rewrite sheet_loop_run.
  eexists; split; [reflexivity|].
  cbn [sheet_loop_trace]. unfold sheet_try_trace, attempt_raises.
  destruct (extract_sheet_id (sheet_url b)) as [id|].
  2:{ cbn. split; [lia|]. split; [apply backoff_prefix; tauto|].
      split; [intros; lia|].
      split; [intros [H|[]]; discriminate|].
      intros _ Hid. now exfalso. }
  destruct (sheet 0) as [e0|rows0 [[]|e0]] eqn:H0;
    try destruct (rows0 <? n + 1) eqn:Hr0.
  all: destruct (sheet 1) as [e1|rows1 [[]|e1]] eqn:H1;
    try destruct (rows1 <? n + 1) eqn:Hr1.
  all: destruct (sheet 2) as [e2|rows2 [[]|e2]] eqn:H2;
    try destruct (rows2 <? n + 1) eqn:Hr2.
  all: cbn; (split; [lia|]); (split; [apply backoff_prefix; tauto|]).
  all: split;
    [ intros a rows update Hpos Hs Hlt;
      destruct (Ha a Hpos) as [-> | [-> | ?]]; try lia; ltb_facts;
      first [ congruence
            | rewrite H0 in Hs; inversion Hs; subst; lia
            | rewrite H1 in Hs; inversion Hs; subst; lia ]
    | split;
      [ intros H;
        first [ split; reflexivity
              | exfalso;
                repeat (destruct H as [H|H]; try discriminate); exact H ]
      | intros _ _ Hx0 Hx1 Hx2;
        first [ discriminate | tauto ] ] ].
Qed.

(** ** Recording reactions *)

(** C6.  A reaction event for a candidate whose stamp is already recorded
    for that message leaves the bot, and so the stamp and the rest of the
    reaction map, as it was. *)
Theorem C6_on_reaction_add_first_wins (ev : ReactionEvent) (now : Z)
    (b : TaskBot) (stamps : gmap Z Z) (t : Z) :
  reaction_timestamps b !! ev_message_id ev = Some stamps ->
  stamps !! user_id (ev_user ev) = Some t ->
  on_reaction_add ev now b = b.
Proof.
  intros Hm Hu. unfold on_reaction_add.
  destruct (user_bot (ev_user ev)); [reflexivity|].
  now rewrite Hm, Hu.
Qed.

(** Delivering the same event a second time changes nothing, whatever the
    bot was. *)
Lemma on_reaction_add_twice ev t1 t2 b :
  on_reaction_add ev t2 (on_reaction_add ev t1 b) = on_reaction_add ev t1 b.
Proof.
  unfold on_reaction_add at 2 3.
  destruct (user_bot (ev_user ev)) eqn:Hb.
  - unfold on_reaction_add. now rewrite Hb.
  - destruct (reaction_timestamps b !! ev_message_id ev) as [stamps|] eqn:Hm.
    + destruct (stamps !! user_id (ev_user ev)) as [t|] eqn:Hu.
      * unfold on_reaction_add. now rewrite Hb, Hm, Hu.
      * unfold on_reaction_add. rewrite Hb. cbn.
        rewrite lookup_insert_eq, lookup_insert_eq. reflexivity.
    + unfold on_reaction_add. now rewrite Hb, Hm.
Qed.

(** ** Notifying a winner *)

(** C7, as amended.  [dm_winner] returns [True] once the private message is
    sent.  When that send raises [Forbidden] or another [HTTPException] it
    posts the notice that tags the candidate in the announce channel, if
    one is set, and returns [False]; an exception of that post is not
    caught and leaves [dm_winner], as does any other exception of the
    private send. *)
Theorem C7_dm_winner_boundary (env : DMEnv) (w : Member) (n : Z)
    (b : TaskBot) :
  let r := dm_winner env w n b in
  match dm_send env with
  | Ok _ => fst r = Ok true
  | Raise e =>
      if is_HTTPException e then
        match announce_channel b with
        | Some c =>
            In (IO (AnnounceFallback c (member_id w) n)
                  (is_ok (dm_fallback_send env))) (trace (snd r))
            /\ match dm_fallback_send env with
               | Ok _ => fst r = Ok false
               | Raise e' => fst r = Raise e'
               end
        | None => fst r = Ok false
        end
      else fst r = Raise e
  end.
Proof.
  cbv zeta. unfold dm_winner. unfold_m.
  destruct (dm_send env) as [[]|e].
  - now rewrite send_log_run.
  - destruct (is_HTTPException e) eqn:He; [|reflexivity].
    cbn [trace set_trace announce_channel].
    destruct (announce_channel b) as [c|].
    + destruct (dm_fallback_send env) as [[]|e'].
      * rewrite send_log_run. cbn. split; [|reflexivity].
        rewrite !in_app_iff. cbn. tauto.
      * cbn. split; [|reflexivity]. rewrite !in_app_iff. cbn. tauto.
    + now rewrite send_log_run.
Qed.

(** ** Sorting and slicing *)

Section Sorting.
Context {A : Type} (key : A -> datetime).

Lemma datetime_lt_TypeError a b e : datetime_lt a b = Raise e -> e = TypeError.
Proof. destruct a, b; cbn; congruence. Qed.

Lemma datetime_lt_kind a b r :
  datetime_lt a b = Ok r ->
  is_aware a = is_aware b /\ r = (instant a <? instant b).
Proof. destruct a, b; cbn; intros H; inversion H; now split. Qed.

Lemma datetime_lt_same_kind a b :
  is_aware a = is_aware b -> datetime_lt a b = Ok (instant a <? instant b).
Proof. destruct a, b; cbn; congruence. Qed.

Lemma sorted_insert_perm x l :
  forall l', sorted_insert key x l = Ok l' -> Permutation (x :: l) l'.
Proof.
  induction l as [|y rest IH]; intros l' H; cbn in H.
  - inversion H. apply Permutation_refl.
  - destruct (datetime_lt (key y) (key x)) as [[]|e]; try discriminate.
    + destruct (sorted_insert key x rest) as [rest'|e] eqn:Hi;
        inversion H; subst.
      rewrite perm_swap. apply perm_skip. now apply IH.
    + inversion H. apply Permutation_refl.
Qed.

Lemma sorted_perm l : forall l', sorted key l = Ok l' -> Permutation l l'.
Proof.
  induction l as [|x rest IH]; intros l' H; cbn in H.
  - inversion H. apply Permutation_refl.
  - destruct (sorted key rest) as [rest'|e]; [|discriminate].
    apply sorted_insert_perm in H. rewrite <- H.
    apply perm_skip. now apply IH.
Qed.

Lemma sorted_insert_TypeError x l e :
  sorted_insert key x l = Raise e -> e = TypeError.
Proof.
  induction l as [|y rest IH]; cbn; [discriminate|].
  destruct (datetime_lt (key y) (key x)) as [[]|e'] eqn:Hlt.
  - destruct (sorted_insert key x rest); [discriminate|].
    intros H. inversion H; subst. now apply IH.
  - discriminate.
  - intros H. inversion H; subst. eapply datetime_lt_TypeError, Hlt.
Qed.

Lemma sorted_TypeError l e : sorted key l = Raise e -> e = TypeError.
Proof.
  induction l as [|x rest IH]; cbn; [discriminate|].
  destruct (sorted key rest) as [rest'|e'].
  - apply sorted_insert_TypeError.
  - intros H. inversion H; subst. now apply IH.
Qed.

(** Keys of one kind sort without an exception. *)
Lemma sorted_insert_one_kind (k : bool) x l :
  is_aware (key x) = k ->
  Forall (fun y => is_aware (key y) = k) l ->
  exists l', sorted_insert key x l = Ok l'.
Proof.
  intros Hx Hl. induction Hl as [|y rest Hy Hrest IH]; cbn.
  - now eexists.
  - rewrite datetime_lt_same_kind by congruence.
    destruct (instant (key y) <? instant (key x)); [|now eexists].
    destruct IH as [rest' ->]. now eexists.
Qed.

Lemma sorted_one_kind (k : bool) l :
  Forall (fun y => is_aware (key y) = k) l ->
  exists l', sorted key l = Ok l'.
Proof.
  intros Hl. induction Hl as [|x rest Hx Hrest IH]; cbn.
  - now eexists.
  - destruct IH as [rest' Hs]. rewrite Hs.
    apply (sorted_insert_one_kind k); [assumption|].
    apply sorted_perm in Hs.
    now rewrite <- Hs.
Qed.

Lemma sorted_same_kind l :
  same_kind key l = true -> exists l', sorted key l = Ok l'.
Proof.
  unfold same_kind. intros H. apply orb_true_iff in H as [H|H];
    rewrite forallb_forall in H.
  - apply (sorted_one_kind true), List.Forall_forall, H.
  - apply (sorted_one_kind false), List.Forall_forall.
    intros a Ha. apply negb_true_iff. now apply H.
Qed.

(** A key of the other kind makes [sorted] raise. *)
Lemma sorted_insert_other_kind x y rest :
  is_aware (key x) <> is_aware (key y) ->
  sorted_insert key x (y :: rest) = Raise TypeError.
Proof.
  intros H. cbn. destruct (key x), (key y); cbn in *; congruence.
Qed.

(** The order [sorted] leaves: stamps never decrease. *)
Lemma sorted_insert_ascending x l :
  forall l',
    sorted_insert key x l = Ok l' ->
    StronglySorted (key_le key) l -> StronglySorted (key_le key) l'.
Proof.
  induction l as [|y rest IH]; intros l' H Hs; cbn in H.
  - inversion H. repeat constructor.
  - destruct (datetime_lt (key y) (key x)) as [[]|e] eqn:Hlt;
      try discriminate.
    + destruct (sorted_insert key x rest) as [rest'|e] eqn:Hi;
        inversion H; subst.
      apply datetime_lt_kind in Hlt as [_ Hlt]. symmetry in Hlt.
      apply Z.ltb_lt in Hlt.
      inversion Hs; subst. constructor; [now apply IH|].
      apply sorted_insert_perm in Hi. rewrite <- Hi.
      constructor; [unfold key_le; lia|assumption].
    + inversion H; subst.
      apply datetime_lt_kind in Hlt as [_ Hlt]. symmetry in Hlt.
      apply Z.ltb_ge in Hlt.
      constructor; [assumption|].
      inversion Hs; subst. constructor; [exact Hlt|].
      eapply List.Forall_impl; [|eassumption].
      cbn. unfold key_le. intros; lia.
Qed.

Lemma sorted_ascending l :
  forall l', sorted key l = Ok l' -> StronglySorted (key_le key) l'.
Proof.
  induction l as [|x rest IH]; intros l' H; cbn in H.
  - inversion H. constructor.
  - destruct (sorted key rest) as [rest'|e]; [|discriminate].
    eapply sorted_insert_ascending; [eassumption|]. now apply IH.
Qed.

End Sorting.

Lemma slice_to_length {A} (l : list A) (n : Z) :
  0 <= n -> Z.of_nat (length (slice_to l n)) = Z.min n (Z.of_nat (length l)).
Proof.
  intros Hn. unfold slice_to.
  destruct (0 <=? n) eqn:H; [|apply Z.leb_gt in H; lia].
  rewrite length_firstn. lia.
Qed.

Lemma slice_to_In {A} (x : A) (l : list A) (n : Z) :
  In x (slice_to l n) -> In x l.
Proof.
  unfold slice_to. destruct (0 <=? n); intros H;
    match type of H with In _ (firstn ?k _) =>
      rewrite <- (firstn_skipn k l) end;
    apply in_or_app; now left.
Qed.

Lemma slice_to_prefix {A} (l : list A) (n : Z) :
  exists rest, l = slice_to l n ++ rest.
Proof.
  unfold slice_to. destruct (0 <=? n);
    eexists; symmetry; apply firstn_skipn.
Qed.

(** ** Selecting the winners *)

Lemma select_winners_length stamps mid eligible n winners :
  select_winners stamps mid eligible n = Ok winners ->
  0 <= n ->
  Z.of_nat (length winners) = Z.min n (Z.of_nat (length eligible)).
Proof.
  unfold select_winners.
  destruct (sorted _ eligible) as [l|e] eqn:Hs; [|discriminate].
  intros H Hn. inversion H; subst.
  rewrite slice_to_length by assumption.
  apply sorted_perm, Permutation_length in Hs. now rewrite Hs.
Qed.

Lemma select_winners_In stamps mid eligible n winners w :
  select_winners stamps mid eligible n = Ok winners ->
  In w winners -> In w eligible.
Proof.
  unfold select_winners.
  destruct (sorted _ eligible) as [l|e] eqn:Hs; [|discriminate].
  intros H Hw. inversion H; subst.
  apply slice_to_In in Hw. apply sorted_perm in Hs.
  eapply Permutation_in; [symmetry; exact Hs|exact Hw].
Qed.

Lemma select_winners_TypeError stamps mid eligible n e :
  select_winners stamps mid eligible n = Raise e -> e = TypeError.
Proof.
  unfold select_winners.
  destruct (sorted _ eligible) as [l|e'] eqn:Hs; [discriminate|].
  intros H. inversion H; subst. eapply sorted_TypeError, Hs.
Qed.

(** With a stamp recorded for every eligible reactor the selection
    returns. *)
Lemma select_winners_returns stamps mid eligible n :
  same_kind (sort_key stamps mid) eligible = true ->
  exists winners, select_winners stamps mid eligible n = Ok winners.
Proof.
  intros H. unfold select_winners.
  destruct (sorted_same_kind _ _ H) as [l ->]. now eexists.
Qed.

Lemma eligible_reactors_spec name guild reactors m :
  In m (eligible_reactors name guild reactors) <->
  In m reactors
  /\ forall role,
       task_holder_role name guild = Some role ->
       role_in role (member_roles m) = false.
Proof.
  unfold eligible_reactors. rewrite filter_In.
  destruct (task_holder_role name guild) as [role|].
  - split; intros [Hin H]; (split; [assumption|]).
    + intros r Hr. inversion Hr; subst. now apply negb_true_iff.
    + apply negb_true_iff. now apply H.
  - split; intros [Hin H]; (split; [assumption|]); [discriminate|reflexivity].
Qed.

(** ** Resolving the reactors *)

Lemma keeps_run {A X} (f : TaskBot -> X) (m : M A) s r s' :
  keeps f m -> m s = (r, s') -> f s' = f s.
Proof. intros Hk Hm. specialize (Hk s). now rewrite Hm in Hk. Qed.

Lemma io_inv {A} (c : call) (answer : result A) s a s' :
  io c answer s = (Ok a, s') -> answer = Ok a.
Proof. unfold_m. cbn. intros H. now inversion H. Qed.

Lemma lift_inv {A} (r : result A) s a s' :
  lift r s = (Ok a, s') -> r = Ok a /\ s' = s.
Proof. unfold lift. intros H. now inversion H. Qed.

Lemma collect_users_no_guild users :
  forall reactors s, collect_users None users reactors s = (Ok reactors, s).
Proof.
  induction users as [|u rest IH]; intros reactors s; cbn.
  - reflexivity.
  - destruct (user_bot u); apply IH.
Qed.

Lemma collect_reactions_no_guild reactions :
  forall reactors s r s',
    collect_reactions None reactions reactors s = (Ok r, s') -> r = reactors.
Proof.
  induction reactions as [|x rest IH]; intros reactors s r s' H;
    cbn [collect_reactions] in H.
  - now inversion H.
  - apply bind_inv in H as (users & s1 & _ & H).
    apply bind_inv in H as (reactors' & s2 & Hu & H).
    rewrite collect_users_no_guild in Hu. inversion Hu; subst.
    eapply IH, H.
Qed.

Lemma collect_reactions_emojis relabel guild reactions :
  forall reactors s,
    collect_reactions guild
      (map (fun r =>
              {| reaction_emoji := relabel (reaction_emoji r);
                 reaction_users := reaction_users r |}) reactions)
      reactors s
    = collect_reactions guild reactions reactors s.
Proof.
  induction reactions as [|x rest IH]; intros reactors s; cbn.
  - reflexivity.
  - unfold bind, lift. destruct (reaction_users x) as [users|e]; [|reflexivity].
    destruct (collect_users guild users reactors s) as [[reactors'|e] s1];
      [apply IH|reflexivity].
Qed.

(** ** Settling *)

Lemma process_winner_appends env g start i w s r s' :
  process_winner env (Some g) start i w s = (Ok r, s') ->
  r = Some (w, start + Z.of_nat i).
Proof.
  unfold process_winner. rewrite bind_gets. intros H.
  apply bind_inv in H as (role & s1 & _ & H).
  apply bind_inv in H as (? & s2 & _ & H).
  apply bind_inv in H as (? & s3 & _ & H).
  apply bind_inv in H as (? & s4 & _ & H).
  apply bind_inv in H as (? & s5 & _ & H).
  now inversion H.
Qed.

Lemma count_ok_app {A} (l1 l2 : list (result A)) :
  count_ok (l1 ++ l2) = count_ok l1 + count_ok l2.
Proof. unfold count_ok. rewrite List.filter_app, length_app. lia. Qed.

Lemma count_ok_nonneg {A} (l : list (result A)) : 0 <= count_ok l.
Proof. unfold count_ok. lia. Qed.

(** With a guild, [winners_assigned] grows by one exactly when the [try]
    body of a winner ends without an exception. *)
Lemma settle_loop_count envs g start winners :
  forall i acc outs s assigned outcomes s',
    settle_loop envs (Some g) start i winners acc outs s
    = (Ok (assigned, outcomes), s') ->
    Z.of_nat (length assigned) - Z.of_nat (length acc)
    = count_ok outcomes - count_ok outs.
Proof.
  induction winners as [|w rest IH];
    intros i acc outs s assigned outcomes s' H; cbn [settle_loop] in H.
  - inversion H; subst. lia.
  - apply bind_inv in H as ([acc1 outs1] & s1 & Hstep & H).
    apply IH in H. cbn [fst snd] in H.
    unfold try_except, any_Exception in Hstep.
    unfold bind at 1 in Hstep.
    destruct (process_winner (envs i) (Some g) start i w s)
      as [[r|e] s0] eqn:Hp.
    + apply process_winner_appends in Hp. subst r.
      inversion Hstep; subst.
      rewrite count_ok_app, length_app in H. cbn in H.
      unfold count_ok in H at 3. cbn in H. lia.
    + unfold_m. cbn in Hstep. inversion Hstep; subst.
      rewrite count_ok_app in H. unfold count_ok in H at 3. cbn in H. lia.
Qed.

Lemma settle_loop_empty envs guild start i acc outs s :
  settle_loop envs guild start i [] acc outs s = (Ok (acc, outs), s).
Proof. reflexivity. Qed.

(** ** A round *)

(** What a round that gets to settle its winners went through. *)
Lemma round_settle_settled env b mid elig winners assigned outcomes b' :
  round_settle env b = (Ok (RSettled mid elig winners assigned outcomes), b') ->
  0 < tasks_this_round b
  /\ exists message reactors stamps,
       env_fetch_message env = Ok message
       /\ elig
          = eligible_reactors (TASK_ROLE_NAME b) (message_guild message)
              reactors
       /\ elig <> []
       /\ select_winners stamps mid elig (tasks_this_round b) = Ok winners
       /\ Z.of_nat (length assigned) = count_ok outcomes.
Proof.
  intros H. unfold round_settle in H. rewrite !bind_gets in H.
  destruct (tasks_this_round b <=? 0) eqn:Hn.
  { cbn in H. discriminate. }
  apply Z.leb_gt in Hn. split; [assumption|].
  pose proof untouched_TASK_ROLE_NAME as Hf.
  apply bind_inv in H as (channel & s1 & K1 & H).
  apply (keeps_run TASK_ROLE_NAME) in K1;
    [|now apply keeps_the_announce_channel].
  apply bind_inv in H as (mid' & s2 & K2 & H).
  apply (keeps_run TASK_ROLE_NAME) in K2; [|now apply keeps_io].
  apply bind_inv in H as (? & s3 & K3 & H).
  apply (keeps_run TASK_ROLE_NAME) in K3; [|now apply keeps_modify].
  apply bind_inv in H as (? & s4 & K4 & H).
  apply (keeps_run TASK_ROLE_NAME) in K4; [|now apply keeps_io].
  apply bind_inv in H as (? & s5 & K5 & H).
  apply (keeps_run TASK_ROLE_NAME) in K5; [|now apply keeps_ping].
  apply bind_inv in H as (? & s6 & K6 & H).
  apply (keeps_run TASK_ROLE_NAME) in K6; [|now apply keeps_window].
  rewrite bind_gets in H.
  destruct (stop_requested s6); [discriminate|].
  apply bind_inv in H as (channel' & s7 & K7 & H).
  apply (keeps_run TASK_ROLE_NAME) in K7;
    [|now apply keeps_the_announce_channel].
  apply bind_inv in H as (message & s8 & K8 & H).
  pose proof (io_inv _ _ _ _ _ K8) as Hfetch.
  apply (keeps_run TASK_ROLE_NAME) in K8; [|now apply keeps_io].
  apply bind_inv in H as (reactors & s9 & K9 & H).
  pose proof K9 as Hcollect.
  apply (keeps_run TASK_ROLE_NAME) in K9;
    [|now apply keeps_collect_reactions].
  rewrite bind_gets in H.
  assert (Hname : TASK_ROLE_NAME s9 = TASK_ROLE_NAME b) by congruence.
  rewrite Hname in H.
  destruct (eligible_reactors (TASK_ROLE_NAME b) (message_guild message)
              reactors) as [|m l] eqn:Helig; [discriminate|].
  rewrite bind_gets in H.
  apply bind_inv in H as (ws & s10 & K10 & H).
  apply lift_inv in K10 as [Hsel ->].
  apply bind_inv in H as ([acc outs] & s11 & K11 & H).
  unfold ret in H. cbn [fst snd] in H. inversion H; subst.
  exists message, reactors, (reaction_timestamps s9).
  repeat split; try assumption; [congruence|discriminate|].
  destruct (message_guild message) as [g|] eqn:Hg.
  - apply settle_loop_count in K11. cbn in K11. unfold count_ok in K11 at 2.
    cbn in K11. lia.
  - exfalso. unfold collect_reactors in Hcollect. rewrite Hg in Hcollect.
    apply collect_reactions_no_guild in Hcollect. subst reactors.
    discriminate.
Qed.

(** In a round that gets to settle its winners, as many are selected as the
    smallest of [winners_per_task], the tasks that remain and the number of
    eligible reactors.  A round whose sort raises selects nobody, see
    below. *)
Lemma settled_round_winner_count (env : TickEnv) (b : TaskBot) (mid : Z)
    (eligible winners : list Member) (assigned : list (Member * Z))
    (outcomes : list (result unit)) (b' : TaskBot) :
  round_settle env b
  = (Ok (RSettled mid eligible winners assigned outcomes), b') ->
  Z.of_nat (length winners)
  = Z.min (Z.min (winners_per_task b) (total_tasks b - current_task b + 1))
      (Z.of_nat (length eligible)).
Proof.
  intros H.
  apply round_settle_settled in H
    as (Hn & message & reactors & stamps & _ & _ & _ & Hsel & _).
  apply select_winners_length in Hsel; [|lia].
  exact Hsel.
Qed.

(** C4.  Nobody who holds the task-holder role when the round is resolved
    is among the winners, whatever the stamps are. *)
Theorem C4_role_holder_never_wins (env : TickEnv) (b : TaskBot) (mid : Z)
    (eligible winners : list Member) (assigned : list (Member * Z))
    (outcomes : list (result unit)) (b' : TaskBot)
    (message : Message) (role : Role) (w : Member) :
  round_settle env b
  = (Ok (RSettled mid eligible winners assigned outcomes), b') ->
  env_fetch_message env = Ok message ->
  task_holder_role (TASK_ROLE_NAME b) (message_guild message) = Some role ->
  In w winners ->
  role_in role (member_roles w) = false.
Proof.
  intros H Hfetch Hrole Hw.
  apply round_settle_settled in H
    as (_ & message' & reactors & stamps & Hfetch' & -> & _ & Hsel & _).
  assert (message' = message) by congruence. subst message'.
  eapply select_winners_In in Hw; [|exact Hsel].
  apply eligible_reactors_spec in Hw as [_ Hw]. now apply Hw.
Qed.

(** C5, as amended.  The emoji of a reaction is never looked at: with any
    other emojis on the same reactions the reactors found, and so the
    eligible ones, are the same. *)
Theorem C5_emoji_not_consulted (relabel : string -> string)
    (message : Message) (b : TaskBot) :
  collect_reactors (with_emojis relabel message) b
  = collect_reactors message b
  /\ message_guild (with_emojis relabel message) = message_guild message.
Proof.
  split; [|reflexivity].
  unfold collect_reactors, with_emojis. cbn [message_guild message_reactions].
  apply collect_reactions_emojis.
Qed.

(** ** The counter *)

Lemma try_except_bind {A B} (m : M A) (k : A -> M B) c h s :
  try_except (bind m k) c h s
  = match m s with
    | (Ok a, s1) => try_except (k a) c h s1
    | (Raise e, s1) => if c e then h e s1 else (Raise e, s1)
    end.
Proof. unfold try_except, bind. now destruct (m s) as [[a|e] s1]. Qed.

Lemma advances_keeps {A} (m : M A) : keeps current_task m -> advances 0 m.
Proof. intros H s. rewrite H. lia. Qed.

Lemma advances_bind {A B} n (m : M A) (g : A -> M B) :
  advances n m -> (forall a, keeps current_task (g a)) ->
  advances n (bind m g).
Proof.
  intros Hm Hg s. unfold bind. specialize (Hm s).
  destruct (m s) as [[a|e] s1]; cbn [snd] in *; [|assumption].
  now rewrite Hg.
Qed.

Lemma advances_try_except {A} n (m : M A) c (h : exn -> M A) :
  advances n m -> (forall e, keeps current_task (h e)) ->
  advances n (try_except m c h).
Proof.
  intros Hm Hh s. unfold try_except. specialize (Hm s).
  destruct (m s) as [[a|e] s1]; cbn [snd] in *; [assumption|].
  destruct (c e); [|assumption]. now rewrite Hh.
Qed.

(** The rest of the [try] body moves [current_task] by the length of
    [winners_assigned], also when one of its calls raises. *)
Lemma round_close_advances env r h :
  (forall e, keeps current_task (h e)) ->
  advances (assigned_count r) (try_except (round_close env r) any_Exception h).
Proof.
  intros Hh. pose proof untouched_current_task as Hf.
  apply advances_try_except; [|assumption].
  destruct r as [| mid | mid start n | mid elig ws assigned outs];
    cbn [assigned_count round_close].
  - apply advances_keeps. repeat keeps_step Hf.
  - apply advances_keeps. repeat keeps_step Hf.
  - apply advances_keeps.
    repeat (keeps_step Hf || apply (keeps_the_announce_channel _ Hf)
            || apply (keeps_del_reaction_timestamps _ Hf)).
  - destruct assigned as [|a rest].
    + apply advances_keeps.
      repeat (keeps_step Hf || apply (keeps_del_reaction_timestamps _ Hf)).
    + apply advances_bind.
      * apply advances_bind; [intros s; reflexivity|].
        intros _.
        repeat (keeps_step Hf || apply (keeps_the_announce_channel _ Hf)).
      * intros _.
        repeat (keeps_step Hf || apply (keeps_del_reaction_timestamps _ Hf)).
Qed.

Lemma settled_in_tick_nonneg env s : 0 <= settled_in_tick env s.
Proof.
  unfold settled_in_tick. destruct (tick_guard s); try lia.
  destruct (round_settle env s) as [[[]|e] s1]; try lia.
  apply count_ok_nonneg.
Qed.

(** A tick moves [current_task] by the number of winners it settled. *)
Lemma tick_advances env s :
  current_task (snd (task_allocation_loop_impl env s))
  = current_task s + settled_in_tick env s.
Proof.
  pose proof untouched_current_task as Hf.
  unfold task_allocation_loop_impl, settled_in_tick. rewrite bind_gets.
  destruct (tick_guard s).
  - cbn. lia.
  - cbn. lia.
  - cbn. lia.
  - rewrite Z.add_0_r.
    assert (K : keeps current_task
                  (send_log (env_log_send env) TAllCompleted ;;
                   loop_stop ;; ret AllAssigned))
      by repeat (keeps_step Hf || apply (keeps_send_log _ Hf)
                 || apply (keeps_loop_stop _ Hf)).
    apply K.
  - rewrite try_except_bind.
    pose proof (keeps_round_settle _ Hf env s) as K.
    destruct (round_settle env s) as [[r|e] s1] eqn:Hrs; cbn [snd] in K.
    + rewrite round_close_advances by (intros; repeat keeps_step Hf).
      rewrite K. f_equal.
      destruct r as [| mid | mid start n | mid elig ws assigned outs];
        cbn [assigned_count]; try reflexivity.
      now apply round_settle_settled in Hrs
        as (_ & _ & _ & _ & _ & _ & _ & _ & Hcount).
    + cbn. lia.
Qed.

Lemma step_advances e s :
  current_task (step e s)
  = current_task s
    + match e with Tick env => settled_in_tick env s | _ => 0 end.
Proof.
  pose proof untouched_current_task as Hf.
  destruct e as [env | ev now | a | a | a]; cbn [step].
  - apply tick_advances.
  - rewrite (keeps_on_reaction_add _ Hf). lia.
  - rewrite (keeps_stop_tasks _ Hf). lia.
  - rewrite (keeps_pause_tasks _ Hf). lia.
  - rewrite (keeps_resume_tasks _ Hf). lia.
Qed.

Lemma run_advances events :
  forall s,
    current_task (run events s) = current_task s + settled_in_run events s.
Proof.
  induction events as [|e rest IH]; intros s; cbn [run settled_in_run].
  - lia.
  - rewrite IH, step_advances. lia.
Qed.

Lemma settled_in_run_nonneg events : forall s, 0 <= settled_in_run events s.
Proof.
  induction events as [|e rest IH]; intros s; cbn [settled_in_run].
  - lia.
  - specialize (IH (step e s)).
    destruct e; try lia. pose proof (settled_in_tick_nonneg env s). lia.
Qed.

Lemma run_app before after s :
  run (before ++ after) s = run after (run before s).
Proof.
  revert s. induction before as [|e rest IH]; intros s; cbn; [reflexivity|].
  apply IH.
Qed.

(** [current_task] never goes down in a run. *)
Lemma run_monotone events s : current_task s <= current_task (run events s).
Proof.
  rewrite run_advances. pose proof (settled_in_run_nonneg events s). lia.
Qed.

(** ** Setting a batch up *)

Lemma set_batch_set_trace tasks type winners description t b :
  set_batch tasks type winners description (set_trace t b)
  = set_trace t (set_batch tasks type winners description b).
Proof. reflexivity. Qed.

(** On a configured bot, once the deferral went through, the batch is
    set. *)
Lemma create_task_batch_run tasks type winners description env b :
  configured b = true ->
  ct_defer env = Ok tt ->
  create_task_batch tasks type winners description env b
  = (Ok true,
     set_trace (trace b ++ [IO InteractionDefer true])
       (set_batch tasks type winners description b)).
Proof.
  intros Hc Hd. unfold create_task_batch. unfold_m. rewrite Hd.
  cbn. rewrite Hc. reflexivity.
Qed.

Lemma create_task_run tasks type winners description env b :
  configured b = true ->
  ct_defer env = Ok tt ->
  create_task tasks type winners description env b
  = create_task_start tasks env
      (set_trace (trace b ++ [IO InteractionDefer true])
         (set_batch tasks type winners description b)).
Proof.
  intros Hc Hd. unfold create_task. unfold bind.
  now rewrite (create_task_batch_run _ _ _ _ _ _ Hc Hd).
Qed.

(** The loop is started only if the reply went through. *)
Lemma create_task_start_run tasks env s :
  create_task_start tasks env s
  = let replied :=
      set_trace
        (trace s
           ++ [IO (InteractionFollowup (AllocationStarted tasks))
                 (is_ok (ct_followup env))]) s in
    match ct_followup env with
    | Ok _ =>
        (Ok tt,
         snd (restart_task_loop
                (snd (send_log (ct_log_send env) (TStarted tasks) replied))))
    | Raise e => (Raise e, replied)
    end.
Proof.
  unfold create_task_start. unfold io. unfold bind, emit, modify, lift.
  destruct (ct_followup env) as [[]|e]; cbn [fst snd is_ok]; [|reflexivity].
  rewrite send_log_run. reflexivity.
Qed.

Lemma keeps_create_task_start {X} (f : TaskBot -> X) tasks env :
  untouched f -> keeps f (create_task_start tasks env).
Proof.
  intros Hf. unfold create_task_start.
  repeat (keeps_step Hf || apply (keeps_send_log _ Hf)
          || apply (keeps_restart_task_loop _ Hf)).
Qed.

(** What the rest of the command leaves alone is as the batch sets it,
    whether or not the reply raises. *)
Lemma create_task_after_batch {X} (f : TaskBot -> X)
    tasks type winners description env b :
  untouched f ->
  configured b = true ->
  ct_defer env = Ok tt ->
  f (snd (create_task tasks type winners description env b))
  = f (set_batch tasks type winners description b).
Proof.
  intros Hf Hc Hd. unfold create_task. unfold bind at 1.
  rewrite (create_task_batch_run _ _ _ _ _ _ Hc Hd).
  rewrite (keeps_create_task_start f tasks env Hf).
  apply (untouched_trace f Hf).
Qed.

Lemma create_task_starts_at_1 tasks type winners description env b :
  configured b = true ->
  ct_defer env = Ok tt ->
  current_task (snd (create_task tasks type winners description env b)) = 1.
Proof.
  intros Hc Hd.
  now rewrite (create_task_after_batch current_task _ _ _ _ _ _
                 untouched_current_task Hc Hd).
Qed.

(** C1.  Once [create_task] has set a batch up, that is on a configured bot
    and past its deferral, [current_task] is 1, whether or not the reply of
    the command then raises; after any run of ticks, reaction events and
    stop, pause and resume commands it is 1 plus the number of winners whose
    settlement ended without an exception in the ticks of the run; and it
    never goes down along the run. *)
Theorem C1_current_task_counts_settled_winners
    (b : TaskBot) (tasks : Z) (type : string) (winners : option Z)
    (description : option string) (env : CreateEnv)
    (events : list event) :
  configured b = true ->
  ct_defer env = Ok tt ->
  let started :=
    snd (create_task tasks type winners description env b) in
  current_task started = 1
  /\ current_task (run events started) = 1 + settled_in_run events started
  /\ (forall before after,
        events = before ++ after ->
        current_task (run before started)
        <= current_task (run events started)).
Proof.
  intros Hc Hd started.
  assert (H1 : current_task started = 1)
    by now apply create_task_starts_at_1.
  split; [assumption|]. split.
  - rewrite run_advances. lia.
  - intros before after ->. rewrite run_app. apply run_monotone.
Qed.

(** ** The ledger is no part of the outcome *)

Lemma write_to_sheet_returns sheet n name s :
  fst (write_to_sheet sheet n name s) = Ok tt.
Proof.
  unfold write_to_sheet. rewrite !bind_gets.
  destruct (negb (gc s) || String.eqb (sheet_url s) EmptyString).
  - reflexivity.
  - now rewrite sheet_loop_run.
Qed.

Lemma write_to_sheet_keeps_all_but_trace sheet n name s :
  exists d,
    snd (write_to_sheet sheet n name s) = set_trace (trace s ++ d) s.
Proof.
  unfold write_to_sheet. rewrite !bind_gets.
  destruct (negb (gc s) || String.eqb (sheet_url s) EmptyString).
  - now eexists.
  - rewrite sheet_loop_run. now eexists.
Qed.

Lemma bind_same_prefix {A B} (m : M A) (k1 k2 : A -> M B) s :
  (forall a s1,
      fst (k1 a s1) = fst (k2 a s1)
      /\ role_removal_tasks (snd (k1 a s1))
         = role_removal_tasks (snd (k2 a s1))) ->
  fst (bind m k1 s) = fst (bind m k2 s)
  /\ role_removal_tasks (snd (bind m k1 s))
     = role_removal_tasks (snd (bind m k2 s)).
Proof.
  intros H. unfold bind. destruct (m s) as [[a|e] s1]; [apply H|now split].
Qed.

(** Whether the settlement of a winner ends with an exception, and which
    removals are scheduled, is the same whatever the ledger answers. *)
Lemma settlement_ignores_the_ledger env sheet guild start i w s :
  fst (process_winner (with_sheet sheet env) guild start i w s)
  = fst (process_winner env guild start i w s)
  /\ role_removal_tasks
       (snd (process_winner (with_sheet sheet env) guild start i w s))
     = role_removal_tasks (snd (process_winner env guild start i w s)).
Proof.
  unfold process_winner. destruct guild as [g|]; [|now split].
  cbn [with_sheet se_create_role se_add_roles se_dm se_sheet].
  apply bind_same_prefix; intros role_name s1.
  apply bind_same_prefix; intros role s2.
  apply bind_same_prefix; intros _ s3.
  apply bind_same_prefix; intros _ s4.
  apply bind_same_prefix; intros sent s5.
  clear s s1 s2 s3 s4. rename s5 into s. unfold bind.
  pose proof (write_to_sheet_returns sheet (start + Z.of_nat i)
                (member_name w) s) as R1.
  pose proof (write_to_sheet_returns (se_sheet env) (start + Z.of_nat i)
                (member_name w) s) as R2.
  destruct (write_to_sheet_keeps_all_but_trace sheet (start + Z.of_nat i)
              (member_name w) s) as [d1 K1].
  destruct (write_to_sheet_keeps_all_but_trace (se_sheet env)
              (start + Z.of_nat i) (member_name w) s) as [d2 K2].
  destruct (write_to_sheet sheet _ _ s) as [r1 t1].
  destruct (write_to_sheet (se_sheet env) _ _ s) as [r2 t2].
  cbn [fst snd] in *. subst. now split.
Qed.

(** ** The order of the winners *)

Lemma StronglySorted_prefix {A} (R : A -> A -> Prop) (l1 l2 : list A) :
  StronglySorted R (l1 ++ l2) -> StronglySorted R l1.
Proof.
  induction l1 as [|x rest IH]; cbn; intros H; [constructor|].
  inversion H; subst. constructor; [now apply IH|].
  match goal with H : List.Forall _ (_ ++ _) |- _ =>
    apply List.Forall_app in H as [H _]; exact H end.
Qed.

(** When the selection returns, the winners are in the order of their
    stamps. *)
Lemma select_winners_ascending stamps mid eligible n winners :
  select_winners stamps mid eligible n = Ok winners ->
  StronglySorted (key_le (sort_key stamps mid)) winners.
Proof.
  unfold select_winners.
  destruct (sorted _ eligible) as [l|e] eqn:Hs; [|discriminate].
  intros H. inversion H; subst.
  apply sorted_ascending in Hs.
  destruct (slice_to_prefix l n) as [rest Hl].
  rewrite Hl in Hs. eapply StronglySorted_prefix, Hs.
Qed.

(** [sorted] raises as soon as keys of both kinds are present, wherever
    they stand in the list. *)
Lemma sorted_mixed_kinds {A} (key : A -> datetime) (l : list A) :
  same_kind key l = false -> sorted key l = Raise TypeError.
Proof.
  induction l as [|x rest IH]; intros H; [discriminate|].
  cbn [sorted].
  destruct (same_kind key rest) eqn:Hrest.
  - destruct (sorted_same_kind key rest Hrest) as [rest' Hs]. rewrite Hs.
    apply sorted_perm in Hs.
    destruct rest' as [|y rest''].
    + apply Permutation_nil_r in Hs. subst rest.
      unfold same_kind in H. cbn in H. now destruct (is_aware (key x)).
    + apply sorted_insert_other_kind.
      assert (Hy : In y rest)
        by (eapply Permutation_in; [symmetry; exact Hs|now left]).
      unfold same_kind in H, Hrest. cbn [forallb] in H.
      apply orb_true_iff in Hrest as [Hr|Hr]; rewrite Hr in H;
        rewrite forallb_forall in Hr; specialize (Hr y Hy);
        destruct (is_aware (key x)), (is_aware (key y)); cbn in *;
        congruence.
  - now rewrite IH.
Qed.

(** ** Purging the record of a round *)

Lemma del_reaction_timestamps_purges mid s s' :
  del_reaction_timestamps mid s = (Ok tt, s') ->
  reaction_timestamps s' !! mid = None.
Proof.
  unfold del_reaction_timestamps. rewrite bind_gets.
  destruct (reaction_timestamps s !! mid); [|discriminate].
  unfold modify. intros H. inversion H; subst. cbn.
  apply lookup_delete_eq.
Qed.

Lemma try_except_ok_inv {A} (m : M A) (h : exn -> M A) s a s' :
  (forall e s1, fst (h e s1) <> Ok a) ->
  try_except m any_Exception h s = (Ok a, s') -> m s = (Ok a, s').
Proof.
  intros Hh. unfold try_except, any_Exception.
  destruct (m s) as [[x|e] s1]; [trivial|].
  intros H. exfalso. apply (Hh e s1). now rewrite H.
Qed.

(** A tick that reports a settled or an unclaimed round has purged the
    record of that round. *)
Lemma reported_round_is_purged env b report b' mid :
  task_allocation_loop_impl env b = (Ok report, b') ->
  (report = RoundUnclaimed mid
   \/ exists eligible winners assigned,
        report = RoundSettled mid eligible winners assigned) ->
  reaction_timestamps b' !! mid = None.
Proof.
  intros H Hreport. unfold task_allocation_loop_impl in H.
  rewrite bind_gets in H.
  assert (Hne : forall e s1,
             fst ((log CRITICAL (LLoopFailed e) ;; ret (LoopFailed e)) s1)
             <> Ok report).
  { intros e s1. cbn. destruct Hreport as [->|(? & ? & ? & ->)]; discriminate. }
  destruct (tick_guard b).
  1-4: exfalso;
    try (apply bind_inv in H as (? & ? & _ & H));
    try (apply bind_inv in H as (? & ? & _ & H));
    unfold ret in H; inversion H; subst;
    destruct Hreport as [?|(? & ? & ? & ?)]; discriminate.
  apply try_except_ok_inv in H; [|exact Hne].
  apply bind_inv in H as (r & s1 & _ & H).
  destruct r as [| mid' | mid' start n | mid' elig ws assigned outs];
    cbn [round_close] in H.
  - unfold ret in H. inversion H; subst.
    destruct Hreport as [?|(? & ? & ? & ?)]; discriminate.
  - unfold ret in H. inversion H; subst.
    destruct Hreport as [?|(? & ? & ? & ?)]; discriminate.
  - apply bind_inv in H as (? & s2 & _ & H).
    apply bind_inv in H as (? & s3 & _ & H).
    apply bind_inv in H as ([] & s4 & Hdel & H).
    unfold ret in H. inversion H; subst.
    destruct Hreport as [E|(? & ? & ? & E)]; inversion E; subst.
    eapply del_reaction_timestamps_purges, Hdel.
  - apply bind_inv in H as (? & s2 & _ & H).
    apply bind_inv in H as ([] & s3 & Hdel & H).
    unfold ret in H. inversion H; subst.
    destruct Hreport as [E|(? & ? & ? & E)]; inversion E; subst.
    eapply del_reaction_timestamps_purges, Hdel.
Qed.

(** ** The code at particular inputs *)

(** C3, at a failing input.  alice's reaction is stamped, bob's is not (his
    event was missed) and both are eligible: the sort compares an aware
    stamp with the naive [datetime.max] and raises [TypeError], the cycle
    logs a critical failure, nobody is selected and [current_task] stays
    at 1. *)
Lemma C3_unstamped_reactor_breaks_the_sort :
  select_winners {[ 500 := {[ 1 := 7 ]} ]} 500 [Sample.alice; Sample.bob] 2
  = Raise TypeError
  /\ fst (task_allocation_loop_impl Sample.tick_missed_event Sample.batch)
     = Ok (LoopFailed TypeError)
  /\ current_task
       (snd (task_allocation_loop_impl Sample.tick_missed_event Sample.batch))
     = 1
  /\ role_removal_tasks
       (snd (task_allocation_loop_impl Sample.tick_missed_event Sample.batch))
     = [].
Proof. repeat split; vm_compute; reflexivity. Qed.

(** C2, at a failing input.  Two tasks are on offer and the fetched message
    shows two eligible reactors, alice and bob, so two winners are due.
    Only alice's reaction was stamped: the sort of line 503 raises, the
    slice of line 504 is never taken and the round selects nobody; no
    [add_roles] call is made for anybody and the round ends in the handler
    of line 560. *)
Lemma C2_two_winners_due_none_selected :
  let b := Sample.batch in
  let env := Sample.tick_missed_event in
  let message :=
    Sample.announcement
      [Sample.user_of Sample.alice; Sample.user_of Sample.bob] in
  let eligible := [Sample.alice; Sample.bob] in
  env_fetch_message env = Ok message
  /\ fst (collect_reactors message b) = Ok eligible
  /\ eligible_reactors (TASK_ROLE_NAME b) (message_guild message) eligible
     = eligible
  /\ Z.min (Z.min (winners_per_task b) (total_tasks b - current_task b + 1))
       (Z.of_nat (length eligible))
     = 2
  /\ (forall winners,
        select_winners {[ 500 := {[ 1 := 7 ]} ]} 500 eligible
          (tasks_this_round b)
        <> Ok winners)
  /\ fst (round_settle env b) = Raise TypeError
  /\ count_effects
       (fun e => match e with IO (AddRoles _ _ _) _ => true | _ => false end)
       (trace (snd (task_allocation_loop_impl env b)))
     = 0%nat.
Proof.
  cbv zeta. repeat split; try (vm_compute; reflexivity).
  intros winners. vm_compute. discriminate.
Qed.

(** C9, at a failing input.  Two rounds in a row are opened, on messages
    500 and 501, and fetching the announcement back fails in each: the
    exception goes to the handler at line 560, past the purge of line 559,
    and both records stay in [reaction_timestamps]. *)
Lemma C9_failed_rounds_leave_their_records :
  let after1 :=
    snd (task_allocation_loop_impl (Sample.tick_fetch_fails 500)
           Sample.batch) in
  let after2 :=
    snd (task_allocation_loop_impl (Sample.tick_fetch_fails 501) after1) in
  fst (task_allocation_loop_impl (Sample.tick_fetch_fails 500) Sample.batch)
  = Ok (LoopFailed HTTPException)
  /\ reaction_timestamps after1 !! 500 = Some {[ 1 := 7 ]}
  /\ reaction_timestamps after2 !! 500 = Some {[ 1 := 7 ]}
  /\ reaction_timestamps after2 !! 501 = Some {[ 1 := 7 ]}
  /\ size (reaction_timestamps Sample.batch) = 0%nat
  /\ size (reaction_timestamps after2) = 2%nat.
Proof. cbv zeta. repeat split; vm_compute; reflexivity. Qed.

(** The same when [/stop_tasks] arrives while the reactions are collected:
    the cycle returns at line 480, before the purge. *)
Lemma stopped_round_leaves_its_record :
  fst (task_allocation_loop_impl Sample.tick_stopped Sample.batch)
  = Ok (Abandoned 500)
  /\ reaction_timestamps
       (snd (task_allocation_loop_impl Sample.tick_stopped Sample.batch))
     !! 500 = Some {[ 1 := 7 ]}.
Proof. split; vm_compute; reflexivity. Qed.

(** And when the sort raises. *)
Lemma unsorted_round_leaves_its_record :
  reaction_timestamps
    (snd (task_allocation_loop_impl Sample.tick_missed_event Sample.batch))
  !! 500 = Some {[ 1 := 7 ]}.
Proof. vm_compute. reflexivity. Qed.

(** A round that settles or goes unclaimed is purged. *)
Lemma settled_round_is_purged :
  reaction_timestamps
    (snd (task_allocation_loop_impl Sample.tick_three Sample.batch))
  = ∅.
Proof. vm_compute. reflexivity. Qed.

(** C10, at a failing input.  alice is selected for task 1 and bob for
    task 2; alice's role is granted and its removal scheduled, then her
    notification raises.  The grant and the removal stay, only bob is
    counted and [current_task] becomes 2.  So the next round offers tasks
    2 and 3: task 1 is never offered again, whatever happens later, and
    task 2, which bob holds, is. *)
Lemma C10_failed_winner_task_is_skipped :
  let after :=
    snd (task_allocation_loop_impl Sample.tick_first_winner_fails
           Sample.batch) in
  fst (task_allocation_loop_impl Sample.tick_first_winner_fails Sample.batch)
  = Ok (RoundSettled 500 [Sample.alice; Sample.bob]
          [Sample.alice; Sample.bob] [(Sample.bob, 2)])
  /\ In (IO (AddRoles 1 900 1) true) (trace after)
  /\ role_removal_tasks after = [(1, 900); (2, 900)]
  /\ In (IO (UpdateCell 3 4 "bob"%string) true) (trace after)
  /\ current_task after = 2
  /\ In (IO (AnnounceTasks 10 2 2) true)
        (trace (snd (task_allocation_loop_impl Sample.tick_three after)))
  /\ forall events, 2 <= current_task (run events after).
Proof.
  cbv zeta.
  split; [vm_compute; reflexivity|].
  split; [vm_compute; tauto|].
  split; [vm_compute; reflexivity|].
  split; [vm_compute; tauto|].
  split; [vm_compute; reflexivity|].
  split; [vm_compute; tauto|].
  intros events.
  pose proof
    (run_monotone events
       (snd (task_allocation_loop_impl Sample.tick_first_winner_fails
               Sample.batch))) as H.
  assert (E : current_task
                (snd (task_allocation_loop_impl
                        Sample.tick_first_winner_fails Sample.batch)) = 2)
    by (vm_compute; reflexivity).
  now rewrite E in H.
Qed.

(** C5 as the specification words it does not hold: bob reacted with a
    thumbs-up only and is eligible. *)
Lemma C5_thumbs_up_is_eligible :
  fst (collect_reactors Sample.thumbs_up_message Sample.batch)
  = Ok [Sample.bob]
  /\ eligible_reactors (TASK_ROLE_NAME Sample.batch)
       (message_guild Sample.thumbs_up_message) [Sample.bob]
     = [Sample.bob]
  /\ ~ only_check_mark_counts.
Proof.
  split; [vm_compute; reflexivity|]. split; [vm_compute; reflexivity|].
  intros H.
  apply (H Sample.batch Sample.thumbs_up_message (Sample.user_of Sample.bob)
           [Sample.bob]
           (snd (collect_reactors Sample.thumbs_up_message Sample.batch))).
  - vm_compute. reflexivity.
  - intros reaction users [<-|[<-|[]]] Hu Hin; cbn in Hu; inversion Hu; subst.
    + destruct Hin as [E|[]]. discriminate.
    + discriminate.
  - vm_compute. now left.
Qed.

(** C7 as the specification words it does not hold: direct messages are
    closed and the announce channel refuses the notice, and [dm_winner]
    raises. *)
Lemma C7_fallback_failure_is_raised :
  fst (dm_winner Sample.dm_lost Sample.alice 1 Sample.batch)
  = Raise HTTPException
  /\ ~ dm_winner_never_raises.
Proof.
  split; [vm_compute; reflexivity|].
  intros H.
  specialize (H Sample.dm_lost Sample.alice 1 Sample.batch).
  vm_compute in H. discriminate.
Qed.

(** ** The theorems at sample inputs *)

(** The sample run settles alice and bob in its first tick and nobody in
    its second. *)
Lemma sample_run_counts :
  settled_in_run Sample.two_ticks Sample.batch = 2
  /\ current_task (run Sample.two_ticks Sample.batch) = 3.
Proof. split; vm_compute; reflexivity. Qed.

(** C1 at a sample run: two winners settled, then one whose notification
    is lost. *)
Lemma C1_sample :
  configured Sample.fresh = true
  /\ ct_defer Sample.create_ok = Ok tt
  /\ let started :=
       snd (create_task 3 "Comment"%string (Some 2) None Sample.create_ok
              Sample.fresh) in
     current_task started = 1
     /\ current_task (run Sample.two_ticks started)
        = 1 + settled_in_run Sample.two_ticks started
     /\ (forall before after,
           Sample.two_ticks = before ++ after ->
           current_task (run before started)
           <= current_task (run Sample.two_ticks started)).
Proof.
  split; [reflexivity|]. split; [reflexivity|].
  apply (C1_current_task_counts_settled_winners Sample.fresh 3 "Comment"%string
           (Some 2) None Sample.create_ok Sample.two_ticks);
    reflexivity.
Defined.

(** C4 at a sample round: carol reacts first and holds the role. *)
Lemma C4_sample :
  round_settle Sample.tick_three Sample.batch
  = (Ok (RSettled 500 [Sample.bob; Sample.alice] [Sample.alice; Sample.bob]
           [(Sample.alice, 1); (Sample.bob, 2)] [Ok tt; Ok tt]),
     snd (round_settle Sample.tick_three Sample.batch))
  /\ env_fetch_message Sample.tick_three
     = Ok (Sample.announcement
             [Sample.user_of Sample.bob; Sample.user_of Sample.carol;
              Sample.user_of Sample.alice])
  /\ task_holder_role (TASK_ROLE_NAME Sample.batch) (Some Sample.guild)
     = Some Sample.holder
  /\ In Sample.alice [Sample.alice; Sample.bob]
  /\ role_in Sample.holder (member_roles Sample.alice) = false.
Proof.
  assert (H : round_settle Sample.tick_three Sample.batch
              = (Ok (RSettled 500 [Sample.bob; Sample.alice]
                       [Sample.alice; Sample.bob]
                       [(Sample.alice, 1); (Sample.bob, 2)] [Ok tt; Ok tt]),
                 snd (round_settle Sample.tick_three Sample.batch)))
    by (vm_compute; reflexivity).
  split; [exact H|]. split; [reflexivity|]. split; [reflexivity|].
  split; [now left|].
  exact (C4_role_holder_never_wins _ _ _ _ _ _ _ _
           (Sample.announcement
              [Sample.user_of Sample.bob; Sample.user_of Sample.carol;
               Sample.user_of Sample.alice])
           Sample.holder Sample.alice H eq_refl eq_refl (or_introl eq_refl)).
Defined.

(** C6 at a sample state: alice reacts again five ticks of the clock
    later. *)
Lemma C6_sample :
  reaction_timestamps Sample.recorded
    !! ev_message_id (Sample.reacts 500 Sample.alice CHECK_MARK)
  = Some {[ 1 := 7 ]}
  /\ ({[ 1 := 7 ]} : gmap Z Z)
       !! user_id (ev_user (Sample.reacts 500 Sample.alice CHECK_MARK))
     = Some 7
  /\ on_reaction_add (Sample.reacts 500 Sample.alice CHECK_MARK) 12
       Sample.recorded
     = Sample.recorded.
Proof.
  assert (H1 : reaction_timestamps Sample.recorded
                 !! ev_message_id (Sample.reacts 500 Sample.alice CHECK_MARK)
               = Some {[ 1 := 7 ]}) by (vm_compute; reflexivity).
  assert (H2 : ({[ 1 := 7 ]} : gmap Z Z)
                 !! user_id
                      (ev_user (Sample.reacts 500 Sample.alice CHECK_MARK))
               = Some 7) by (vm_compute; reflexivity).
  split; [exact H1|]. split; [exact H2|].
  exact (C6_on_reaction_add_first_wins _ 12 _ _ _ H1 H2).
Defined.

(** C8 with the ledger down: three passes, two delays, one critical
    record. *)
Lemma C8_sample :
  exists d : list effect,
    write_to_sheet Sample.sheet_down 1 "alice"%string Sample.batch
    = (Ok tt, set_trace (trace Sample.batch ++ d) Sample.batch)
    /\ In (Log CRITICAL (LSheetGaveUp 1)) d
    /\ count_effects is_open_sheet d = 3%nat
    /\ sleeps d = [1; 2].
Proof.
  destruct (C8_write_to_sheet_bounded_retry Sample.sheet_down 1 "alice"%string
              Sample.batch)
    as (d & Hrun & _ & _ & _ & Honly & Hgave_up).
  exists d. split; [exact Hrun|].
  assert (Hc : In (Log CRITICAL (LSheetGaveUp 1)) d).
  { apply Hgave_up; try reflexivity. vm_compute. discriminate. }
  split; [exact Hc|]. exact (Honly Hc).
Defined.

(** * Further properties of the code *)

(** ** [extract_sheet_id] *)

Lemma sheet_id_run_app (id post : string) :
  all_sheet_id_chars id = true -> ends_run post = true ->
  sheet_id_run (id ++ post) = id.
Proof.
  intros Hid Hpost. induction id as [|c id IH].
  - change (sheet_id_run post = EmptyString).
    destruct post as [|c post]; [reflexivity|].
    cbn in *. destruct (sheet_id_char c); cbn in *; [discriminate|reflexivity].
  - change (sheet_id_run (String c (id ++ post)) = String c id).
    cbn in *. apply andb_true_iff in Hid as [Hc Hid].
    rewrite Hc. now rewrite IH.
Qed.

Lemma sheet_id_run_spec (s : string) :
  exists post,
    s = (sheet_id_run s ++ post)%string
    /\ all_sheet_id_chars (sheet_id_run s) = true
    /\ ends_run post = true.
Proof.
  induction s as [|c s IH].
  - now exists EmptyString.
  - cbn [sheet_id_run]. destruct (sheet_id_char c) eqn:Hc.
    + destruct IH as (post & Hs & Hall & Hend). exists post.
      change (String c s = String c (sheet_id_run s ++ post)
              /\ all_sheet_id_chars (String c (sheet_id_run s)) = true
              /\ ends_run post = true).
      cbn [all_sheet_id_chars]. rewrite Hc, Hall.
      repeat split; [now rewrite <- Hs|assumption].
    + exists (String c s). split; [reflexivity|]. split; [reflexivity|].
      cbn. now rewrite Hc.
Qed.

(** One step of the search. *)
Lemma extract_sheet_id_step (c : ascii) (rest : string) :
  extract_sheet_id (String c rest)
  = match
      (if Ascii.eqb c "/" then
         match rest with
         | String c2 (String c3 tail) =>
             if Ascii.eqb c2 "d" && Ascii.eqb c3 "/" then Some tail else None
         | _ => None
         end
       else None)
    with
    | Some tail =>
        match sheet_id_run tail with
        | EmptyString => extract_sheet_id rest
        | id => Some id
        end
    | None => extract_sheet_id rest
    end.
Proof.
  destruct (Ascii.eqb_spec c "/") as [->|Hc].
  - destruct rest as [|c2 [|c3 tail]]; try reflexivity.
    + destruct c2 as [[] [] [] [] [] [] [] []]; reflexivity.
    + destruct (Ascii.eqb_spec c2 "d") as [->|Hc2].
      * destruct (Ascii.eqb_spec c3 "/") as [->|Hc3]; [reflexivity|].
        destruct c3 as [[] [] [] [] [] [] [] []];
          first [reflexivity | now exfalso; apply Hc3].
      * cbn [andb].
        destruct c2 as [[] [] [] [] [] [] [] []];
          first [reflexivity | now exfalso; apply Hc2].
  - destruct c as [[] [] [] [] [] [] [] []];
      first [reflexivity | now exfalso; apply Hc].
Qed.

Lemma extract_sheet_id_tail (c : ascii) (rest : string) :
  extract_sheet_id (String c rest) = None -> extract_sheet_id rest = None.
Proof.
  rewrite extract_sheet_id_step.
  destruct (if Ascii.eqb c "/" then _ else _) as [tail|]; [|trivial].
  destruct (sheet_id_run tail); [trivial|discriminate].
Qed.

Lemma extract_sheet_id_here (c : ascii) (post : string) :
  sheet_id_char c = true ->
  extract_sheet_id ("/d/" ++ String c post)
  = Some (sheet_id_run (String c post)).
Proof.
  intros Hc.
  change ("/d/" ++ String c post)%string
    with (String "/" (String "d" (String "/" (String c post)))).
  rewrite extract_sheet_id_step. cbn [Ascii.eqb Bool.eqb andb].
  cbn [sheet_id_run]. now rewrite Hc.
Qed.

(** X1.  The id of a Google sheet address is read back: whatever follows
    the id, as long as it does not go on with a character an id can
    have. *)
Theorem X1_extract_sheet_id_of_sheet_address (id post : string) :
  id <> EmptyString ->
  all_sheet_id_chars id = true ->
  ends_run post = true ->
  extract_sheet_id (SHEETS_ADDRESS ++ id ++ post) = Some id.
Proof.
  intros Hne Hid Hpost.
  destruct id as [|c id]; [now destruct Hne|].
  cbn [all_sheet_id_chars] in Hid. apply andb_true_iff in Hid as [Hc Hid].
  unfold SHEETS_ADDRESS.
  change (("https://docs.google.com/spreadsheets/d/" ++ String c id ++ post)%string)
    with (("https://docs.google.com/spreadsheets" ++
           ("/d/" ++ String c (id ++ post)))%string).
  assert (H : extract_sheet_id ("/d/" ++ String c (id ++ post))
              = Some (String c id)).
  { rewrite extract_sheet_id_here by assumption.
    cbn [sheet_id_run]. rewrite Hc. now rewrite sheet_id_run_app. }
  revert H. generalize ("/d/" ++ String c (id ++ post))%string as u.
  intros u H.
  change (("https://docs.google.com/spreadsheets" ++ u)%string)
    with (String "h" (String "t" (String "t" (String "p" (String "s"
         (String ":" (String "/" (String "/" (String "d" (String "o"
         (String "c" (String "s" (String "." (String "g" (String "o"
         (String "o" (String "g" (String "l" (String "e" (String "."
         (String "c" (String "o" (String "m" (String "/" (String "s"
         (String "p" (String "r" (String "e" (String "a" (String "d"
         (String "s" (String "h" (String "e" (String "e" (String "t"
         (String "s" u)))))))))))))))))))))))))))))))))))).
  repeat (rewrite extract_sheet_id_step; cbn [Ascii.eqb Bool.eqb andb]).
  exact H.
Qed.

Lemma X1_extract_sheet_id_of_sheet_address_sample :
  ("1umbEo-x_y"%string <> EmptyString
   /\ all_sheet_id_chars "1umbEo-x_y" = true
   /\ ends_run "/edit?usp=sharing" = true)
  /\ extract_sheet_id (SHEETS_ADDRESS ++ "1umbEo-x_y" ++ "/edit?usp=sharing")
     = Some "1umbEo-x_y"%string.
Proof.
  split; [split; [discriminate|split; reflexivity]|].
  apply (X1_extract_sheet_id_of_sheet_address "1umbEo-x_y" "/edit?usp=sharing");
    [discriminate|reflexivity|reflexivity].
Defined.

Lemma extract_sheet_id_some (url id : string) :
  extract_sheet_id url = Some id ->
  id <> EmptyString
  /\ all_sheet_id_chars id = true
  /\ exists pre post,
       url = (pre ++ "/d/" ++ id ++ post)%string /\ ends_run post = true.
Proof.
  induction url as [|c rest IH]; [discriminate|].
  rewrite extract_sheet_id_step.
  assert (Hrest :
            extract_sheet_id rest = Some id ->
            id <> EmptyString
            /\ all_sheet_id_chars id = true
            /\ exists pre post,
                 String c rest = (pre ++ "/d/" ++ id ++ post)%string
                 /\ ends_run post = true).
  { intros H. destruct (IH H) as (Hne & Hall & pre & post & -> & Hend).
    split; [assumption|]. split; [assumption|].
    now exists (String c pre), post. }
  destruct (Ascii.eqb_spec c "/") as [->|_]; [|exact Hrest].
  destruct rest as [|c2 [|c3 tail]]; try exact Hrest.
  destruct (Ascii.eqb_spec c2 "d") as [->|_]; [|exact Hrest].
  destruct (Ascii.eqb_spec c3 "/") as [->|_]; [|exact Hrest].
  cbn [andb].
  destruct (sheet_id_run tail) as [|c id'] eqn:Hrun; [exact Hrest|].
  intros H. inversion H; subst id. split; [discriminate|].
  destruct (sheet_id_run_spec tail) as (post & Htail & Hall & Hend).
  rewrite Hrun in Htail, Hall. split; [assumption|].
  exists EmptyString, post. split; [|assumption].
  change (String "/" (String "d" (String "/" tail))
          = String "/" (String "d" (String "/" (String c id' ++ post)))).
  now rewrite <- Htail.
Qed.

(** X2.  What [extract_sheet_id] returns is never empty, is made of
    characters of the class only, stands in the address right after a
    ["/d/"], and is the whole run of such characters there. *)
Theorem X2_extract_sheet_id_sound (url id : string) :
  extract_sheet_id url = Some id ->
  id <> EmptyString
  /\ all_sheet_id_chars id = true
  /\ exists pre post,
       url = (pre ++ "/d/" ++ id ++ post)%string /\ ends_run post = true.
Proof. apply extract_sheet_id_some. Qed.

Lemma X2_extract_sheet_id_sound_sample :
  extract_sheet_id "https://x.test/d/AB-9?gid=0" = Some "AB-9"%string
  /\ ("AB-9"%string <> EmptyString
      /\ all_sheet_id_chars "AB-9" = true
      /\ exists pre post,
           "https://x.test/d/AB-9?gid=0"%string
           = (pre ++ "/d/" ++ "AB-9" ++ post)%string
           /\ ends_run post = true).
Proof.
  split; [reflexivity|].
  apply (X2_extract_sheet_id_sound "https://x.test/d/AB-9?gid=0" "AB-9").
  reflexivity.
Defined.

(** An id is found exactly when the address has a ["/d/"] followed by
    a character of the class. *)
Lemma extract_sheet_id_finds (url : string) :
  extract_sheet_id url <> None <-> has_sheet_id url.
Proof.
  split.
  - destruct (extract_sheet_id url) as [id|] eqn:H; [intros _|now intros []].
    apply extract_sheet_id_some in H
      as (Hne & Hall & pre & post & -> & _).
    destruct id as [|c id]; [now destruct Hne|].
    exists pre, c, (id ++ post)%string. split; [reflexivity|].
    cbn in Hall. now apply andb_true_iff in Hall as [Hc _].
  - intros (pre & c & post & -> & Hc) H.
    induction pre as [|a pre IH].
    + change (("" ++ "/d/" ++ String c post)%string)
        with (("/d/" ++ String c post)%string) in H.
      rewrite extract_sheet_id_here in H by assumption. discriminate.
    + apply IH. eapply extract_sheet_id_tail. exact H.
Qed.


(** ** Collecting the reactors *)

Lemma member_in_spec (m : Member) (l : list Member) :
  member_in m l = true <-> In (member_id m) (map member_id l).
Proof.
  unfold member_in. rewrite existsb_exists, in_map_iff.
  split; intros (x & H1 & H2); exists x.
  - apply Z.eqb_eq in H2. now split.
  - split; [assumption|]. now apply Z.eqb_eq.
Qed.

Lemma member_in_app (m : Member) (l1 l2 : list Member) :
  member_in m (l1 ++ l2) = member_in m l1 || member_in m l2.
Proof. unfold member_in. apply existsb_app. Qed.

Lemma get_member_safely_result g uid s r s' :
  get_member_safely (Some g) uid s = (Ok r, s') ->
  match r with
  | Some m => resolves g uid m
  | None => forall m, ~ resolves g uid m
  end.
Proof.
  unfold get_member_safely, resolves.
  destruct (List.find _ (guild_members g)) as [m0|] eqn:Hfind.
  - intros H. inversion H; subst. now left.
  - unfold_m. destruct (guild_fetch_member g uid) as [m|e] eqn:Hfetch; cbn.
    + intros H. inversion H; subst. right. now split.
    + destruct (is_HTTPException e); cbn; intros H; inversion H; subst.
      intros m [Hm|[_ Hm]]; discriminate.
Qed.

Lemma resolves_unique g uid m m' :
  resolves g uid m -> resolves g uid m' -> m = m'.
Proof. unfold resolves. intros [H|[H1 H2]] [H'|[H1' H2']]; congruence. Qed.

Section Collect.
Variable g : Guild.

Lemma collect_users_distinct users :
  forall reactors s r s',
    collect_users (Some g) users reactors s = (Ok r, s') ->
    NoDup (map member_id reactors) -> NoDup (map member_id r).
Proof.
  induction users as [|u rest IH]; intros reactors s r s' H Hnd;
    cbn [collect_users] in H.
  - now inversion H; subst.
  - destruct (user_bot u); [eapply IH; eassumption|].
    apply bind_inv in H as (member & s1 & _ & H).
    destruct member as [m|]; [|eapply IH; eassumption].
    destruct (member_in m reactors) eqn:Hin; [eapply IH; eassumption|].
    eapply IH; [eassumption|].
    rewrite List.map_app. cbn [map]. apply NoDup_app. split; [assumption|].
    split; [|apply NoDup_singleton].
    intros x Hx Hx'. apply list_elem_of_In in Hx, Hx'.
    destruct Hx' as [<-|[]].
    apply member_in_spec in Hx. congruence.
Qed.

Lemma collect_users_sound users :
  forall reactors s r s' m,
    collect_users (Some g) users reactors s = (Ok r, s') ->
    In m r ->
    In m reactors
    \/ exists user,
         In user users /\ user_bot user = false
         /\ resolves g (user_id user) m.
Proof.
  induction users as [|u rest IH]; intros reactors s r s' m H Hm;
    cbn [collect_users] in H.
  - inversion H; subst. now left.
  - assert (Hlater :
              forall reactors0 s0,
                collect_users (Some g) rest reactors0 s0 = (Ok r, s') ->
                In m reactors0
                \/ exists user,
                     In user (u :: rest) /\ user_bot user = false
                     /\ resolves g (user_id user) m).
    { intros reactors0 s0 H0.
      destruct (IH _ _ _ _ _ H0 Hm) as [?|(user & ? & ? & ?)];
        [now left|right]. exists user. repeat split; try assumption.
      now right. }
    destruct (user_bot u) eqn:Hbot; [eapply Hlater; eassumption|].
    apply bind_inv in H as (member & s1 & Hget & H).
    apply get_member_safely_result in Hget.
    destruct member as [m0|]; [|eapply Hlater; eassumption].
    destruct (member_in m0 reactors); [eapply Hlater; eassumption|].
    destruct (Hlater _ _ H) as [Hin|Hex]; [|now right].
    apply in_app_or in Hin as [Hin|[<-|[]]]; [now left|right].
    exists u. repeat split; [now left|assumption|assumption].
Qed.

Lemma collect_users_grows users :
  forall reactors s r s' m,
    collect_users (Some g) users reactors s = (Ok r, s') ->
    member_in m reactors = true -> member_in m r = true.
Proof.
  induction users as [|u rest IH]; intros reactors s r s' m H Hm;
    cbn [collect_users] in H.
  - now inversion H; subst.
  - destruct (user_bot u); [eapply IH; eassumption|].
    apply bind_inv in H as (member & s1 & _ & H).
    destruct member as [m0|]; [|eapply IH; eassumption].
    destruct (member_in m0 reactors); [eapply IH; eassumption|].
    eapply IH; [eassumption|]. rewrite member_in_app, Hm. reflexivity.
Qed.

Lemma collect_users_complete users :
  forall reactors s r s' user m,
    collect_users (Some g) users reactors s = (Ok r, s') ->
    In user users -> user_bot user = false ->
    resolves g (user_id user) m ->
    member_in m r = true.
Proof.
  induction users as [|u rest IH]; intros reactors s r s' user m H Hu Hbot Hres;
    cbn [collect_users] in H; [destruct Hu|].
  destruct Hu as [->|Hu].
  - rewrite Hbot in H.
    apply bind_inv in H as (member & s1 & Hget & H).
    apply get_member_safely_result in Hget.
    destruct member as [m0|]; [|now destruct (Hget m)].
    assert (m0 = m) by (eapply resolves_unique; eassumption). subst m0.
    destruct (member_in m reactors) eqn:Hin.
    + eapply collect_users_grows; eassumption.
    + eapply collect_users_grows; [eassumption|].
      rewrite member_in_app. cbn. rewrite Z.eqb_refl.
      now rewrite orb_true_r.
  - destruct (user_bot u); [eapply IH; eassumption|].
    apply bind_inv in H as (member & s1 & _ & H).
    destruct member as [m0|]; [|eapply IH; eassumption].
    destruct (member_in m0 reactors); eapply IH; eassumption.
Qed.

Lemma collect_reactions_distinct reactions :
  forall reactors s r s',
    collect_reactions (Some g) reactions reactors s = (Ok r, s') ->
    NoDup (map member_id reactors) -> NoDup (map member_id r).
Proof.
  induction reactions as [|x rest IH]; intros reactors s r s' H Hnd;
    cbn [collect_reactions] in H.
  - now inversion H; subst.
  - apply bind_inv in H as (users & s1 & _ & H).
    apply bind_inv in H as (reactors' & s2 & Hu & H).
    eapply IH; [eassumption|]. eapply collect_users_distinct; eassumption.
Qed.

Lemma collect_reactions_sound reactions :
  forall reactors s r s' m,
    collect_reactions (Some g) reactions reactors s = (Ok r, s') ->
    In m r ->
    In m reactors
    \/ exists reaction users user,
         In reaction reactions /\ reaction_users reaction = Ok users
         /\ In user users /\ user_bot user = false
         /\ resolves g (user_id user) m.
Proof.
  induction reactions as [|x rest IH]; intros reactors s r s' m H Hm;
    cbn [collect_reactions] in H.
  - inversion H; subst. now left.
  - apply bind_inv in H as (users & s1 & Hl & H).
    apply lift_inv in Hl as [Hl ->].
    apply bind_inv in H as (reactors' & s2 & Hu & H).
    destruct (IH _ _ _ _ _ H Hm)
      as [Hin|(reaction & users' & user & ? & ? & ? & ? & ?)].
    + destruct (collect_users_sound _ _ _ _ _ _ Hu Hin)
        as [?|(user & ? & ? & ?)]; [now left|right].
      exists x, users, user. repeat split; try assumption. now left.
    + right. exists reaction, users', user.
      repeat split; try assumption. now right.
Qed.

Lemma collect_reactions_grows reactions :
  forall reactors s r s' m,
    collect_reactions (Some g) reactions reactors s = (Ok r, s') ->
    member_in m reactors = true -> member_in m r = true.
Proof.
  induction reactions as [|x rest IH]; intros reactors s r s' m H Hm;
    cbn [collect_reactions] in H.
  - now inversion H; subst.
  - apply bind_inv in H as (users & s1 & _ & H).
    apply bind_inv in H as (reactors' & s2 & Hu & H).
    eapply IH; [eassumption|]. eapply collect_users_grows; eassumption.
Qed.

Lemma collect_reactions_complete reactions :
  forall reactors s r s' reaction users user m,
    collect_reactions (Some g) reactions reactors s = (Ok r, s') ->
    In reaction reactions -> reaction_users reaction = Ok users ->
    In user users -> user_bot user = false ->
    resolves g (user_id user) m ->
    member_in m r = true.
Proof.
  induction reactions as [|x rest IH];
    intros reactors s r s' reaction users user m H Hr Hus Hu Hbot Hres;
    cbn [collect_reactions] in H; [destruct Hr|].
  apply bind_inv in H as (users' & s1 & Hl & H).
  apply lift_inv in Hl as [Hl ->].
  apply bind_inv in H as (reactors' & s2 & Hcu & H).
  destruct Hr as [->|Hr].
  - assert (users' = users) by congruence. subst users'.
    eapply collect_reactions_grows; [eassumption|].
    eapply collect_users_complete; eassumption.
  - eapply IH; eassumption.
Qed.

End Collect.

Lemma collect_reactors_nodup (message : Message) (b b' : TaskBot)
    (reactors : list Member) :
  collect_reactors message b = (Ok reactors, b') ->
  NoDup (map member_id reactors).
Proof.
  unfold collect_reactors. intros H.
  destruct (message_guild message) as [g|].
  - eapply collect_reactions_distinct; [eassumption|constructor].
  - apply collect_reactions_no_guild in H. subst. constructor.
Qed.

(** X3.  No two of the reactors collected have the same id, however often
    and under however many emojis somebody reacted. *)
Theorem X3_collect_reactors_distinct (message : Message) (b b' : TaskBot)
    (reactors : list Member) :
  collect_reactors message b = (Ok reactors, b') ->
  NoDup (map member_id reactors).
Proof. apply collect_reactors_nodup. Qed.

Lemma X3_collect_reactors_distinct_sample :
  collect_reactors both_emojis Sample.batch
  = (Ok [Sample.alice; Sample.bob],
     snd (collect_reactors both_emojis Sample.batch))
  /\ NoDup (map member_id [Sample.alice; Sample.bob]).
Proof.
  assert (H : collect_reactors both_emojis Sample.batch
              = (Ok [Sample.alice; Sample.bob],
                 snd (collect_reactors both_emojis Sample.batch)))
    by (vm_compute; reflexivity).
  split; [exact H|].
  exact (X3_collect_reactors_distinct _ _ _ _ H).
Defined.

(** X4.  Every reactor collected is what [get_member_safely] resolves for a
    user who is not a bot and stands under one of the reactions of the
    message. *)
Theorem X4_collect_reactors_sound (message : Message) (b b' : TaskBot)
    (reactors : list Member) (m : Member) :
  collect_reactors message b = (Ok reactors, b') ->
  In m reactors ->
  exists g reaction users user,
    message_guild message = Some g
    /\ In reaction (message_reactions message)
    /\ reaction_users reaction = Ok users
    /\ In user users /\ user_bot user = false
    /\ resolves g (user_id user) m.
Proof.
  unfold collect_reactors. intros H Hm.
  destruct (message_guild message) as [g|].
  - destruct (collect_reactions_sound g _ _ _ _ _ _ H Hm)
      as [[]|(reaction & users & user & ? & ? & ? & ? & ?)].
    exists g, reaction, users, user. now repeat split.
  - apply collect_reactions_no_guild in H. subst. destruct Hm.
Qed.

Lemma X4_collect_reactors_sound_sample :
  collect_reactors both_emojis Sample.batch
  = (Ok [Sample.alice; Sample.bob],
     snd (collect_reactors both_emojis Sample.batch))
  /\ In Sample.bob [Sample.alice; Sample.bob]
  /\ exists g reaction users user,
       message_guild both_emojis = Some g
       /\ In reaction (message_reactions both_emojis)
       /\ reaction_users reaction = Ok users
       /\ In user users /\ user_bot user = false
       /\ resolves g (user_id user) Sample.bob.
Proof.
  assert (H : collect_reactors both_emojis Sample.batch
              = (Ok [Sample.alice; Sample.bob],
                 snd (collect_reactors both_emojis Sample.batch)))
    by (vm_compute; reflexivity).
  split; [exact H|]. split; [right; now left|].
  exact (X4_collect_reactors_sound _ _ _ _ Sample.bob H
           (or_intror (or_introl eq_refl))).
Defined.

(** X5.  Nobody is left out: when the collection returns, every user who
    is not a bot, stands under a reaction and resolves to a member has a
    reactor of that member's id. *)
Theorem X5_collect_reactors_complete (message : Message) (b b' : TaskBot)
    (reactors : list Member) (g : Guild) (reaction : Reaction)
    (users : list User) (user : User) (m : Member) :
  collect_reactors message b = (Ok reactors, b') ->
  message_guild message = Some g ->
  In reaction (message_reactions message) ->
  reaction_users reaction = Ok users ->
  In user users -> user_bot user = false ->
  resolves g (user_id user) m ->
  In (member_id m) (map member_id reactors).
Proof.
  unfold collect_reactors. intros H Hg Hr Hus Hu Hbot Hres.
  rewrite Hg in H. apply member_in_spec.
  eapply collect_reactions_complete; eassumption.
Qed.

Lemma X5_collect_reactors_complete_sample :
  let thumbs :=
    {| reaction_emoji := Sample.THUMBS_UP;
       reaction_users :=
         Ok [Sample.user_of Sample.bob; Sample.user_of Sample.alice] |} in
  collect_reactors both_emojis Sample.batch
  = (Ok [Sample.alice; Sample.bob],
     snd (collect_reactors both_emojis Sample.batch))
  /\ message_guild both_emojis = Some Sample.guild
  /\ In thumbs (message_reactions both_emojis)
  /\ reaction_users thumbs
     = Ok [Sample.user_of Sample.bob; Sample.user_of Sample.alice]
  /\ In (Sample.user_of Sample.bob)
       [Sample.user_of Sample.bob; Sample.user_of Sample.alice]
  /\ user_bot (Sample.user_of Sample.bob) = false
  /\ resolves Sample.guild (user_id (Sample.user_of Sample.bob)) Sample.bob
  /\ In (member_id Sample.bob) (map member_id [Sample.alice; Sample.bob]).
Proof.
  cbv zeta.
  assert (H : collect_reactors both_emojis Sample.batch
              = (Ok [Sample.alice; Sample.bob],
                 snd (collect_reactors both_emojis Sample.batch)))
    by (vm_compute; reflexivity).
  assert (Hres : resolves Sample.guild (user_id (Sample.user_of Sample.bob))
                   Sample.bob) by (left; reflexivity).
  split; [exact H|]. split; [reflexivity|]. split; [right; now left|].
  split; [reflexivity|]. split; [now left|]. split; [reflexivity|].
  split; [exact Hres|].
  exact (X5_collect_reactors_complete _ _ _ _ Sample.guild _ _
           (Sample.user_of Sample.bob) Sample.bob H eq_refl
           (or_intror (or_introl eq_refl)) eq_refl (or_introl eq_refl)
           eq_refl Hres).
Defined.

(** ** The winners of a round and their task numbers *)

(** All of what a round that gets to settle its winners went through. *)
Lemma round_settle_resolved env b mid elig winners assigned outcomes b' :
  round_settle env b = (Ok (RSettled mid elig winners assigned outcomes), b') ->
  exists message reactors stamps s1 s2 s3,
    env_fetch_message env = Ok message
    /\ collect_reactors message s1 = (Ok reactors, s2)
    /\ elig
       = eligible_reactors (TASK_ROLE_NAME b) (message_guild message) reactors
    /\ select_winners stamps mid elig (tasks_this_round b) = Ok winners
    /\ 0 < tasks_this_round b
    /\ settle_loop (env_settle env) (message_guild message) (current_task b)
         0 winners [] [] s3
       = (Ok (assigned, outcomes), b')
    /\ (forall X (f : TaskBot -> X), untouched f -> f s3 = f b).
Proof.
  intros H. unfold round_settle in H. rewrite !bind_gets in H.
  destruct (tasks_this_round b <=? 0) eqn:Hn.
  { cbn in H. discriminate. }
  apply Z.leb_gt in Hn.
  apply bind_inv in H as (channel & s1 & K1 & H).
  apply bind_inv in H as (mid' & s2 & K2 & H).
  apply bind_inv in H as (? & s3 & K3 & H).
  apply bind_inv in H as (? & s4 & K4 & H).
  apply bind_inv in H as (? & s5 & K5 & H).
  apply bind_inv in H as (? & s6 & K6 & H).
  rewrite bind_gets in H.
  destruct (stop_requested s6); [discriminate|].
  apply bind_inv in H as (channel' & s7 & K7 & H).
  apply bind_inv in H as (message & s8 & K8 & H).
  pose proof (io_inv _ _ _ _ _ K8) as Hfetch.
  apply bind_inv in H as (reactors & s9 & K9 & H).
  assert (Hkeep : forall X (f : TaskBot -> X), untouched f -> f s9 = f b).
  { intros X f Hf.
    unfold collect_reactors in K9.
    rewrite (keeps_run f _ _ _ _ (keeps_collect_reactions f Hf _ _ _) K9).
    rewrite (keeps_run f _ _ _ _ (keeps_io f Hf _ _) K8).
    rewrite (keeps_run f _ _ _ _ (keeps_the_announce_channel f) K7).
    rewrite (keeps_run f _ _ _ _ (keeps_window f Hf _ _) K6).
    rewrite (keeps_run f _ _ _ _ (keeps_ping f Hf _ _) K5).
    rewrite (keeps_run f _ _ _ _ (keeps_io f Hf _ _) K4).
    rewrite (keeps_run f _ _ _ _
               (keeps_modify f _ (fun s => untouched_stamps f Hf _ s)) K3).
    rewrite (keeps_run f _ _ _ _ (keeps_io f Hf _ _) K2).
    now rewrite (keeps_run f _ _ _ _ (keeps_the_announce_channel f) K1). }
  rewrite bind_gets in H.
  rewrite (Hkeep _ TASK_ROLE_NAME untouched_TASK_ROLE_NAME) in H.
  destruct (eligible_reactors (TASK_ROLE_NAME b) (message_guild message)
              reactors) as [|m l] eqn:Helig; [discriminate|].
  rewrite bind_gets in H.
  apply bind_inv in H as (ws & s10 & K10 & H).
  apply lift_inv in K10 as [Hsel ->].
  apply bind_inv in H as ([acc outs] & s11 & K11 & H).
  unfold ret in H. cbn [fst snd] in H. inversion H; subst.
  exists message, reactors, (reaction_timestamps s9), s8, s9, s9.
  repeat split; try assumption. now symmetry.
Qed.

Lemma NoDup_map_filter {A B} (f : A -> B) (p : A -> bool) (l : list A) :
  NoDup (map f l) -> NoDup (map f (List.filter p l)).
Proof.
  induction l as [|a l IH]; cbn; [trivial|].
  intros H. apply NoDup_cons in H as [Ha H].
  destruct (p a); cbn; [|now apply IH].
  apply NoDup_cons. split; [|now apply IH].
  intros Hin. apply Ha. apply list_elem_of_In in Hin. apply list_elem_of_In.
  apply in_map_iff in Hin as (x & Hx & Hin). apply in_map_iff.
  exists x. split; [assumption|]. now apply filter_In in Hin as [Hin _].
Qed.

Lemma select_winners_distinct stamps mid eligible n winners :
  select_winners stamps mid eligible n = Ok winners ->
  NoDup (map member_id eligible) -> NoDup (map member_id winners).
Proof.
  unfold select_winners.
  destruct (sorted _ eligible) as [l|e] eqn:Hs; [|discriminate].
  intros H Hnd. inversion H; subst.
  apply sorted_perm in Hs.
  assert (Hl : NoDup (map member_id l)).
  { assert (Hp : map member_id eligible ≡ₚ map member_id l)
      by now apply Permutation_map.
    now rewrite <- Hp. }
  destruct (slice_to_prefix l n) as [rest Hrest].
  rewrite Hrest, List.map_app in Hl.
  now apply NoDup_app in Hl as [Hl _].
Qed.

(** X6.  The winners of a round are different members: nobody is selected
    twice, however often they reacted. *)
Theorem X6_winners_are_distinct (env : TickEnv) (b : TaskBot) (mid : Z)
    (eligible winners : list Member) (assigned : list (Member * Z))
    (outcomes : list (result unit)) (b' : TaskBot) :
  round_settle env b
  = (Ok (RSettled mid eligible winners assigned outcomes), b') ->
  NoDup (map member_id winners).
Proof.
  intros H.
  apply round_settle_resolved in H
    as (message & reactors & stamps & s1 & s2 & s3
        & _ & Hcollect & -> & Hsel & _ & _ & _).
  eapply select_winners_distinct; [exact Hsel|].
  apply NoDup_map_filter. eapply collect_reactors_nodup, Hcollect.
Qed.

Lemma X6_winners_are_distinct_sample :
  round_settle Sample.tick_three Sample.batch
  = (Ok (RSettled 500 [Sample.bob; Sample.alice] [Sample.alice; Sample.bob]
           [(Sample.alice, 1); (Sample.bob, 2)] [Ok tt; Ok tt]),
     snd (round_settle Sample.tick_three Sample.batch))
  /\ NoDup (map member_id [Sample.alice; Sample.bob]).
Proof.
  assert (H : round_settle Sample.tick_three Sample.batch
              = (Ok (RSettled 500 [Sample.bob; Sample.alice] [Sample.alice; Sample.bob]
                       [(Sample.alice, 1); (Sample.bob, 2)] [Ok tt; Ok tt]),
                 snd (round_settle Sample.tick_three Sample.batch)))
    by (vm_compute; reflexivity).
  split; [exact H|].
  exact (X6_winners_are_distinct _ _ _ _ _ _ _ _ H).
Defined.

(** The loop appends, in the order of the winners, the winners whose [try]
    body ended well, each with the number of its index. *)
Lemma settle_loop_numbers envs g start winners :
  forall i acc outs s assigned outcomes s',
    settle_loop envs (Some g) start i winners acc outs s
    = (Ok (assigned, outcomes), s') ->
    exists extra,
      assigned = acc ++ extra
      /\ sublist extra
           (combine winners
              (map (fun k => start + Z.of_nat k) (seq i (length winners))))
      /\ length outcomes = (length outs + length winners)%nat.
Proof.
  induction winners as [|w rest IH];
    intros i acc outs s assigned outcomes s' H; cbn [settle_loop] in H.
  - inversion H; subst. exists []. rewrite app_nil_r.
    repeat split; [constructor|cbn; lia].
  - apply bind_inv in H as ([acc1 outs1] & s1 & Hstep & H).
    apply IH in H as (extra & -> & Hsub & Hlen). cbn [fst snd] in *.
    unfold try_except, any_Exception in Hstep.
    unfold bind at 1 in Hstep.
    destruct (process_winner (envs i) (Some g) start i w s)
      as [[r|e] s0] eqn:Hp.
    + apply process_winner_appends in Hp. subst r.
      inversion Hstep; subst.
      exists ((w, start + Z.of_nat i) :: extra).
      rewrite <- app_assoc. split; [reflexivity|].
      split; [cbn; now constructor|].
      rewrite Hlen, length_app. cbn. lia.
    + unfold_m. cbn in Hstep. inversion Hstep; subst.
      exists extra. split; [reflexivity|].
      split; [cbn; now constructor|].
      rewrite Hlen, length_app. cbn. lia.
Qed.

Lemma In_numbered start winners w n :
  In (w, n) (numbered start winners) ->
  In w winners /\ start <= n < start + Z.of_nat (length winners).
Proof.
  unfold numbered. intros H. split; [eapply in_combine_l, H|].
  apply in_combine_r, in_map_iff in H as (k & <- & Hk).
  apply in_seq in Hk. lia.
Qed.

Lemma map_snd_combine_same_length {A B} (l1 : list A) :
  forall l2 : list B, length l1 = length l2 -> map snd (combine l1 l2) = l2.
Proof.
  induction l1 as [|a l1 IH]; intros [|b l2] H; cbn in *;
    try discriminate; [reflexivity|].
  f_equal. apply IH. lia.
Qed.

Lemma NoDup_map_injective {A B} (f : A -> B) (l : list A) :
  (forall x y, f x = f y -> x = y) -> NoDup l -> NoDup (map f l).
Proof.
  intros Hinj. induction 1 as [|a l Ha Hl IH]; cbn; constructor;
    [|assumption].
  intros Hin. apply Ha. apply list_elem_of_In in Hin. apply list_elem_of_In.
  apply in_map_iff in Hin as (x & Hx & Hin). now rewrite <- (Hinj _ _ Hx).
Qed.

Lemma sublist_map {A B} (f : A -> B) (l1 l2 : list A) :
  sublist l1 l2 -> sublist (map f l1) (map f l2).
Proof. induction 1; cbn; now constructor. Qed.

Lemma round_assigned_numbers (env : TickEnv) (b : TaskBot) (mid : Z)
    (eligible winners : list Member) (assigned : list (Member * Z))
    (outcomes : list (result unit)) (b' : TaskBot) :
  round_settle env b
  = (Ok (RSettled mid eligible winners assigned outcomes), b') ->
  sublist assigned (numbered (current_task b) winners)
  /\ length outcomes = length winners
  /\ NoDup (map snd assigned)
  /\ forall w n,
       In (w, n) assigned ->
       In w winners
       /\ current_task b <= n <= total_tasks b
       /\ n < current_task b + winners_per_task b.
Proof.
  intros H.
  apply round_settle_resolved in H
    as (message & reactors & stamps & s1 & s2 & s3
        & _ & Hcollect & -> & Hsel & Hn & Hloop & _).
  assert (Hsub : sublist assigned (numbered (current_task b) winners)
                 /\ length outcomes = length winners).
  { destruct (message_guild message) as [g|] eqn:Hg.
    - apply settle_loop_numbers in Hloop as (extra & -> & Hsub & Hl).
      now split.
    - unfold collect_reactors in Hcollect. rewrite Hg in Hcollect.
      apply collect_reactions_no_guild in Hcollect. subst reactors.
      cbn in Hsel. inversion Hsel; subst.
      assert (E : slice_to (@nil Member) (tasks_this_round b) = [])
        by (unfold slice_to; destruct (0 <=? _); now rewrite firstn_nil).
      rewrite E in Hloop. inversion Hloop; subst. rewrite E.
      split; [constructor|reflexivity]. }
  destruct Hsub as [Hsub Hout]. split; [assumption|]. split; [assumption|].
  split.
  - eapply sublist_NoDup; [|apply sublist_map, Hsub].
    unfold numbered.
    rewrite map_snd_combine_same_length
      by now rewrite length_map, length_seq.
    apply NoDup_map_injective; [intros x y; lia|apply NoDup_seq].
  - intros w n Hin.
    assert (Hnum : In (w, n) (numbered (current_task b) winners)).
    { apply list_elem_of_In. eapply elem_of_sublist; [|exact Hsub].
      now apply list_elem_of_In. }
    apply In_numbered in Hnum as [Hw Hrange].
    apply select_winners_length in Hsel; [|lia].
    unfold tasks_this_round in *. split; [assumption|]. lia.
Qed.

(** X7.  What a round appends to [winners_assigned] is, in order, a part
    of the winners paired with consecutive task numbers from [current_task]
    on; so every number handed out lies between [current_task] and
    [total_tasks], is below [current_task + winners_per_task], and is
    handed out once. *)
Theorem X7_assigned_task_numbers (env : TickEnv) (b : TaskBot) (mid : Z)
    (eligible winners : list Member) (assigned : list (Member * Z))
    (outcomes : list (result unit)) (b' : TaskBot) :
  round_settle env b
  = (Ok (RSettled mid eligible winners assigned outcomes), b') ->
  sublist assigned (numbered (current_task b) winners)
  /\ length outcomes = length winners
  /\ NoDup (map snd assigned)
  /\ forall w n,
       In (w, n) assigned ->
       In w winners
       /\ current_task b <= n <= total_tasks b
       /\ n < current_task b + winners_per_task b.
Proof. apply round_assigned_numbers. Qed.

Lemma X7_assigned_task_numbers_sample :
  round_settle Sample.tick_three Sample.batch
  = (Ok (RSettled 500 [Sample.bob; Sample.alice] [Sample.alice; Sample.bob]
           [(Sample.alice, 1); (Sample.bob, 2)] [Ok tt; Ok tt]),
     snd (round_settle Sample.tick_three Sample.batch))
  /\ sublist [(Sample.alice, 1); (Sample.bob, 2)]
       (numbered (current_task Sample.batch) [Sample.alice; Sample.bob])
  /\ length [Ok tt; Ok tt] = length [Sample.alice; Sample.bob]
  /\ NoDup (map snd [(Sample.alice, 1); (Sample.bob, 2)])
  /\ forall w n,
       In (w, n) [(Sample.alice, 1); (Sample.bob, 2)] ->
       In w [Sample.alice; Sample.bob]
       /\ current_task Sample.batch <= n <= total_tasks Sample.batch
       /\ n < current_task Sample.batch + winners_per_task Sample.batch.
Proof.
  assert (H : round_settle Sample.tick_three Sample.batch
              = (Ok (RSettled 500 [Sample.bob; Sample.alice] [Sample.alice; Sample.bob]
                       [(Sample.alice, 1); (Sample.bob, 2)] [Ok tt; Ok tt]),
                 snd (round_settle Sample.tick_three Sample.batch)))
    by (vm_compute; reflexivity).
  split; [exact H|].
  exact (X7_assigned_task_numbers _ _ _ _ _ _ _ _ H).
Defined.

(** ** The batch is never exceeded *)

(** A tick leaves alone whatever no assignment of the cycle touches, those
    to [current_task] included. *)
Lemma keeps_task_allocation_loop_impl {X} (f : TaskBot -> X) env :
  untouched f -> (forall n s, f (set_current_task n s) = f s) ->
  keeps f (task_allocation_loop_impl env).
Proof.
  intros Hf Hc. unfold task_allocation_loop_impl.
  apply keeps_bind; [apply keeps_gets|]. intros guard.
  destruct guard.
  1-4: repeat (keeps_step Hf || apply (keeps_send_log _ Hf)
               || apply (keeps_loop_stop _ Hf)).
  apply keeps_try_except; [|intro; repeat keeps_step Hf].
  apply keeps_bind; [now apply keeps_round_settle|].
  intros r. unfold round_close.
  repeat (keeps_step Hf || apply (keeps_the_announce_channel _ Hf)
          || apply (keeps_del_reaction_timestamps _ Hf)
          || (apply keeps_modify; intro; apply Hc)).
Qed.

Lemma keeps_step_of_run {X} (f : TaskBot -> X) e s :
  untouched f -> (forall n s, f (set_current_task n s) = f s) ->
  f (step e s) = f s.
Proof.
  intros Hf Hc. destruct e as [env | ev now | a | a | a]; cbn [step].
  - now apply keeps_task_allocation_loop_impl.
  - now apply keeps_on_reaction_add.
  - now apply keeps_stop_tasks.
  - now apply keeps_pause_tasks.
  - now apply keeps_resume_tasks.
Qed.

Lemma keeps_run_of_events {X} (f : TaskBot -> X) events :
  untouched f -> (forall n s, f (set_current_task n s) = f s) ->
  forall s, f (run events s) = f s.
Proof.
  intros Hf Hc. induction events as [|e rest IH]; intros s; cbn [run].
  - reflexivity.
  - rewrite IH. now apply keeps_step_of_run.
Qed.

Lemma untouched_total_tasks : untouched total_tasks.
Proof. now split. Qed.

Lemma untouched_winners_per_task : untouched winners_per_task.
Proof. now split. Qed.

Lemma untouched_announce_channel : untouched announce_channel.
Proof. now split. Qed.

Lemma untouched_logs_channel : untouched logs_channel.
Proof. now split. Qed.

(** A tick settles no more winners than tasks remain. *)
Lemma settled_in_tick_bound env s :
  settled_in_tick env s = 0
  \/ settled_in_tick env s <= total_tasks s - current_task s + 1.
Proof.
  unfold settled_in_tick. destruct (tick_guard s); try now left.
  destruct (round_settle env s) as [[r|e] s1] eqn:Hrs; [|now left].
  destruct r as [| mid | mid start n | mid elig ws assigned outs];
    try now left.
  right.
  pose proof (round_settle_settled _ _ _ _ _ _ _ _ Hrs)
    as (_ & _ & _ & _ & _ & _ & _ & _ & Hcount).
  pose proof (round_settle_resolved _ _ _ _ _ _ _ _ Hrs)
    as (_ & _ & stamps & _ & _ & _ & _ & _ & _ & Hsel & Hn & _ & _).
  apply select_winners_length in Hsel; [|lia].
  unfold tasks_this_round in Hsel.
  apply round_assigned_numbers in Hrs as (Hsub & _).
  apply sublist_length in Hsub. unfold numbered in Hsub.
  rewrite length_combine, length_map, length_seq in Hsub. lia.
Qed.

Lemma run_within_batch events :
  forall s,
    current_task s <= total_tasks s + 1 ->
    current_task (run events s) <= total_tasks s + 1.
Proof.
  induction events as [|e rest IH]; intros s Hs; cbn [run]; [assumption|].
  assert (Ht : total_tasks (step e s) = total_tasks s)
    by (apply keeps_step_of_run; [apply untouched_total_tasks|reflexivity]).
  rewrite <- Ht. apply IH. rewrite Ht, step_advances.
  destruct e as [env | | | | ]; try lia.
  destruct (settled_in_tick_bound env s); lia.
Qed.

Lemma create_task_sets_total tasks type winners description env b :
  configured b = true ->
  ct_defer env = Ok tt ->
  total_tasks (snd (create_task tasks type winners description env b))
  = tasks.
Proof.
  intros Hc Hd.
  now rewrite (create_task_after_batch total_tasks _ _ _ _ _ _
                 untouched_total_tasks Hc Hd).
Qed.

(** X8.  Rounds stay within the batch: from a bot whose counter is at most
    [total_tasks + 1], whatever ticks, reaction events and stop, pause and
    resume commands follow, [current_task] does not go down and never
    passes [total_tasks + 1], [total_tasks] stays, and no more winners are
    settled than tasks remained.  The ticks of a run are whole rounds: a
    [/create_task] that sets a new batch while a round is in flight is not
    among these events, and the bound does not survive it
    ([in_flight_round_exceeds_the_new_batch] below). *)
Theorem X8_rounds_stay_within_the_batch (events : list event)
    (b : TaskBot) :
  current_task b <= total_tasks b + 1 ->
  current_task b <= current_task (run events b) <= total_tasks b + 1
  /\ total_tasks (run events b) = total_tasks b
  /\ settled_in_run events b <= total_tasks b + 1 - current_task b.
Proof.
  intros Hb.
  pose proof (run_within_batch events b Hb) as Hup.
  pose proof (run_monotone events b) as Hlow.
  pose proof (run_advances events b) as Hadv.
  split; [lia|]. split; [|lia].
  apply keeps_run_of_events; [apply untouched_total_tasks|reflexivity].
Qed.

Lemma X8_rounds_stay_within_the_batch_sample :
  current_task Sample.batch <= total_tasks Sample.batch + 1
  /\ current_task Sample.batch
     <= current_task (run Sample.two_ticks Sample.batch)
     <= total_tasks Sample.batch + 1
  /\ total_tasks (run Sample.two_ticks Sample.batch)
     = total_tasks Sample.batch
  /\ settled_in_run Sample.two_ticks Sample.batch
     <= total_tasks Sample.batch + 1 - current_task Sample.batch.
Proof.
  assert (H : current_task Sample.batch <= total_tasks Sample.batch + 1)
    by (vm_compute; discriminate).
  split; [exact H|].
  exact (X8_rounds_stay_within_the_batch Sample.two_ticks Sample.batch H).
Defined.

(** *** A batch set while a round is in flight

    The two halves make up the round. *)
Lemma round_settle_split env s :
  round_settle env s
  = (o <- round_to_window env ;;
     match o with
     | Some (message_id, starting_task_num, this_round) =>
         round_after_window env message_id starting_task_num this_round
     | None => ret RNothingToAssign
     end) s.
Proof.
  unfold round_settle, round_to_window, round_after_window,
    round_after_check.
  unfold bind, gets.
  destruct (tasks_this_round s <=? 0).
  - now destruct (loop_stop s) as [[u|e] s1].
  - destruct (the_announce_channel s) as [[c|e] s1]; [|reflexivity].
    destruct (io _ (env_announce env) s1) as [[mid|e] s2]; [|reflexivity].
    destruct (modify _ s2) as [[u3|e] s3]; [|reflexivity].
    destruct (io _ (env_add_reaction env) s3) as [[u4|e] s4]; [|reflexivity].
    destruct (ping env c s4) as [[u5|e] s5]; [|reflexivity].
    now destruct (window (env_log_send env) (env_window env) s5)
      as [[u6|e] s6].
Qed.

Lemma keeps_round_after_window {X} (f : TaskBot -> X) env mid start n :
  untouched f -> keeps f (round_after_window env mid start n).
Proof.
  intros Hf. unfold round_after_window, round_after_check, collect_reactors.
  repeat (keeps_step Hf || apply (keeps_the_announce_channel _ Hf)
          || apply (keeps_collect_reactions _ Hf)
          || apply (keeps_settle_loop _ Hf)).
Qed.

Lemma keeps_round_rest {X} (f : TaskBot -> X) env mid start n :
  untouched f -> (forall k s, f (set_current_task k s) = f s) ->
  keeps f (round_rest env mid start n).
Proof.
  intros Hf Hc. unfold round_rest.
  apply keeps_try_except; [|intro; repeat keeps_step Hf].
  apply keeps_bind; [now apply keeps_round_after_window|].
  intros r. unfold round_close.
  repeat (keeps_step Hf || apply (keeps_the_announce_channel _ Hf)
          || apply (keeps_del_reaction_timestamps _ Hf)
          || (apply keeps_modify; intro; apply Hc)).
Qed.

(** [/create_task] sets its batch while a round sleeps in its window, and
    the round goes on while the command awaits its reply: the round hands
    out the numbers it read at line 422 and adds its winners to the counter
    of the new batch at line 530, whatever the size of that batch. *)
Lemma in_flight_round_adds_to_the_new_batch env mid start n
    tasks type winners description cenv s :
  configured s = true ->
  ct_defer cenv = Ok tt ->
  let reset :=
    snd (create_task_batch tasks type winners description cenv s) in
  let final :=
    snd (create_task_start tasks cenv
           (snd (round_rest env mid start n reset))) in
  total_tasks final = tasks
  /\ current_task final
     = 1 + match fst (round_after_window env mid start n reset) with
           | Ok r => assigned_count r
           | Raise _ => 0
           end.
Proof.
  intros Hc Hd. cbv zeta.
  rewrite (create_task_batch_run _ _ _ _ _ _ Hc Hd). cbn [snd].
  pose proof untouched_current_task as Hf.
  rewrite (keeps_create_task_start total_tasks _ _ untouched_total_tasks).
  rewrite (keeps_create_task_start current_task _ _ Hf).
  split.
  - rewrite keeps_round_rest; [reflexivity|apply untouched_total_tasks|].
    reflexivity.
  - unfold round_rest. rewrite try_except_bind.
    match goal with
    | |- context [round_after_window env mid start n ?st] =>
        pose proof (keeps_round_after_window current_task env mid start n
                      Hf st) as K;
        destruct (round_after_window env mid start n st) as [[r|e] s1]
    end; cbn [fst snd] in *.
    + rewrite round_close_advances by (intros; repeat keeps_step Hf).
      rewrite K. reflexivity.
    + cbn. rewrite K. cbn. lia.
Qed.

(** So the counter can pass the end of the new batch: [/create_task tasks:1]
    lands while alice and bob react to the two tasks of an earlier batch of
    three. *)
Lemma in_flight_round_exceeds_the_new_batch :
  let in_window := snd (round_to_window Sample.tick_three Sample.batch) in
  let reset :=
    snd (create_task_batch 1 "Comment"%string None None Sample.create_ok
           in_window) in
  let final :=
    snd (create_task_start 1 Sample.create_ok
           (snd (round_rest Sample.tick_three 500 1 2 reset))) in
  fst (round_to_window Sample.tick_three Sample.batch)
  = Ok (Some (500, 1, 2))
  /\ fst (round_rest Sample.tick_three 500 1 2 reset)
     = Ok (RoundSettled 500 [Sample.bob; Sample.alice]
             [Sample.alice; Sample.bob] [(Sample.alice, 1); (Sample.bob, 2)])
  /\ total_tasks final = 1
  /\ current_task final = 3.
Proof. cbv zeta. repeat split; vm_compute; reflexivity. Qed.

(** ** Paused and stopped *)

Lemma tick_skipped env b :
  stop_requested b = true \/ is_paused b = true ->
  snd (task_allocation_loop_impl env b) = b.
Proof.
  intros H. unfold task_allocation_loop_impl. rewrite bind_gets.
  unfold tick_guard.
  destruct (stop_requested b); [reflexivity|].
  destruct H as [H|H]; [discriminate|]. now rewrite H.
Qed.

(** X9.  While the bot is paused or stopped, ticks do nothing at all:
    after any number of them the bot, trace included, is as it was. *)
Theorem X9_paused_or_stopped_ticks_do_nothing (envs : list TickEnv)
    (b : TaskBot) :
  stop_requested b = true \/ is_paused b = true ->
  run (map Tick envs) b = b.
Proof.
  intros H. induction envs as [|env rest IH]; cbn [map run step];
    [reflexivity|].
  now rewrite tick_skipped.
Qed.

Lemma X9_paused_or_stopped_ticks_do_nothing_sample :
  (stop_requested (set_is_paused true Sample.batch) = true
   \/ is_paused (set_is_paused true Sample.batch) = true)
  /\ run (map Tick [Sample.tick_three; Sample.tick_first_winner_fails])
       (set_is_paused true Sample.batch)
     = set_is_paused true Sample.batch.
Proof.
  split; [now right|].
  apply (X9_paused_or_stopped_ticks_do_nothing
           [Sample.tick_three; Sample.tick_first_winner_fails]).
  now right.
Defined.

Lemma round_calls_app t1 t2 :
  round_calls (t1 ++ t2) = round_calls t1 ++ round_calls t2.
Proof. apply List.filter_app. Qed.

Lemma round_calls_send_log answer text channel :
  round_calls (send_log_trace answer text channel) = [].
Proof.
  unfold send_log_trace. destruct channel; [|reflexivity].
  now destruct answer.
Qed.

Lemma stop_tasks_run a s :
  exists d,
    snd (stop_tasks a s)
    = set_trace (trace s ++ d)
        (set_loop_running false (set_stop_requested true s))
    /\ round_calls d = [].
Proof.
  unfold stop_tasks. unfold bind at 1. unfold modify at 1.
  rewrite bind_gets. cbn [loop_running set_stop_requested].
  destruct (loop_running s) eqn:Hr.
  - unfold loop_stop. unfold_m. cbn [fst snd]. rewrite send_log_run.
    cbn [snd trace set_trace set_loop_running logs_channel].
    eexists. split.
    + rewrite <- app_assoc. reflexivity.
    + rewrite round_calls_app, round_calls_send_log. reflexivity.
  - unfold_m. cbn [snd]. exists [Log WARNING LStopNotRunning].
    split; [|reflexivity].
    destruct s; cbn in *; subst; reflexivity.
Qed.

Lemma pause_tasks_run a s :
  exists d,
    snd (pause_tasks a s) = set_trace (trace s ++ d) (set_is_paused true s)
    /\ round_calls d = [].
Proof.
  unfold pause_tasks. rewrite bind_gets.
  destruct (is_paused s) eqn:Hp; cbn [negb].
  - exists []. split; [|reflexivity].
    unfold ret. cbn [snd]. rewrite app_nil_r.
    destruct s; cbn in *; subst; reflexivity.
  - unfold bind, modify. rewrite send_log_run. cbn [snd trace set_is_paused].
    eexists. split; [reflexivity|apply round_calls_send_log].
Qed.

Lemma resume_tasks_run a s :
  exists d,
    snd (resume_tasks a s) = set_trace (trace s ++ d) (set_is_paused false s)
    /\ round_calls d = [].
Proof.
  unfold resume_tasks. rewrite bind_gets.
  destruct (is_paused s) eqn:Hp.
  - unfold bind, modify. rewrite send_log_run. cbn [snd trace set_is_paused].
    eexists. split; [reflexivity|apply round_calls_send_log].
  - exists []. split; [|reflexivity].
    unfold ret. cbn [snd]. rewrite app_nil_r.
    destruct s; cbn in *; subst; reflexivity.
Qed.

Lemma on_reaction_add_trace ev now s :
  trace (on_reaction_add ev now s) = trace s
  /\ stop_requested (on_reaction_add ev now s) = stop_requested s.
Proof.
  unfold on_reaction_add. destruct (user_bot (ev_user ev)); [now split|].
  destruct (reaction_timestamps s !! ev_message_id ev) as [stamps|];
    [|now split].
  now destruct (stamps !! user_id (ev_user ev)).
Qed.

Lemma stopped_step e s :
  stop_requested s = true ->
  stop_requested (step e s) = true
  /\ round_calls (trace (step e s)) = round_calls (trace s).
Proof.
  intros Hs. destruct e as [env | ev now | a | a | a]; cbn [step].
  - rewrite tick_skipped by now left. now split.
  - destruct (on_reaction_add_trace ev now s) as [-> ->]. now split.
  - destruct (stop_tasks_run a s) as (d & -> & Hd). cbn.
    rewrite round_calls_app, Hd, app_nil_r. now split.
  - destruct (pause_tasks_run a s) as (d & -> & Hd). cbn.
    rewrite round_calls_app, Hd, app_nil_r. now split.
  - destruct (resume_tasks_run a s) as (d & -> & Hd). cbn.
    rewrite round_calls_app, Hd, app_nil_r. now split.
Qed.

Lemma round_rest_stopped env mid start n s :
  stop_requested s = true ->
  round_rest env mid start n s = (Ok (Abandoned mid), s).
Proof.
  intros Hs. unfold round_rest, round_after_window, try_except.
  unfold bind at 1. rewrite bind_gets, Hs. reflexivity.
Qed.

(** The flag is looked at when a tick starts and once more when the window
    is over.  A [/stop_tasks] that lands later in a round, while the round
    awaits [fetch_message], [add_roles], the message to a winner or the
    sheet, is not seen by that round: here it lands right after the
    re-check of line 478, and the round still grants the role to alice and
    to bob and moves [current_task] from 1 to 3 at line 530. *)
Lemma stop_after_the_recheck_is_not_seen :
  let in_window := snd (round_to_window Sample.tick_three Sample.batch) in
  let stopped := snd (stop_tasks (Ok tt) in_window) in
  let finished := round_finish Sample.tick_three 500 1 2 stopped in
  stop_requested in_window = false
  /\ stop_requested stopped = true
  /\ fst finished
     = Ok (RoundSettled 500 [Sample.bob; Sample.alice]
             [Sample.alice; Sample.bob] [(Sample.alice, 1); (Sample.bob, 2)])
  /\ stop_requested (snd finished) = true
  /\ current_task (snd finished) = 3
  /\ count_effects
       (fun e => match e with IO (AddRoles _ _ _) true => true | _ => false end)
       (trace (snd finished))
     = 2%nat.
Proof. cbv zeta. repeat split; vm_compute; reflexivity. Qed.

(** X10.  A stop holds from the next look at the flag on.  With
    [stop_requested] set, a round that comes out of its reaction window
    returns at line 480 and leaves the bot as it is; no tick, reaction,
    stop, pause or resume unsets the flag; and every tick that starts
    returns at line 404, so over any run of these [current_task] stays and
    none of them announces, fetches, grants, sends to a member or writes
    to the sheet: they only post in the logs channel.  The events of a run
    are whole ticks and commands.  A round that is past line 478 when the
    flag is set is not stopped ([stop_after_the_recheck_is_not_seen]
    above), and neither are the role removals scheduled before. *)
Theorem X10_stop_holds (events : list event) (env : TickEnv)
    (message_id starting_task_num this_round : Z) (b : TaskBot) :
  stop_requested b = true ->
  round_rest env message_id starting_task_num this_round b
  = (Ok (Abandoned message_id), b)
  /\ stop_requested (run events b) = true
  /\ current_task (run events b) = current_task b
  /\ round_calls (trace (run events b)) = round_calls (trace b).
Proof.
  intros Hs. split; [now apply round_rest_stopped|].
  clear env message_id starting_task_num this_round.
  revert b Hs. induction events as [|e rest IH]; intros b Hs; cbn [run];
    [now repeat split|].
  destruct (stopped_step e b Hs) as [Hs' Hcalls].
  destruct (IH _ Hs') as (H1 & H2 & H3).
  split; [assumption|]. split; [|congruence].
  rewrite H2, step_advances.
  destruct e as [env | | | | ]; try lia.
  unfold settled_in_tick, tick_guard. rewrite Hs. lia.
Qed.

Lemma X10_stop_holds_sample :
  let in_window := snd (round_to_window Sample.tick_three Sample.batch) in
  let b := snd (stop_tasks (Ok tt) in_window) in
  let events :=
    [Tick Sample.tick_three; ResumeTasks (Ok tt); Tick Sample.tick_three] in
  stop_requested b = true
  /\ round_rest Sample.tick_three 500 1 2 b = (Ok (Abandoned 500), b)
  /\ stop_requested (run events b) = true
  /\ current_task (run events b) = current_task b
  /\ round_calls (trace (run events b)) = round_calls (trace b).
Proof.
  cbv zeta. split; [reflexivity|].
  apply (X10_stop_holds
           [Tick Sample.tick_three; ResumeTasks (Ok tt);
            Tick Sample.tick_three]
           Sample.tick_three 500 1 2).
  reflexivity.
Defined.

(** ** Rounds nobody claims, rounds that fail *)

Lemma round_settle_unclaimed env b mid start n s1 :
  round_settle env b = (Ok (RUnclaimed mid start n), s1) ->
  start = current_task b /\ n = tasks_this_round b /\ 0 < n.
Proof.
  intros H. unfold round_settle in H. rewrite !bind_gets in H.
  destruct (tasks_this_round b <=? 0) eqn:Hn.
  { cbn in H. discriminate. }
  apply Z.leb_gt in Hn.
  apply bind_inv in H as (channel & s2 & _ & H).
  apply bind_inv in H as (mid' & s3 & _ & H).
  apply bind_inv in H as (? & s4 & _ & H).
  apply bind_inv in H as (? & s5 & _ & H).
  apply bind_inv in H as (? & s6 & _ & H).
  apply bind_inv in H as (? & s7 & _ & H).
  rewrite bind_gets in H.
  destruct (stop_requested s7); [discriminate|].
  apply bind_inv in H as (channel' & s8 & _ & H).
  apply bind_inv in H as (message & s9 & _ & H).
  apply bind_inv in H as (reactors & s10 & _ & H).
  rewrite bind_gets in H.
  destruct (eligible_reactors _ _ reactors) as [|m l].
  - unfold ret in H. inversion H; subst. now repeat split.
  - rewrite bind_gets in H.
    apply bind_inv in H as (ws & s11 & _ & H).
    apply bind_inv in H as (? & s12 & _ & H).
    discriminate.
Qed.

Lemma io_run {A} (c : call) (answer : result A) s :
  io c answer s = (answer, set_trace (trace s ++ [IO c (is_ok answer)]) s).
Proof. unfold_m. reflexivity. Qed.

Lemma del_reaction_timestamps_trace mid s r s' :
  del_reaction_timestamps mid s = (r, s') -> trace s' = trace s.
Proof.
  unfold del_reaction_timestamps. rewrite bind_gets.
  destruct (reaction_timestamps s !! mid); unfold_m; intros H;
    now inversion H.
Qed.

Lemma tick_report_inv env b report b' :
  task_allocation_loop_impl env b = (Ok report, b') ->
  (forall e, report <> LoopFailed e) ->
  report <> StopRequested -> report <> Paused ->
  report <> NotConfigured -> report <> AllAssigned ->
  exists r s1,
    round_settle env b = (Ok r, s1)
    /\ round_close env r s1 = (Ok report, b').
Proof.
  intros H Hf H1 H2 H3 H4. unfold task_allocation_loop_impl in H.
  rewrite bind_gets in H.
  destruct (tick_guard b).
  1-4: exfalso;
    try (apply bind_inv in H as (? & ? & _ & H));
    try (apply bind_inv in H as (? & ? & _ & H));
    unfold ret in H; inversion H; subst; congruence.
  apply try_except_ok_inv in H.
  - apply bind_inv in H as (r & s1 & Hr & H). now exists r, s1.
  - intros e s1. cbn. intros E. inversion E. now apply (Hf e).
Qed.

(** X11.  When a tick reports a round nobody claimed, the notice for the
    tasks on offer was posted, the record of the round is purged, and
    [current_task] and the number of tasks of a round are as before, so
    the next tick offers the same tasks again. *)
Theorem X11_unclaimed_round_is_offered_again (env : TickEnv)
    (b b' : TaskBot) (mid : Z) :
  task_allocation_loop_impl env b = (Ok (RoundUnclaimed mid), b') ->
  current_task b' = current_task b
  /\ tasks_this_round b' = tasks_this_round b
  /\ 0 < tasks_this_round b
  /\ reaction_timestamps b' !! mid = None
  /\ exists channel,
       In (IO (Unclaimed channel (current_task b) (tasks_this_round b)) true)
          (trace b').
Proof.
  intros H.
  assert (Hkeep : forall {X} (f : TaskBot -> X),
             untouched f -> (forall n s, f (set_current_task n s) = f s) ->
             f b' = f b).
  { intros X f Hf Hc.
    pose proof (keeps_task_allocation_loop_impl f env Hf Hc b) as K.
    now rewrite H in K. }
  assert (Htpr :
            winners_per_task b' = winners_per_task b
            /\ total_tasks b' = total_tasks b).
  { split.
    - now apply (Hkeep _ winners_per_task untouched_winners_per_task).
    - now apply (Hkeep _ total_tasks untouched_total_tasks). }
  clear Hkeep. destruct Htpr as [Hw Ht].
  pose proof untouched_current_task as Hf.
  apply tick_report_inv in H as (r & s1 & Hr & Hc); try discriminate.
  destruct r as [| ? | mid' start n | mid' elig ws assigned outs];
    cbn [round_close] in Hc.
  - discriminate.
  - discriminate.
  - pose proof (keeps_run current_task _ _ _ _
                  (keeps_round_settle _ Hf env) Hr) as K1.
    apply round_settle_unclaimed in Hr as (-> & -> & Hn).
    apply bind_inv in Hc as (channel & s2 & Hch & Hc).
    apply (keeps_run current_task) in Hch;
      [|now apply keeps_the_announce_channel].
    apply bind_inv in Hc as ([] & s3 & Hio & Hc).
    pose proof (keeps_run current_task _ _ _ _ (keeps_io _ Hf _ _) Hio)
      as K3.
    apply bind_inv in Hc as ([] & s4 & Hdel & Hc).
    pose proof (keeps_run current_task _ _ _ _
                  (keeps_del_reaction_timestamps _ Hf _) Hdel) as K4.
    unfold ret in Hc. inversion Hc; subst.
    assert (Hcur : current_task b' = current_task b) by congruence.
    split; [assumption|].
    split; [unfold tasks_this_round; now rewrite Hcur, Hw, Ht|].
    split; [assumption|].
    split; [eapply del_reaction_timestamps_purges, Hdel|].
    exists channel. rewrite (del_reaction_timestamps_trace _ _ _ _ Hdel).
    rewrite io_run in Hio. inversion Hio as [[Hans Hs3]].
    rewrite Hans. cbn. apply in_or_app. right. now left.
  - exfalso.
    apply bind_inv in Hc as (? & ? & _ & Hc).
    apply bind_inv in Hc as (? & ? & _ & Hc). discriminate.
Qed.

Lemma X11_unclaimed_round_is_offered_again_sample :
  let b' := snd (task_allocation_loop_impl tick_nobody_reacts Sample.batch) in
  task_allocation_loop_impl tick_nobody_reacts Sample.batch
  = (Ok (RoundUnclaimed 500),
     snd (task_allocation_loop_impl tick_nobody_reacts Sample.batch))
  /\ current_task b' = current_task Sample.batch
  /\ tasks_this_round b' = tasks_this_round Sample.batch
  /\ 0 < tasks_this_round Sample.batch
  /\ reaction_timestamps b' !! 500 = None
  /\ exists channel,
       In (IO (Unclaimed channel (current_task Sample.batch)
                 (tasks_this_round Sample.batch)) true)
          (trace b').
Proof.
  cbv zeta.
  assert (H : task_allocation_loop_impl tick_nobody_reacts Sample.batch
              = (Ok (RoundUnclaimed 500),
                 snd (task_allocation_loop_impl tick_nobody_reacts Sample.batch)))
    by (vm_compute; reflexivity).
  split; [exact H|].
  exact (X11_unclaimed_round_is_offered_again _ _ _ _ H).
Defined.

Lemma try_except_returns {A} (m : M A) (h : exn -> M A) s :
  (forall e s1, is_ok (fst (h e s1)) = true) ->
  is_ok (fst (try_except m any_Exception h s)) = true.
Proof.
  intros Hh. unfold try_except, any_Exception.
  destruct (m s) as [[a|e] s1]; [reflexivity|apply Hh].
Qed.

(** X12.  Nothing is raised past [task_allocation_loop_impl]: whatever
    Discord and the sheet answer, a tick returns; and when its [try] body
    raised, the critical record of the exception is the last thing in the
    trace. *)
Theorem X12_tick_never_raises (env : TickEnv) (b : TaskBot) :
  is_ok (fst (task_allocation_loop_impl env b)) = true
  /\ forall e,
       fst (task_allocation_loop_impl env b) = Ok (LoopFailed e) ->
       exists t,
         trace (snd (task_allocation_loop_impl env b))
         = t ++ [Log CRITICAL (LLoopFailed e)].
Proof.
  unfold task_allocation_loop_impl. rewrite bind_gets.
  destruct (tick_guard b).
  - split; [reflexivity|discriminate].
  - split; [reflexivity|discriminate].
  - split; [reflexivity|]. cbn. discriminate.
  - unfold bind. rewrite send_log_run. cbn.
    split; [reflexivity|discriminate].
  - split; [now apply try_except_returns|].
    intros e. unfold try_except, any_Exception.
    destruct ((r <- round_settle env ;; round_close env r) b)
      as [[report|e'] s1] eqn:Hbody.
    + cbn [fst]. intros E. inversion E; subst. exfalso.
      apply bind_inv in Hbody as (r & s2 & _ & Hc).
      destruct r as [| ? | ? ? ? | ? ? ? assigned ?]; cbn [round_close] in Hc.
      * discriminate.
      * discriminate.
      * apply bind_inv in Hc as (? & ? & _ & Hc).
        apply bind_inv in Hc as (? & ? & _ & Hc).
        apply bind_inv in Hc as (? & ? & _ & Hc). discriminate.
      * apply bind_inv in Hc as (? & ? & _ & Hc).
        apply bind_inv in Hc as (? & ? & _ & Hc). discriminate.
    + unfold_m. cbn. intros E. inversion E; subst. now eexists.
Qed.

Lemma X12_tick_never_raises_sample :
  exists t,
    trace (snd (task_allocation_loop_impl (Sample.tick_fetch_fails 500)
                  Sample.batch))
    = t ++ [Log CRITICAL (LLoopFailed HTTPException)].
Proof.
  apply (proj2 (X12_tick_never_raises (Sample.tick_fetch_fails 500)
                  Sample.batch)).
  vm_compute. reflexivity.
Defined.

(** ** A finished batch *)

Lemma finished_tick env s :
  total_tasks s < current_task s ->
  round_calls (trace (snd (task_allocation_loop_impl env s)))
  = round_calls (trace s)
  /\ settled_in_tick env s = 0.
Proof.
  intros H. apply Z.ltb_lt in H.
  unfold task_allocation_loop_impl, settled_in_tick. rewrite bind_gets.
  unfold tick_guard. rewrite H.
  destruct (stop_requested s); [now split|].
  destruct (is_paused s); [now split|].
  destruct (negb (configured s) || _).
  - cbn. rewrite round_calls_app. cbn.
    split; [apply app_nil_r|reflexivity].
  - unfold bind. rewrite send_log_run. cbn.
    rewrite !round_calls_app, round_calls_send_log. cbn.
    rewrite !app_nil_r. split; reflexivity.
Qed.

Lemma finished_step e s :
  total_tasks s < current_task s ->
  total_tasks (step e s) < current_task (step e s)
  /\ current_task (step e s) = current_task s
  /\ round_calls (trace (step e s)) = round_calls (trace s).
Proof.
  intros H.
  assert (Ht : total_tasks (step e s) = total_tasks s)
    by (apply keeps_step_of_run; [apply untouched_total_tasks|reflexivity]).
  assert (Hc : current_task (step e s) = current_task s
               /\ round_calls (trace (step e s)) = round_calls (trace s)).
  { rewrite step_advances.
    destruct e as [env | ev now | a | a | a]; cbn [step].
    - destruct (finished_tick env s H) as [Hcalls ->]. split; [lia|assumption].
    - destruct (on_reaction_add_trace ev now s) as [-> _]. split; [lia|easy].
    - destruct (stop_tasks_run a s) as (d & -> & Hd). cbn.
      rewrite round_calls_app, Hd, app_nil_r. split; [lia|easy].
    - destruct (pause_tasks_run a s) as (d & -> & Hd). cbn.
      rewrite round_calls_app, Hd, app_nil_r. split; [lia|easy].
    - destruct (resume_tasks_run a s) as (d & -> & Hd). cbn.
      rewrite round_calls_app, Hd, app_nil_r. split; [lia|easy]. }
  destruct Hc as [Hc Hcalls]. split; [lia|]. now split.
Qed.

(** X13.  A finished batch opens no round: once [current_task] is past
    [total_tasks], whatever ticks, reactions and commands other than
    [create_task] follow, [current_task] stays and nothing is announced,
    granted, sent to a member or written to the sheet. *)
Theorem X13_finished_batch_opens_no_round (events : list event)
    (b : TaskBot) :
  total_tasks b < current_task b ->
  current_task (run events b) = current_task b
  /\ round_calls (trace (run events b)) = round_calls (trace b).
Proof.
  revert b. induction events as [|e rest IH]; intros b H; cbn [run];
    [now split|].
  destruct (finished_step e b H) as (H' & Hc & Hcalls).
  destruct (IH _ H') as [IH1 IH2]. split; congruence.
Qed.

Lemma X13_finished_batch_opens_no_round_sample :
  total_tasks (run [Tick Sample.tick_three; Tick Sample.tick_three]
                 Sample.batch)
  < current_task (run [Tick Sample.tick_three; Tick Sample.tick_three]
                    Sample.batch)
  /\ let b :=
       run [Tick Sample.tick_three; Tick Sample.tick_three] Sample.batch in
     let events := [Tick Sample.tick_three; Tick Sample.tick_missed_event] in
     current_task (run events b) = current_task b
     /\ round_calls (trace (run events b)) = round_calls (trace b).
Proof.
  split; [vm_compute; reflexivity|].
  apply (X13_finished_batch_opens_no_round
           [Tick Sample.tick_three; Tick Sample.tick_missed_event]).
  vm_compute. reflexivity.
Defined.

(** ** The trace is written, never read *)

Lemma oblivious_ret {A} (a : A) : oblivious (ret a).
Proof.
  intros s. exists []. cbn. split; [now rewrite app_nil_r|].
  intros t. unfold ret. now rewrite app_nil_r.
Qed.

Lemma oblivious_raise {A} (e : exn) : oblivious (@raise A e).
Proof.
  intros s. exists []. cbn. split; [now rewrite app_nil_r|].
  intros t. unfold raise. now rewrite app_nil_r.
Qed.

Lemma oblivious_lift {A} (r : result A) : oblivious (lift r).
Proof.
  intros s. exists []. cbn. split; [now rewrite app_nil_r|].
  intros t. unfold lift. now rewrite app_nil_r.
Qed.

Lemma oblivious_gets {A} (f : TaskBot -> A) :
  (forall t s, f (set_trace t s) = f s) -> oblivious (gets f).
Proof.
  intros Hf s. exists []. cbn. split; [now rewrite app_nil_r|].
  intros t. unfold gets. now rewrite Hf, app_nil_r.
Qed.

Lemma oblivious_modify (g : TaskBot -> TaskBot) :
  (forall s, trace (g s) = trace s) ->
  (forall t s, g (set_trace t s) = set_trace t (g s)) ->
  oblivious (modify g).
Proof.
  intros H1 H2 s. exists []. cbn. split; [now rewrite app_nil_r, H1|].
  intros t. unfold modify. now rewrite H2, app_nil_r.
Qed.

Lemma oblivious_emit (e : effect) : oblivious (emit e).
Proof. intros s. exists [e]. now split. Qed.

Lemma oblivious_bind {A B} (m : M A) (k : A -> M B) :
  oblivious m -> (forall a, oblivious (k a)) -> oblivious (bind m k).
Proof.
  intros Hm Hk s. destruct (Hm s) as (d1 & Ht1 & Hm1). unfold bind.
  destruct (m s) as [[a|e] s1] eqn:Hms; cbn [fst snd] in *.
  - destruct (Hk a s1) as (d2 & Ht2 & Hk2).
    exists (d1 ++ d2). split; [now rewrite Ht2, Ht1, app_assoc|].
    intros t. rewrite Hm1.
    replace (set_trace (t ++ d1) s1) with (set_trace (t ++ d1) s1)
      by reflexivity.
    rewrite Hk2. now rewrite app_assoc.
  - exists d1. split; [assumption|]. intros t. now rewrite Hm1.
Qed.

Lemma oblivious_try_except {A} (m : M A) c (h : exn -> M A) :
  oblivious m -> (forall e, oblivious (h e)) -> oblivious (try_except m c h).
Proof.
  intros Hm Hh s. destruct (Hm s) as (d1 & Ht1 & Hm1). unfold try_except.
  destruct (m s) as [[a|e] s1] eqn:Hms; cbn [fst snd] in *.
  - exists d1. split; [assumption|]. intros t. now rewrite Hm1.
  - destruct (c e) eqn:Hc; cbv iota.
    + destruct (Hh e s1) as (d2 & Ht2 & Hh2).
      exists (d1 ++ d2). split; [now rewrite Ht2, Ht1, app_assoc|].
      intros t. rewrite Hm1, Hc, Hh2. now rewrite app_assoc.
    + exists d1. split; [assumption|]. intros t. now rewrite Hm1, Hc.
Qed.

Lemma oblivious_io {A} (c : call) (answer : result A) :
  oblivious (io c answer).
Proof.
  apply oblivious_bind; [apply oblivious_emit|intros; apply oblivious_lift].
Qed.

Lemma oblivious_log l m : oblivious (log l m).
Proof. apply oblivious_emit. Qed.

Lemma on_reaction_add_set_trace ev now t s :
  on_reaction_add ev now (set_trace t s)
  = set_trace t (on_reaction_add ev now s).
Proof.
  unfold on_reaction_add. destruct (user_bot (ev_user ev)); [reflexivity|].
  cbn [reaction_timestamps set_trace].
  destruct (reaction_timestamps s !! ev_message_id ev) as [stamps|];
    [|reflexivity].
  now destruct (stamps !! user_id (ev_user ev)).
Qed.

(** One step of a proof that a coroutine does not read the trace. *)
Ltac oblivious_step :=
  first
    [ apply oblivious_ret | apply oblivious_raise | apply oblivious_lift
    | apply oblivious_emit | apply oblivious_log | apply oblivious_io
    | apply oblivious_gets; reflexivity
    | apply oblivious_modify; reflexivity
    | apply oblivious_bind; [|intro]
    | apply oblivious_try_except; [|intro]
    | match goal with
      | |- oblivious (match ?x with _ => _ end) => destruct x
      end ].

Lemma oblivious_send_log answer text : oblivious (send_log answer text).
Proof. unfold send_log. repeat oblivious_step. Qed.

Lemma oblivious_dm_winner env w n : oblivious (dm_winner env w n).
Proof.
  unfold dm_winner. repeat (oblivious_step || apply oblivious_send_log).
Qed.

Lemma oblivious_sheet_loop sheet n name attempts :
  oblivious (sheet_loop sheet n name attempts).
Proof.
  induction attempts as [|a rest IH]; cbn [sheet_loop].
  - apply oblivious_ret.
  - unfold sheet_try. repeat (oblivious_step || apply IH).
Qed.

Lemma oblivious_write_to_sheet sheet n name :
  oblivious (write_to_sheet sheet n name).
Proof.
  unfold write_to_sheet. repeat (oblivious_step || apply oblivious_sheet_loop).
Qed.

Lemma oblivious_get_member_safely guild uid :
  oblivious (get_member_safely guild uid).
Proof. unfold get_member_safely. repeat oblivious_step. Qed.

Lemma oblivious_get_or_create_role guild name create :
  oblivious (get_or_create_role guild name create).
Proof. unfold get_or_create_role. repeat oblivious_step. Qed.

Lemma oblivious_collect_users guild users :
  forall reactors, oblivious (collect_users guild users reactors).
Proof.
  induction users as [|u rest IH]; intros reactors; cbn [collect_users].
  - apply oblivious_ret.
  - repeat (oblivious_step || apply IH || apply oblivious_get_member_safely).
Qed.

Lemma oblivious_collect_reactions guild reactions :
  forall reactors, oblivious (collect_reactions guild reactions reactors).
Proof.
  induction reactions as [|r rest IH]; intros reactors;
    cbn [collect_reactions].
  - apply oblivious_ret.
  - repeat (oblivious_step || apply IH || apply oblivious_collect_users).
Qed.

Lemma oblivious_process_winner env guild start i w :
  oblivious (process_winner env guild start i w).
Proof.
  unfold process_winner.
  repeat (oblivious_step || apply oblivious_get_or_create_role
          || apply oblivious_dm_winner || apply oblivious_write_to_sheet).
Qed.

Lemma oblivious_settle_loop envs guild start winners :
  forall i acc outs,
    oblivious (settle_loop envs guild start i winners acc outs).
Proof.
  induction winners as [|w rest IH]; intros i acc outs; cbn [settle_loop].
  - apply oblivious_ret.
  - repeat (oblivious_step || apply IH || apply oblivious_process_winner).
Qed.

Lemma oblivious_loop_stop : oblivious loop_stop.
Proof. unfold loop_stop. repeat oblivious_step. Qed.

Lemma oblivious_stop_tasks a : oblivious (stop_tasks a).
Proof.
  unfold stop_tasks.
  repeat (oblivious_step || apply oblivious_loop_stop
          || apply oblivious_send_log).
Qed.

Lemma oblivious_pause_tasks a : oblivious (pause_tasks a).
Proof. unfold pause_tasks. repeat (oblivious_step || apply oblivious_send_log). Qed.

Lemma oblivious_resume_tasks a : oblivious (resume_tasks a).
Proof. unfold resume_tasks. repeat (oblivious_step || apply oblivious_send_log). Qed.

Lemma oblivious_window a events : oblivious (window a events).
Proof.
  induction events as [|w rest IH]; cbn [window].
  - apply oblivious_ret.
  - unfold window_step.
    repeat (oblivious_step || apply IH || apply oblivious_stop_tasks
            || apply oblivious_pause_tasks || apply oblivious_resume_tasks
            || (apply oblivious_modify;
                [intro; apply on_reaction_add_trace
                |intros; apply on_reaction_add_set_trace])).
Qed.

Lemma oblivious_ping env c : oblivious (ping env c).
Proof. unfold ping. repeat (oblivious_step || apply oblivious_send_log). Qed.

Lemma oblivious_round_settle env : oblivious (round_settle env).
Proof.
  unfold round_settle, the_announce_channel, collect_reactors.
  repeat (oblivious_step || apply oblivious_loop_stop || apply oblivious_ping
          || apply oblivious_window || apply oblivious_collect_reactions
          || apply oblivious_settle_loop).
Qed.

Lemma oblivious_round_close env r : oblivious (round_close env r).
Proof.
  unfold round_close, the_announce_channel, del_reaction_timestamps.
  repeat oblivious_step.
Qed.

Lemma oblivious_task_allocation_loop_impl env :
  oblivious (task_allocation_loop_impl env).
Proof.
  unfold task_allocation_loop_impl.
  repeat (apply oblivious_send_log || apply oblivious_loop_stop
          || apply oblivious_round_settle || apply oblivious_round_close
          || oblivious_step).
Qed.

(** X14.  Pausing and then resuming a bot that was not paused restores
    every field of it and only adds posts in the logs channel to the
    trace; and since the cycle never reads the trace, the next tick ends
    the same way, leaves the same bot and makes the same calls as if there
    had been no pause. *)
Theorem X14_pause_then_resume_changes_nothing (a1 a2 : result unit)
    (env : TickEnv) (b : TaskBot) :
  is_paused b = false ->
  let resumed := snd (resume_tasks a2 (snd (pause_tasks a1 b))) in
  exists posts d,
    round_calls posts = []
    /\ resumed = set_trace (trace b ++ posts) b
    /\ trace (snd (task_allocation_loop_impl env b)) = trace b ++ d
    /\ task_allocation_loop_impl env resumed
       = (fst (task_allocation_loop_impl env b),
          set_trace (trace b ++ posts ++ d)
            (snd (task_allocation_loop_impl env b))).
Proof.
  intros Hp resumed. subst resumed.
  destruct (pause_tasks_run a1 b) as (d1 & -> & Hd1).
  destruct (resume_tasks_run a2 (set_trace (trace b ++ d1)
                                   (set_is_paused true b)))
    as (d2 & -> & Hd2).
  destruct (oblivious_task_allocation_loop_impl env b) as (d & Htr & Hobl).
  exists (d1 ++ d2), d.
  assert (E : set_trace
                (trace (set_trace (trace b ++ d1) (set_is_paused true b))
                   ++ d2)
                (set_is_paused false
                   (set_trace (trace b ++ d1) (set_is_paused true b)))
              = set_trace (trace b ++ d1 ++ d2) b).
  { cbn [trace set_trace]. rewrite <- app_assoc.
    destruct b; cbn in *; subst; reflexivity. }
  rewrite E. split; [rewrite round_calls_app, Hd1, Hd2; reflexivity|].
  split; [reflexivity|]. split; [assumption|].
  rewrite Hobl. now rewrite <- !app_assoc.
Qed.

Lemma X14_pause_then_resume_changes_nothing_sample :
  is_paused Sample.batch = false
  /\ let resumed :=
       snd (resume_tasks (Ok tt) (snd (pause_tasks (Ok tt) Sample.batch))) in
     exists posts d,
       round_calls posts = []
       /\ resumed = set_trace (trace Sample.batch ++ posts) Sample.batch
       /\ trace (snd (task_allocation_loop_impl Sample.tick_three
                        Sample.batch))
          = trace Sample.batch ++ d
       /\ task_allocation_loop_impl Sample.tick_three resumed
          = (fst (task_allocation_loop_impl Sample.tick_three Sample.batch),
             set_trace (trace Sample.batch ++ posts ++ d)
               (snd (task_allocation_loop_impl Sample.tick_three
                       Sample.batch))).
Proof.
  split; [reflexivity|].
  apply (X14_pause_then_resume_changes_nothing (Ok tt) (Ok tt)
           Sample.tick_three Sample.batch).
  reflexivity.
Defined.

(** ** Which winners are settled *)

Lemma dm_winner_returns env w n s :
  is_ok (fst (dm_winner env w n s)) = dm_returns env (announce_channel s).
Proof.
  unfold dm_winner, dm_returns. unfold_m.
  destruct (dm_send env) as [[]|e].
  - now rewrite send_log_run.
  - destruct (is_HTTPException e) eqn:He; [|reflexivity].
    cbn [trace set_trace announce_channel andb].
    destruct (announce_channel s) as [c|].
    + destruct (dm_fallback_send env) as [[]|e'].
      * now rewrite send_log_run.
      * reflexivity.
    + now rewrite send_log_run.
Qed.

Lemma get_or_create_role_returns g name create s :
  is_ok (fst (get_or_create_role g name create s)) = role_obtained g name create.
Proof.
  unfold get_or_create_role, role_obtained.
  destruct (utils_get (guild_roles g) name); [reflexivity|].
  unfold_m. now destruct create.
Qed.

Lemma process_winner_settles env g start i w s :
  is_ok (fst (process_winner env (Some g) start i w s))
  = settles env g (TASK_ROLE_NAME s) (announce_channel s).
Proof.
  unfold process_winner, settles. rewrite bind_gets.
  rewrite <- (get_or_create_role_returns g (TASK_ROLE_NAME s) _ s).
  unfold bind at 1.
  pose proof (keeps_get_or_create_role announce_channel
                untouched_announce_channel g (TASK_ROLE_NAME s)
                (se_create_role env) s) as K1.
  destruct (get_or_create_role g (TASK_ROLE_NAME s) (se_create_role env) s)
    as [[role|e] s1]; [|reflexivity].
  cbn [fst snd is_ok andb] in *.
  unfold bind at 1. unfold io at 1. unfold bind at 1, emit at 1, lift at 1.
  destruct (se_add_roles env) as [[]|e]; [|reflexivity].
  cbn [fst snd is_ok andb].
  unfold bind at 1. unfold modify. cbv beta iota. unfold bind at 1.
  match goal with
  | |- context [dm_winner ?e ?m ?n ?st] =>
      pose proof (dm_winner_returns e m n st) as K2;
      destruct (dm_winner e m n st) as [[sent|e'] s2]
  end; cbn [fst snd is_ok announce_channel set_role_removal_tasks set_trace]
         in K2; rewrite K1 in K2; rewrite <- K2; [|reflexivity].
  unfold bind at 1.
  match goal with
  | |- context [write_to_sheet ?sh ?n ?nm ?st] =>
      pose proof (write_to_sheet_returns sh n nm st) as K3;
      destruct (write_to_sheet sh n nm st) as [r s3]
  end.
  cbn [fst] in K3. subst r. reflexivity.
Qed.

(** The loop appends exactly the winners whose calls let the settlement
    through, each with the number of its index. *)
Lemma settle_loop_kept envs g start winners :
  forall i acc outs s assigned outcomes s',
    settle_loop envs (Some g) start i winners acc outs s
    = (Ok (assigned, outcomes), s') ->
    let flags :=
      map (fun k => settles (envs k) g (TASK_ROLE_NAME s) (announce_channel s))
        (seq i (length winners)) in
    map is_ok outcomes = map is_ok outs ++ flags
    /\ assigned
       = acc ++ kept (combine winners
                        (map (fun k => start + Z.of_nat k)
                           (seq i (length winners)))) flags.
Proof.
  induction winners as [|w rest IH];
    intros i acc outs s assigned outcomes s' H; cbn [settle_loop] in H.
  - inversion H; subst. cbn. now rewrite !app_nil_r.
  - apply bind_inv in H as ([acc1 outs1] & s1 & Hstep & H).
    apply IH in H as [Houts ->]. cbn [fst snd] in *.
    assert (Hk : forall X (f : TaskBot -> X), untouched f -> f s1 = f s).
    { intros X f Hf.
      pose proof (keeps_settle_loop f Hf envs (Some g) start [w] i acc outs s)
        as K.
      cbn [settle_loop] in K. unfold bind at 1 in K. rewrite Hstep in K.
      exact K. }
    pose proof (Hk _ _ untouched_TASK_ROLE_NAME) as Hname.
    pose proof (Hk _ _ untouched_announce_channel) as Hchan.
    rewrite Hname, Hchan in *.
    pose proof (process_winner_settles (envs i) g start i w s) as Hflag.
    unfold try_except, any_Exception in Hstep.
    unfold bind at 1 in Hstep.
    destruct (process_winner (envs i) (Some g) start i w s)
      as [[r|e] s0] eqn:Hp; cbn [fst is_ok] in Hflag.
    + apply process_winner_appends in Hp. subst r.
      inversion Hstep; subst.
      cbn [length seq map combine kept]. rewrite <- Hflag.
      rewrite Houts, List.map_app, <- !app_assoc. now split.
    + unfold_m. cbn in Hstep. inversion Hstep; subst.
      cbn [length seq map combine kept]. rewrite <- Hflag.
      rewrite Houts, List.map_app, <- !app_assoc. now split.
Qed.

(** X15.  Which winners of a round are settled is decided by three calls
    alone: a winner's [try] body ends without an exception exactly when the
    role is found or created, [add_roles] succeeds and [dm_winner] returns;
    [assigned] lists those winners, in order, each under the task number of
    its place among all the winners. *)
Theorem X15_who_is_settled (env : TickEnv) (b b' : TaskBot) (mid : Z)
    (elig winners : list Member) (assigned : list (Member * Z))
    (outcomes : list (result unit)) :
  round_settle env b
  = (Ok (RSettled mid elig winners assigned outcomes), b') ->
  exists message g,
    env_fetch_message env = Ok message
    /\ message_guild message = Some g
    /\ let flags :=
         map (fun i => settles (env_settle env i) g (TASK_ROLE_NAME b)
                         (announce_channel b))
           (seq 0 (length winners)) in
       map is_ok outcomes = flags
       /\ assigned = kept (numbered (current_task b) winners) flags.
Proof.
  intros H.
  destruct (round_settle_resolved _ _ _ _ _ _ _ _ H)
    as (message & reactors & stamps & s1 & s2 & s3
        & Hfetch & Hcollect & Helig & Hsel & Hn & Hloop & Hkeep).
  destruct (message_guild message) as [g|] eqn:Hg.
  - exists message, g. split; [assumption|]. split; [assumption|].
    apply settle_loop_kept in Hloop as [Houts Hacc].
    rewrite (Hkeep _ TASK_ROLE_NAME untouched_TASK_ROLE_NAME),
      (Hkeep _ announce_channel untouched_announce_channel) in *.
    cbv zeta. split; [exact Houts|exact Hacc].
  - exfalso. unfold collect_reactors in Hcollect. rewrite Hg in Hcollect.
    apply collect_reactions_no_guild in Hcollect. subst reactors.
    apply round_settle_settled in H as (_ & ? & ? & ? & _ & _ & Hne & _).
    apply Hne. subst elig. reflexivity.
Qed.

Lemma X15_who_is_settled_sample :
  round_settle Sample.tick_first_winner_fails Sample.batch
  = (Ok (RSettled 500 [Sample.alice; Sample.bob] [Sample.alice; Sample.bob]
           [(Sample.bob, 2)] [Raise HTTPException; Ok tt]),
     snd (round_settle Sample.tick_first_winner_fails Sample.batch))
  /\ exists message g,
       env_fetch_message Sample.tick_first_winner_fails = Ok message
       /\ message_guild message = Some g
       /\ let flags :=
            map (fun i =>
                   settles (env_settle Sample.tick_first_winner_fails i) g
                     (TASK_ROLE_NAME Sample.batch)
                     (announce_channel Sample.batch))
              (seq 0 (length [Sample.alice; Sample.bob])) in
          map is_ok [Raise HTTPException; Ok tt] = flags
          /\ [(Sample.bob, 2)]
             = kept (numbered (current_task Sample.batch)
                       [Sample.alice; Sample.bob]) flags.
Proof.
  assert (H : round_settle Sample.tick_first_winner_fails Sample.batch
              = (Ok (RSettled 500 [Sample.alice; Sample.bob] [Sample.alice; Sample.bob]
                       [(Sample.bob, 2)] [Raise HTTPException; Ok tt]),
                 snd (round_settle Sample.tick_first_winner_fails Sample.batch)))
    by (vm_compute; reflexivity).
  split; [exact H|].
  exact (X15_who_is_settled _ _ _ _ _ _ _ _ H).
Defined.

(** ** What [write_to_sheet] writes *)

Lemma count_effects_app p l1 l2 :
  count_effects p (l1 ++ l2) = (count_effects p l1 + count_effects p l2)%nat.
Proof. unfold count_effects. now rewrite List.filter_app, length_app. Qed.

Lemma last_app_nonempty {A} (l1 l2 : list A) x :
  last l2 = Some x -> last (l1 ++ l2) = Some x.
Proof. intros H. rewrite last_app. now rewrite H. Qed.

Section LedgerCells.
Variables (sheet : Z -> sheet_attempt) (n : Z) (name : string).

Lemma sheet_loop_trace_opens sheet_id attempts id ok :
  In (IO (OpenSheet id) ok) (sheet_loop_trace sheet_id sheet n name attempts) ->
  sheet_id = Some id.
Proof.
  induction attempts as [|a rest IH]; cbn [sheet_loop_trace]; [intros []|].
  unfold sheet_try_trace. destruct sheet_id as [id'|].
  - destruct (sheet a) as [e|rows [[]|e]];
      [|destruct (rows <? n + 1)..]; destruct (a <? 2); cbn;
      intros H;
      repeat (destruct H as [H|H];
              [first [discriminate | now inversion H]|]);
      first [now apply IH | destruct H].
  - cbn. intros [H|[]]. discriminate.
Qed.

Lemma sheet_loop_trace_cells sheet_id attempts row col value ok :
  In (IO (UpdateCell row col value) ok)
     (sheet_loop_trace sheet_id sheet n name attempts) ->
  row = n + 1 /\ col = 4 /\ value = name
  /\ exists a rows update,
       In a attempts /\ sheet a = Opened rows update
       /\ n + 1 <= rows /\ ok = is_ok update.
Proof.
  induction attempts as [|a rest IH]; cbn [sheet_loop_trace]; [intros []|].
  assert (Hrest :
            In (IO (UpdateCell row col value) ok)
              (sheet_loop_trace sheet_id sheet n name rest) ->
            row = n + 1 /\ col = 4 /\ value = name
            /\ exists a0 rows update,
                 In a0 (a :: rest) /\ sheet a0 = Opened rows update
                 /\ n + 1 <= rows /\ ok = is_ok update).
  { intros H. apply IH in H as (? & ? & ? & a0 & rows & update & ? & ?).
    repeat split; try assumption. exists a0, rows, update.
    split; [now right|assumption]. }
  unfold sheet_try_trace. destruct sheet_id as [id'|].
  - destruct (sheet a) as [e|rows [[]|e]] eqn:Ha;
      [|destruct (rows <? n + 1) eqn:Hr..]; destruct (a <? 2); cbn;
      intros H;
      repeat (destruct H as [H|H];
              [first [ discriminate
                     | inversion H; subst; repeat split;
                       eexists a, rows, _;
                       (split; [now left|]); (split; [eassumption|]);
                       split; [apply Z.ltb_ge in Hr; lia|reflexivity] ]|]);
      first [now apply Hrest | destruct H].
  - cbn. intros [H|[]]. discriminate.
Qed.

Lemma sheet_loop_trace_written id attempts :
  let d := sheet_loop_trace (Some id) sheet n name attempts in
  count_effects is_cell_written d
  = (if writes_cell sheet n attempts then 1 else 0)%nat
  /\ ((0 < count_effects is_cell_written d)%nat ->
      last d = Some (IO (UpdateCell (n + 1) 4 name) true)).
Proof.
  cbv zeta. unfold writes_cell.
  induction attempts as [|a rest [IHc IHl]];
    cbn [sheet_loop_trace first_returning]; [cbn; split; [reflexivity|lia]|].
  unfold sheet_try_trace, attempt_raises.
  destruct (sheet a) as [e|rows [[]|e]] eqn:Ha;
    [|destruct (rows <? n + 1) eqn:Hr..]; cbn [negb andb is_ok].
  - rewrite count_effects_app. destruct (a <? 2);
      (split; [exact IHc|]); cbn [count_effects List.filter is_cell_written
                                    length Nat.add];
      intros H; apply last_app_nonempty; rewrite !last_cons;
      now rewrite (IHl H).
  - cbn. rewrite Hr. cbn. split; [reflexivity|lia].
  - cbn. rewrite Hr. cbn. split; [reflexivity|reflexivity].
  - cbn. rewrite Hr. cbn. split; [reflexivity|lia].
  - rewrite count_effects_app. destruct (a <? 2);
      (split; [exact IHc|]); cbn [count_effects List.filter is_cell_written
                                    length Nat.add];
      intros H; apply last_app_nonempty; rewrite !last_cons;
      now rewrite (IHl H).
Qed.

End LedgerCells.

(** X16.  [write_to_sheet] touches one cell only: the sheet it opens is the
    one whose id the configured address carries, and that only with a
    client; every cell update, failed or not, puts the name of the winner in
    column 4 of row [task_number + 1], and is made after a pass that found
    the sheet to have that row. *)
Theorem X16_write_to_sheet_target
    (sheet : Z -> sheet_attempt) (n : Z) (name : string) (b : TaskBot) :
  exists d : list effect,
    write_to_sheet sheet n name b = (Ok tt, set_trace (trace b ++ d) b)
    /\ (forall id ok,
          In (IO (OpenSheet id) ok) d ->
          gc b = true /\ extract_sheet_id (sheet_url b) = Some id)
    /\ (forall row col value ok,
          In (IO (UpdateCell row col value) ok) d ->
          row = n + 1 /\ col = 4 /\ value = name
          /\ exists a rows update,
               0 <= a <= 2 /\ sheet a = Opened rows update
               /\ n + 1 <= rows /\ ok = is_ok update).
Proof.
  unfold write_to_sheet. unfold bind at 1 2, gets.
  destruct (negb (gc b) || String.eqb (sheet_url b) EmptyString) eqn:Hcfg.
  { exists [Log WARNING LSheetsNotConfigured]. unfold_m.
    split; [reflexivity|].
    split; intros; cbn in *; intuition discriminate. }
  apply orb_false_iff in Hcfg as [Hgc _]. apply negb_false_iff in Hgc.
  rewrite sheet_loop_run. eexists; split; [reflexivity|]. split.
  - intros id ok H. apply sheet_loop_trace_opens in H. now split.
  - intros row col value ok H.
    apply sheet_loop_trace_cells in H
      as (? & ? & ? & a & rows & update & Ha & ?).
    repeat split; try assumption. exists a, rows, update.
    split; [|assumption]. cbn in Ha. lia.
Qed.

Lemma X16_write_to_sheet_target_sample :
  exists d : list effect,
    write_to_sheet (fun _ => Opened 1000 (Ok tt)) 2 "bob"%string Sample.batch
    = (Ok tt, set_trace (trace Sample.batch ++ d) Sample.batch)
    /\ forall row col value ok,
         In (IO (UpdateCell row col value) ok) d ->
         row = 3 /\ col = 4 /\ value = "bob"%string.
Proof.
  destruct (X16_write_to_sheet_target (fun _ => Opened 1000 (Ok tt)) 2
              "bob"%string Sample.batch) as (d & Hrun & _ & Hcell).
  exists d. split; [exact Hrun|].
  intros row col value ok H.
  destruct (Hcell row col value ok H) as (? & ? & ? & _). now repeat split.
Defined.

(** X17.  The name is written at most once: a successful cell update is the
    last thing [write_to_sheet] does, and with a client and an address that
    carries an id it happens exactly when the first pass that does not raise
    finds the row within the sheet. *)
Theorem X17_write_to_sheet_writes_once
    (sheet : Z -> sheet_attempt) (n : Z) (name : string) (b : TaskBot) :
  exists d : list effect,
    write_to_sheet sheet n name b = (Ok tt, set_trace (trace b ++ d) b)
    /\ (count_effects is_cell_written d <= 1)%nat
    /\ ((0 < count_effects is_cell_written d)%nat ->
        last d = Some (IO (UpdateCell (n + 1) 4 name) true))
    /\ (gc b = true -> extract_sheet_id (sheet_url b) <> None ->
        count_effects is_cell_written d
        = if writes_cell sheet n [0; 1; 2] then 1%nat else 0%nat).
Proof.
  unfold write_to_sheet. unfold bind at 1 2, gets.
  destruct (negb (gc b) || String.eqb (sheet_url b) EmptyString) eqn:Hcfg.
  { exists [Log WARNING LSheetsNotConfigured]. unfold_m.
    split; [reflexivity|]. cbn. split; [lia|]. split; [lia|].
    intros Hgc Hid. exfalso. rewrite Hgc in Hcfg. cbn in Hcfg.
    apply String.eqb_eq in Hcfg. rewrite Hcfg in Hid. now apply Hid. }
  rewrite sheet_loop_run. eexists; split; [reflexivity|].
  destruct (extract_sheet_id (sheet_url b)) as [id|].
  - destruct (sheet_loop_trace_written sheet n name id [0; 1; 2]) as [Hc Hl].
    split; [rewrite Hc; destruct (writes_cell _ _ _); lia|].
    split; [exact Hl|]. intros _ _. exact Hc.
  - cbn. split; [lia|]. split; [lia|]. intros _ Hid. now exfalso.
Qed.

Lemma X17_write_to_sheet_writes_once_sample :
  exists d : list effect,
    write_to_sheet
      (fun a => if a =? 0 then OpenFails HTTPException
                else Opened 1000 (Ok tt))
      2 "bob"%string Sample.batch
    = (Ok tt, set_trace (trace Sample.batch ++ d) Sample.batch)
    /\ count_effects is_cell_written d = 1%nat
    /\ last d = Some (IO (UpdateCell 3 4 "bob"%string) true).
Proof.
  destruct (X17_write_to_sheet_writes_once
              (fun a => if a =? 0 then OpenFails HTTPException
                        else Opened 1000 (Ok tt))
              2 "bob"%string Sample.batch) as (d & Hrun & _ & Hlast & Hcount).
  exists d. split; [exact Hrun|].
  assert (Hc : count_effects is_cell_written d = 1%nat).
  { apply Hcount; [reflexivity|]. vm_compute. discriminate. }
  split; [exact Hc|]. apply Hlast. rewrite Hc. lia.
Defined.

(** ** The stamps of the reaction window *)

Lemma on_reaction_add_tracked ev now b mid :
  tracked (on_reaction_add ev now b) mid = tracked b mid.
Proof.
  unfold on_reaction_add, tracked.
  destruct (user_bot (ev_user ev)); [reflexivity|].
  destruct (reaction_timestamps b !! ev_message_id ev) as [stamps|] eqn:Hm;
    [|reflexivity].
  destruct (stamps !! user_id (ev_user ev)); [reflexivity|].
  cbn [reaction_timestamps set_reaction_timestamps].
  destruct (decide (ev_message_id ev = mid)) as [<-|Hne].
  - now rewrite lookup_insert_eq, Hm.
  - now rewrite lookup_insert_ne.
Qed.

Lemma on_reaction_add_stamp ev now b mid uid :
  stamp_of (on_reaction_add ev now b) mid uid
  = match stamp_of b mid uid with
    | Some t => Some t
    | None =>
        if tracked b mid then first_reaction mid uid [WReaction ev now]
        else None
    end.
Proof.
  unfold on_reaction_add, stamp_of, tracked. cbn [first_reaction].
  destruct (user_bot (ev_user ev)); cbn [negb andb].
  { destruct (reaction_timestamps b !! mid) as [stamps|]; [|reflexivity].
    now destruct (stamps !! uid). }
  destruct (Z.eqb_spec (ev_message_id ev) mid) as [->|Hne]; cbn [andb].
  - destruct (reaction_timestamps b !! mid) as [stamps|] eqn:Hm;
      [|now rewrite Hm].
    destruct (Z.eqb_spec (user_id (ev_user ev)) uid) as [->|Hu].
    + destruct (stamps !! uid) eqn:Hs; [now rewrite Hm, Hs|].
      cbn [reaction_timestamps set_reaction_timestamps].
      now rewrite !lookup_insert_eq.
    + destruct (stamps !! user_id (ev_user ev)) eqn:Hs.
      * rewrite Hm. now destruct (stamps !! uid).
      * cbn [reaction_timestamps set_reaction_timestamps].
        rewrite lookup_insert_eq, lookup_insert_ne by assumption.
        now destruct (stamps !! uid).
  - assert (Hsame :
              reaction_timestamps
                match reaction_timestamps b !! ev_message_id ev with
                | Some stamps =>
                    match stamps !! user_id (ev_user ev) with
                    | Some _ => b
                    | None =>
                        set_reaction_timestamps
                          (<[ev_message_id ev :=
                               <[user_id (ev_user ev) := now]> stamps]>
                             (reaction_timestamps b)) b
                    end
                | None => b
                end !! mid
              = reaction_timestamps b !! mid).
    { destruct (reaction_timestamps b !! ev_message_id ev) as [stamps|];
        [|reflexivity].
      destruct (stamps !! user_id (ev_user ev)); [reflexivity|].
      cbn [reaction_timestamps set_reaction_timestamps].
      now rewrite lookup_insert_ne. }
    rewrite Hsame.
    destruct (reaction_timestamps b !! mid) as [stamps|]; [|reflexivity].
    now destruct (stamps !! uid).
Qed.

(** The commands that may arrive during the window return and leave the
    reaction map alone. *)
Lemma window_step_run a w s :
  exists s',
    window_step a w s = (Ok tt, s')
    /\ reaction_timestamps s'
       = match w with
         | WReaction ev now => reaction_timestamps (on_reaction_add ev now s)
         | _ => reaction_timestamps s
         end.
Proof.
  destruct w as [ev now| | |]; cbn [window_step].
  - eexists. split; reflexivity.
  - unfold stop_tasks. unfold bind at 1. unfold modify at 1.
    rewrite bind_gets. cbn [loop_running set_stop_requested].
    destruct (loop_running s).
    + unfold loop_stop. unfold_m. cbn [fst snd]. rewrite send_log_run.
      eexists. split; reflexivity.
    + unfold_m. eexists. split; reflexivity.
  - unfold pause_tasks. rewrite bind_gets.
    destruct (is_paused s); cbn [negb].
    + eexists. split; reflexivity.
    + unfold bind, modify. rewrite send_log_run. eexists. split; reflexivity.
  - unfold resume_tasks. rewrite bind_gets.
    destruct (is_paused s).
    + unfold bind, modify. rewrite send_log_run. eexists. split; reflexivity.
    + eexists. split; reflexivity.
Qed.

Lemma window_cons a w rest s :
  window a (w :: rest) s = window a rest (snd (window_step a w s)).
Proof.
  cbn [window]. unfold bind.
  destruct (window_step_run a w s) as (s' & -> & _). reflexivity.
Qed.

Lemma window_step_stamp a w b mid uid :
  tracked (snd (window_step a w b)) mid = tracked b mid
  /\ stamp_of (snd (window_step a w b)) mid uid
     = match stamp_of b mid uid with
       | Some t => Some t
       | None => if tracked b mid then first_reaction mid uid [w] else None
       end.
Proof.
  destruct (window_step_run a w b) as (s' & -> & Hs). cbn [snd].
  unfold tracked at 1, stamp_of at 1. rewrite Hs.
  destruct w as [ev now| | |].
  - split; [apply on_reaction_add_tracked|apply on_reaction_add_stamp].
  - split; [reflexivity|]. cbn. fold (stamp_of b mid uid).
    destruct (stamp_of b mid uid); [reflexivity|now destruct (tracked b mid)].
  - split; [reflexivity|]. cbn. fold (stamp_of b mid uid).
    destruct (stamp_of b mid uid); [reflexivity|now destruct (tracked b mid)].
  - split; [reflexivity|]. cbn. fold (stamp_of b mid uid).
    destruct (stamp_of b mid uid); [reflexivity|now destruct (tracked b mid)].
Qed.

Lemma window_stamps a events :
  forall b mid uid,
    tracked (snd (window a events b)) mid = tracked b mid
    /\ stamp_of (snd (window a events b)) mid uid
       = match stamp_of b mid uid with
         | Some t => Some t
         | None =>
             if tracked b mid then first_reaction mid uid events else None
         end.
Proof.
  induction events as [|w rest IH]; intros b mid uid.
  - cbn. split; [reflexivity|].
    destruct (stamp_of b mid uid); [reflexivity|now destruct (tracked b mid)].
  - rewrite window_cons.
    destruct (IH (snd (window_step a w b)) mid uid) as [Ht Hs].
    destruct (window_step_stamp a w b mid uid) as [Ht1 Hs1].
    rewrite Ht, Hs, Ht1, Hs1. split; [reflexivity|].
    destruct (stamp_of b mid uid); [reflexivity|].
    destruct (tracked b mid); [|reflexivity].
    destruct w as [ev now| | |]; cbn [first_reaction]; try reflexivity.
    now destruct (negb (user_bot (ev_user ev)) && (ev_message_id ev =? mid)
                  && (user_id (ev_user ev) =? uid)).
Qed.

(** X18.  What the reaction window leaves in the stamps: a stamp that was
    there stays as it is, whatever reactions and commands arrive; a user
    without one gets the clock reading of the first reaction event made on
    the message while it has a record, and none if no such event arrives or
    the user is a bot.  No record is opened or dropped on the way. *)
Theorem X18_window_stamps (a : result unit) (events : list window_event)
    (b : TaskBot) (mid uid : Z) :
  let b' := snd (window a events b) in
  tracked b' mid = tracked b mid
  /\ stamp_of b' mid uid
     = match stamp_of b mid uid with
       | Some t => Some t
       | None =>
           if tracked b mid then first_reaction mid uid events else None
       end.
Proof. apply window_stamps. Qed.

(** ** Starting a batch *)

(** X19.  [create_task] on a configured bot, past its deferral, wipes a stop
    and a pause, and leaves the records of earlier rounds and the removals
    under way as they are.  It takes any numbers: the first tick passes the
    guard exactly when an announce channel is set and there is at least one
    task.  The command raises what its reply raises.  When the reply goes
    through, the loop is started exactly when an announce channel is set;
    when it raises, the batch is set all the same but [restart_task_loop]
    is not reached, and the loop is left as it was. *)
Theorem X19_create_task_rearms (b : TaskBot) (tasks : Z) (type : string)
    (winners : option Z) (description : option string)
    (env : CreateEnv) :
  configured b = true ->
  ct_defer env = Ok tt ->
  let started :=
    snd (create_task tasks type winners description env b) in
  stop_requested started = false
  /\ is_paused started = false
  /\ total_tasks started = tasks
  /\ current_task started = 1
  /\ fst (create_task tasks type winners description env b) = ct_followup env
  /\ loop_running started
     = match ct_followup env with
       | Ok _ =>
           match announce_channel b with Some _ => true | None => false end
       | Raise _ => loop_running b
       end
  /\ tick_guard started
     = match announce_channel b with
       | Some _ => if tasks <? 1 then GAllAssigned else GPass
       | None => GNotConfigured
       end
  /\ reaction_timestamps started = reaction_timestamps b
  /\ role_removal_tasks started = role_removal_tasks b.
Proof.
  intros Hc Hd. cbv zeta.
  rewrite (create_task_run _ _ _ _ _ _ Hc Hd), create_task_start_run.
  cbv zeta. unfold tick_guard.
  destruct (ct_followup env) as [[]|e].
  - rewrite send_log_run. unfold restart_task_loop, modify.
    cbn. rewrite ?Hc. cbn.
    destruct (announce_channel b); cbn; repeat split; reflexivity.
  - cbn. rewrite ?Hc. cbn.
    destruct (announce_channel b); cbn; repeat split; reflexivity.
Qed.

(** alice's batch is stopped; the reply of the next [/create_task] is
    lost. *)
Lemma X19_create_task_rearms_sample :
  let b := snd (stop_tasks (Ok tt) Sample.batch) in
  let env :=
    {| ct_defer := Ok tt;
       ct_followup := Raise HTTPException;
       ct_log_send := Ok tt |} in
  configured b = true
  /\ ct_defer env = Ok tt
  /\ let started :=
       snd (create_task 5 "upvote"%string None None env b) in
     stop_requested started = false
     /\ is_paused started = false
     /\ total_tasks started = 5
     /\ current_task started = 1
     /\ fst (create_task 5 "upvote"%string None None env b)
        = Raise HTTPException
     /\ loop_running started = false
     /\ tick_guard started = GPass
     /\ reaction_timestamps started = reaction_timestamps b
     /\ role_removal_tasks started = role_removal_tasks b.
Proof.
  cbv zeta. split; [reflexivity|]. split; [reflexivity|].
  apply (X19_create_task_rearms (snd (stop_tasks (Ok tt) Sample.batch)) 5
           "upvote"%string None None
           {| ct_defer := Ok tt;
              ct_followup := Raise HTTPException;
              ct_log_send := Ok tt |});
    reflexivity.
Defined.

Lemma round_settle_nothing env b s1 :
  round_settle env b = (Ok RNothingToAssign, s1) -> tasks_this_round b <= 0.
Proof.
  intros H. unfold round_settle in H. rewrite !bind_gets in H.
  destruct (tasks_this_round b <=? 0) eqn:Hn; [now apply Z.leb_le in Hn|].
  exfalso.
  apply bind_inv in H as (channel & s2 & _ & H).
  apply bind_inv in H as (mid' & s3 & _ & H).
  apply bind_inv in H as (? & s4 & _ & H).
  apply bind_inv in H as (? & s5 & _ & H).
  apply bind_inv in H as (? & s6 & _ & H).
  apply bind_inv in H as (? & s7 & _ & H).
  rewrite bind_gets in H.
  destruct (stop_requested s7); [discriminate|].
  apply bind_inv in H as (channel' & s8 & _ & H).
  apply bind_inv in H as (message & s9 & _ & H).
  apply bind_inv in H as (reactors & s10 & _ & H).
  rewrite bind_gets in H.
  destruct (eligible_reactors _ _ _); [discriminate|].
  rewrite bind_gets in H.
  apply bind_inv in H as (ws & s11 & _ & H).
  apply bind_inv in H as (? & s12 & _ & H).
  discriminate.
Qed.

Lemma round_close_nothing env r s report s' :
  round_close env r s = (Ok report, s') ->
  report = NothingToAssign -> r = RNothingToAssign.
Proof.
  intros H ->. destruct r as [|mid|mid start n|mid elig ws acc outs];
    cbn [round_close] in H; [reflexivity|discriminate|..]; exfalso.
  - apply bind_inv in H as (? & ? & _ & H).
    apply bind_inv in H as (? & ? & _ & H).
    apply bind_inv in H as (? & ? & _ & H). discriminate.
  - apply bind_inv in H as (? & ? & _ & H).
    apply bind_inv in H as (? & ? & _ & H). discriminate.
Qed.

(** X20.  A tick that passes the guard finds nothing to assign exactly when
    [winners_per_task] is not positive; it then stops the loop without a
    word to anybody, and the batch stays where it is. *)
Theorem X20_nothing_to_assign (env : TickEnv) (b : TaskBot) :
  tick_guard b = GPass ->
  (fst (task_allocation_loop_impl env b) = Ok NothingToAssign
   <-> winners_per_task b <= 0)
  /\ (winners_per_task b <= 0 ->
      snd (task_allocation_loop_impl env b)
      = set_loop_running false (set_trace (trace b ++ [LoopStop]) b)).
Proof.
  intros Hg.
  assert (Htotal : current_task b <= total_tasks b).
  { unfold tick_guard in Hg.
    destruct (stop_requested b); [discriminate|].
    destruct (is_paused b); [discriminate|].
    destruct (negb (configured b) || _); [discriminate|].
    destruct (total_tasks b <? current_task b) eqn:Ht; [discriminate|].
    now apply Z.ltb_ge in Ht. }
  assert (Hrun : winners_per_task b <= 0 ->
                 task_allocation_loop_impl env b
                 = (Ok NothingToAssign,
                    set_loop_running false
                      (set_trace (trace b ++ [LoopStop]) b))).
  { intros Hw. unfold task_allocation_loop_impl. rewrite bind_gets, Hg.
    unfold try_except. unfold bind at 1. unfold round_settle.
    rewrite !bind_gets.
    assert (Hn : (tasks_this_round b <=? 0) = true)
      by (apply Z.leb_le; unfold tasks_this_round; lia).
    rewrite Hn. reflexivity. }
  split; [split|].
  - intros H.
    destruct (task_allocation_loop_impl env b) as [r b'] eqn:Ht.
    cbn [fst] in H. subst r.
    apply tick_report_inv in Ht as (r & s1 & Hr & Hcl); try discriminate.
    apply round_close_nothing in Hcl; [subst r|reflexivity].
    apply round_settle_nothing in Hr. unfold tasks_this_round in Hr. lia.
  - intros Hw. now rewrite (Hrun Hw).
  - intros Hw. now rewrite (Hrun Hw).
Qed.

Lemma X20_nothing_to_assign_sample :
  let b := snd (create_task 3 "upvote"%string (Some 0) None Sample.create_ok
                  Sample.fresh) in
  tick_guard b = GPass
  /\ (fst (task_allocation_loop_impl Sample.tick_three b) = Ok NothingToAssign
      <-> winners_per_task b <= 0)
  /\ (winners_per_task b <= 0 ->
      snd (task_allocation_loop_impl Sample.tick_three b)
      = set_loop_running false (set_trace (trace b ++ [LoopStop]) b)).
Proof.
  cbv zeta. split; [reflexivity|].
  apply (X20_nothing_to_assign Sample.tick_three
           (snd (create_task 3 "upvote"%string (Some 0) None Sample.create_ok
                   Sample.fresh))).
  reflexivity.
Defined.

(** ** Looking up members and roles *)

(** X21.  [get_member_safely] answers from the cache without a call and
    without a trace, and the cached member has the id asked for; it raises
    only what [fetch_member] raised outside [discord.HTTPException], after a
    miss in the cache; and it returns [None] only after such a miss and a
    failed fetch, or without a guild. *)
Theorem X21_get_member_safely (g : Guild) (uid : Z) (s : TaskBot) :
  (forall m,
      List.find (fun x => member_id x =? uid) (guild_members g) = Some m ->
      get_member_safely (Some g) uid s = (Ok (Some m), s)
      /\ member_id m = uid)
  /\ (forall e,
        fst (get_member_safely (Some g) uid s) = Raise e ->
        is_HTTPException e = false
        /\ List.find (fun x => member_id x =? uid) (guild_members g) = None
        /\ guild_fetch_member g uid = Raise e)
  /\ (fst (get_member_safely (Some g) uid s) = Ok None ->
      List.find (fun x => member_id x =? uid) (guild_members g) = None
      /\ exists e,
           guild_fetch_member g uid = Raise e /\ is_HTTPException e = true
           /\ In (Log ERROR (LFetchMemberFailed uid e))
                (trace (snd (get_member_safely (Some g) uid s))))
  /\ get_member_safely None uid s = (Ok None, s).
Proof.
  unfold get_member_safely.
  destruct (List.find _ (guild_members g)) as [m0|] eqn:Hfind.
  - split; [|split; [|split]]; try discriminate; [|reflexivity].
    intros m H. inversion H; subst. split; [reflexivity|].
    apply List.find_some in Hfind as [_ Hid]. now apply Z.eqb_eq in Hid.
  - split; [discriminate|]. unfold_m.
    destruct (guild_fetch_member g uid) as [m|e]; cbn.
    + split; [discriminate|]. split; [discriminate|reflexivity].
    + destruct (is_HTTPException e) eqn:He; cbn.
      * split; [discriminate|]. split; [|reflexivity].
        intros _. split; [reflexivity|]. exists e.
        repeat split; try assumption. rewrite !in_app_iff. cbn. tauto.
      * split; [|split; [discriminate|reflexivity]].
        intros e' H. inversion H; subst. now repeat split.
Qed.

Lemma X21_get_member_safely_sample :
  get_member_safely (Some Sample.guild) 2 Sample.batch
  = (Ok (Some Sample.bob), Sample.batch)
  /\ member_id Sample.bob = 2.
Proof.
  apply (proj1 (X21_get_member_safely Sample.guild 2 Sample.batch)).
  reflexivity.
Defined.

(** X22.  [get_or_create_role] returns a role of the guild without a call
    and without a trace when one bears the name, and that role is the first
    of that name; otherwise it asks for the role to be created, once, and
    returns what it gets or raises what was raised there. *)
Theorem X22_get_or_create_role (g : Guild) (name : string)
    (create : result Role) (s : TaskBot) :
  match utils_get (guild_roles g) name with
  | Some role =>
      get_or_create_role g name create s = (Ok role, s)
      /\ role_name role = name
      /\ exists before after,
           guild_roles g = before ++ role :: after
           /\ utils_get before name = None
  | None =>
      fst (get_or_create_role g name create s) = create
      /\ count_effects
           (fun e => match e with IO (CreateRole _) _ => true | _ => false end)
           (trace (snd (get_or_create_role g name create s)))
         = S (count_effects
                (fun e =>
                   match e with IO (CreateRole _) _ => true | _ => false end)
                (trace s))
      /\ In (IO (CreateRole name) (is_ok create))
           (trace (snd (get_or_create_role g name create s)))
  end.
Proof.
  unfold get_or_create_role, utils_get.
  destruct (List.find _ (guild_roles g)) as [role|] eqn:Hfind.
  - split; [reflexivity|]. split.
    + apply List.find_some in Hfind as [_ Hn]. now apply String.eqb_eq in Hn.
    + clear s create. induction (guild_roles g) as [|r roles IH];
        [discriminate|]. cbn in Hfind.
      destruct (String.eqb (role_name r) name) eqn:Hr.
      * inversion Hfind; subst. now exists [], roles.
      * destruct (IH Hfind) as (before & after & -> & Hb).
        exists (r :: before), after. split; [reflexivity|].
        cbn. now rewrite Hr.
  - unfold_m. unfold count_effects.
    destruct create as [role|e]; cbn [fst snd trace set_trace is_ok];
      (split; [reflexivity|]);
      rewrite !List.filter_app, !length_app, !in_app_iff; cbn;
      (split; [lia|tauto]).
Qed.


(** ** Roles granted and removals scheduled *)

Lemma roles_added_app t1 t2 :
  roles_added (t1 ++ t2) = roles_added t1 ++ roles_added t2.
Proof. apply flat_map_app. Qed.

Lemma balanced_ret {A} (a : A) : balanced (ret a).
Proof. intros s. exists []. cbn. now rewrite !app_nil_r. Qed.

Lemma balanced_raise {A} (e : exn) : balanced (@raise A e).
Proof. intros s. exists []. cbn. now rewrite !app_nil_r. Qed.

Lemma balanced_lift {A} (r : result A) : balanced (lift r).
Proof. intros s. exists []. cbn. now rewrite !app_nil_r. Qed.

Lemma balanced_gets {A} (f : TaskBot -> A) : balanced (gets f).
Proof. intros s. exists []. cbn. now rewrite !app_nil_r. Qed.

Lemma balanced_modify (g : TaskBot -> TaskBot) :
  (forall s, trace (g s) = trace s) ->
  (forall s, role_removal_tasks (g s) = role_removal_tasks s) ->
  balanced (modify g).
Proof.
  intros H1 H2 s. exists []. cbn. now rewrite H1, H2, !app_nil_r.
Qed.

Lemma balanced_emit (e : effect) : roles_added [e] = [] -> balanced (emit e).
Proof.
  intros He s. exists [e]. cbn [emit modify snd trace set_trace
                                 role_removal_tasks].
  rewrite He, app_nil_r. now split.
Qed.

Lemma balanced_bind {A B} (m : M A) (k : A -> M B) :
  balanced m -> (forall a, balanced (k a)) -> balanced (bind m k).
Proof.
  intros Hm Hk s. destruct (Hm s) as (d1 & Ht1 & Hr1). unfold bind.
  destruct (m s) as [[a|e] s1]; cbn [fst snd] in *.
  - destruct (Hk a s1) as (d2 & Ht2 & Hr2).
    exists (d1 ++ d2).
    now rewrite Ht2, Ht1, Hr2, Hr1, roles_added_app, !app_assoc.
  - now exists d1.
Qed.

Lemma balanced_try_except {A} (m : M A) c (h : exn -> M A) :
  balanced m -> (forall e, balanced (h e)) -> balanced (try_except m c h).
Proof.
  intros Hm Hh s. destruct (Hm s) as (d1 & Ht1 & Hr1). unfold try_except.
  destruct (m s) as [[a|e] s1]; cbn [fst snd] in *.
  - now exists d1.
  - destruct (c e).
    + destruct (Hh e s1) as (d2 & Ht2 & Hr2).
      exists (d1 ++ d2).
      now rewrite Ht2, Ht1, Hr2, Hr1, roles_added_app, !app_assoc.
    + now exists d1.
Qed.

Lemma balanced_io {A} (c : call) (answer : result A) :
  (forall ok, roles_added [IO c ok] = []) -> balanced (io c answer).
Proof.
  intros Hc. apply balanced_bind;
    [apply balanced_emit, Hc|intros; apply balanced_lift].
Qed.

Lemma balanced_log l m : balanced (log l m).
Proof. now apply balanced_emit. Qed.

(** The grant of lines 514-519: the removal is scheduled exactly when
    [add_roles] went through. *)
Lemma balanced_grant {B} (member role n : Z) (answer : result unit)
    (k : M B) :
  balanced k ->
  balanced
    (io (AddRoles member role n) answer ;;
     modify (fun b =>
               set_role_removal_tasks
                 (role_removal_tasks b ++ [(member, role)]) b) ;;
     k).
Proof.
  intros Hk s. unfold io. unfold bind, emit, modify, lift.
  destruct answer as [[]|e]; cbn [is_ok fst snd].
  - cbn [trace set_trace set_role_removal_tasks role_removal_tasks].
    match goal with
    | |- context [k ?st] => destruct (Hk st) as (d & Ht & Hr)
    end.
    cbn [trace set_trace set_role_removal_tasks role_removal_tasks] in Ht, Hr.
    exists ([IO (AddRoles member role n) true] ++ d).
    rewrite Ht, Hr, roles_added_app, <- !app_assoc. now split.
  - exists [IO (AddRoles member role n) false]. cbn.
    now rewrite app_nil_r.
Qed.

(** One step of a proof that a coroutine grants no role and schedules no
    removal, or does both. *)
Ltac balanced_step :=
  first
    [ apply balanced_ret | apply balanced_raise | apply balanced_lift
    | apply balanced_gets | apply balanced_log
    | apply balanced_io; reflexivity
    | apply balanced_emit; reflexivity
    | apply balanced_modify; reflexivity
    | apply balanced_bind; [|intro]
    | apply balanced_try_except; [|intro]
    | match goal with
      | |- balanced (match ?x with _ => _ end) => destruct x
      end ].

Lemma balanced_send_log answer text : balanced (send_log answer text).
Proof. unfold send_log. repeat balanced_step. Qed.

Lemma balanced_dm_winner env w n : balanced (dm_winner env w n).
Proof.
  unfold dm_winner. repeat (balanced_step || apply balanced_send_log).
Qed.

Lemma balanced_sheet_loop sheet n name attempts :
  balanced (sheet_loop sheet n name attempts).
Proof.
  induction attempts as [|a rest IH]; cbn [sheet_loop].
  - apply balanced_ret.
  - unfold sheet_try. repeat (balanced_step || apply IH).
Qed.

Lemma balanced_write_to_sheet sheet n name :
  balanced (write_to_sheet sheet n name).
Proof.
  unfold write_to_sheet. repeat (balanced_step || apply balanced_sheet_loop).
Qed.

Lemma balanced_get_member_safely guild uid :
  balanced (get_member_safely guild uid).
Proof. unfold get_member_safely. repeat balanced_step. Qed.

Lemma balanced_get_or_create_role guild name create :
  balanced (get_or_create_role guild name create).
Proof. unfold get_or_create_role. repeat balanced_step. Qed.

Lemma balanced_collect_users guild users :
  forall reactors, balanced (collect_users guild users reactors).
Proof.
  induction users as [|u rest IH]; intros reactors; cbn [collect_users].
  - apply balanced_ret.
  - repeat (balanced_step || apply IH || apply balanced_get_member_safely).
Qed.

Lemma balanced_collect_reactions guild reactions :
  forall reactors, balanced (collect_reactions guild reactions reactors).
Proof.
  induction reactions as [|r rest IH]; intros reactors;
    cbn [collect_reactions].
  - apply balanced_ret.
  - repeat (balanced_step || apply IH || apply balanced_collect_users).
Qed.

Lemma balanced_process_winner env guild start i w :
  balanced (process_winner env guild start i w).
Proof.
  unfold process_winner. destruct guild as [g|].
  - apply balanced_bind; [apply balanced_gets|intro name].
    apply balanced_bind; [apply balanced_get_or_create_role|intro role].
    apply balanced_grant.
    repeat (balanced_step || apply balanced_dm_winner
            || apply balanced_write_to_sheet).
  - repeat balanced_step.
Qed.

Lemma balanced_settle_loop envs guild start winners :
  forall i acc outs,
    balanced (settle_loop envs guild start i winners acc outs).
Proof.
  induction winners as [|w rest IH]; intros i acc outs; cbn [settle_loop].
  - apply balanced_ret.
  - repeat (apply IH || apply balanced_process_winner || balanced_step).
Qed.

Lemma balanced_loop_stop : balanced loop_stop.
Proof. unfold loop_stop. repeat balanced_step. Qed.

Lemma balanced_stop_tasks a : balanced (stop_tasks a).
Proof.
  unfold stop_tasks.
  repeat (balanced_step || apply balanced_loop_stop
          || apply balanced_send_log).
Qed.

Lemma balanced_pause_tasks a : balanced (pause_tasks a).
Proof. unfold pause_tasks. repeat (balanced_step || apply balanced_send_log). Qed.

Lemma balanced_resume_tasks a : balanced (resume_tasks a).
Proof. unfold resume_tasks. repeat (balanced_step || apply balanced_send_log). Qed.

Lemma on_reaction_add_removals ev now s :
  role_removal_tasks (on_reaction_add ev now s) = role_removal_tasks s.
Proof.
  unfold on_reaction_add. destruct (user_bot (ev_user ev)); [reflexivity|].
  destruct (reaction_timestamps s !! ev_message_id ev) as [stamps|];
    [|reflexivity].
  now destruct (stamps !! user_id (ev_user ev)).
Qed.

Lemma balanced_window a events : balanced (window a events).
Proof.
  induction events as [|w rest IH]; cbn [window].
  - apply balanced_ret.
  - unfold window_step.
    repeat (apply IH || apply balanced_stop_tasks
            || apply balanced_pause_tasks || apply balanced_resume_tasks
            || (apply balanced_modify;
                [intro; apply on_reaction_add_trace
                |intro; apply on_reaction_add_removals])
            || balanced_step).
Qed.

Lemma balanced_ping env c : balanced (ping env c).
Proof. unfold ping. repeat (balanced_step || apply balanced_send_log). Qed.

Lemma balanced_round_settle env : balanced (round_settle env).
Proof.
  unfold round_settle, the_announce_channel, collect_reactors.
  repeat (apply balanced_loop_stop || apply balanced_ping
          || apply balanced_window || apply balanced_collect_reactions
          || apply balanced_settle_loop || balanced_step).
Qed.

Lemma balanced_round_close env r : balanced (round_close env r).
Proof.
  unfold round_close, the_announce_channel, del_reaction_timestamps.
  repeat balanced_step.
Qed.

Lemma balanced_task_allocation_loop_impl env :
  balanced (task_allocation_loop_impl env).
Proof.
  unfold task_allocation_loop_impl.
  repeat (apply balanced_send_log || apply balanced_loop_stop
          || apply balanced_round_settle || apply balanced_round_close
          || balanced_step).
Qed.

Lemma balanced_event e s :
  exists d,
    trace (step e s) = trace s ++ d
    /\ role_removal_tasks (step e s) = role_removal_tasks s ++ roles_added d.
Proof.
  destruct e as [env|ev now|a|a|a]; cbn [step].
  - apply balanced_task_allocation_loop_impl.
  - exists []. rewrite !app_nil_r.
    split; [apply on_reaction_add_trace|apply on_reaction_add_removals].
  - apply balanced_stop_tasks.
  - apply balanced_pause_tasks.
  - apply balanced_resume_tasks.
Qed.

(** X23.  Every role granted gets its removal: over any run of ticks,
    reactions and stop, pause and resume commands, what is put in
    [_role_removal_tasks] is, in order, one removal for each [add_roles]
    call that went through, for that member and that role; also when the
    rest of the winner's settlement fails, and never for a grant that
    failed. *)
Theorem X23_granted_roles_get_a_removal (events : list event)
    (b : TaskBot) :
  exists d,
    trace (run events b) = trace b ++ d
    /\ role_removal_tasks (run events b)
       = role_removal_tasks b ++ roles_added d.
Proof.
  revert b. induction events as [|e rest IH]; intros b; cbn [run].
  - exists []. cbn. now rewrite !app_nil_r.
  - destruct (balanced_event e b) as (d1 & Ht1 & Hr1).
    destruct (IH (step e b)) as (d2 & Ht2 & Hr2).
    exists (d1 ++ d2).
    now rewrite Ht2, Ht1, Hr2, Hr1, roles_added_app, !app_assoc.
Qed.

(** ** Changing the settings *)

Lemma configure_settings_frame o defer followup b s r b' s' replies :
  configure_settings o defer followup (b, s) = (r, (b', s'), replies) ->
  current_task b' = current_task b
  /\ total_tasks b' = total_tasks b
  /\ winners_per_task b' = winners_per_task b
  /\ reaction_timestamps b' = reaction_timestamps b
  /\ is_paused b' = is_paused b
  /\ stop_requested b' = stop_requested b
  /\ role_removal_tasks b' = role_removal_tasks b
  /\ trace b' = trace b.
Proof.
  unfold configure_settings. intros H.
  destruct defer as [[]|e]; [|inversion H; subst; now repeat split].
  destruct (below 1 (opt_interval_minutes o));
    [inversion H; subst; now repeat split|].
  destruct (outside 1 60 (opt_reaction_time o));
    [inversion H; subst; now repeat split|].
  destruct (outside 1 168 (opt_role_removal_hours o));
    [inversion H; subst; now repeat split|].
  inversion H; subst. unfold restart_task_loop, modify.
  destruct (opt_announce_channel o), (opt_logs_channel o),
    (nonempty (opt_sheets_url o)), (opt_interval_minutes o);
    cbn; try destruct (loop_running b); cbn; now repeat split.
Qed.

Lemma configure_settings_in_range o defer followup b s r b' s' replies :
  configure_settings o defer followup (b, s) = (r, (b', s'), replies) ->
  settings_in_range s -> settings_in_range s'.
Proof.
  unfold configure_settings, settings_in_range. intros H Hs.
  destruct defer as [[]|e]; [|inversion H; now subst].
  destruct (below 1 (opt_interval_minutes o)) eqn:H1;
    [inversion H; now subst|].
  destruct (outside 1 60 (opt_reaction_time o)) eqn:H2;
    [inversion H; now subst|].
  destruct (outside 1 168 (opt_role_removal_hours o)) eqn:H3;
    [inversion H; now subst|].
  inversion H; subst. cbn [interval_minutes reaction_time role_removal_hours].
  unfold below, outside, override in *.
  destruct (opt_interval_minutes o), (opt_reaction_time o),
    (opt_role_removal_hours o); lia.
Qed.

(** X24.  [/configure_settings] is all or nothing: unless it answers that
    the settings were updated, the bot and its settings are as before, the
    options that were in range included; when it does, every number given
    is within its range and the bot is marked configured.  Either way the
    batch under way is left alone: the counter, the size of the batch, the
    records of the rounds, the pause and the stop. *)
Theorem X24_configure_settings_all_or_nothing (o : ConfigureOptions)
    (defer followup : result unit) (b b' : TaskBot) (s s' : Settings)
    (r : result unit) (replies : list reply) :
  configure_settings o defer followup (b, s) = (r, (b', s'), replies) ->
  (replies <> [SettingsUpdated] -> b' = b /\ s' = s)
  /\ (replies = [SettingsUpdated] ->
      configured b' = true
      /\ below 1 (opt_interval_minutes o) = false
      /\ outside 1 60 (opt_reaction_time o) = false
      /\ outside 1 168 (opt_role_removal_hours o) = false
      /\ interval_minutes s'
         = override (opt_interval_minutes o) (interval_minutes s)
      /\ reaction_time s' = override (opt_reaction_time o) (reaction_time s)
      /\ role_removal_hours s'
         = override (opt_role_removal_hours o) (role_removal_hours s))
  /\ current_task b' = current_task b
  /\ total_tasks b' = total_tasks b
  /\ winners_per_task b' = winners_per_task b
  /\ reaction_timestamps b' = reaction_timestamps b
  /\ is_paused b' = is_paused b
  /\ stop_requested b' = stop_requested b
  /\ role_removal_tasks b' = role_removal_tasks b
  /\ trace b' = trace b.
Proof.
  intros H. split; [|split; [|eapply configure_settings_frame, H]];
    revert H; unfold configure_settings.
  - destruct defer as [[]|e]; [|intros H; inversion H; now subst].
    destruct (below 1 (opt_interval_minutes o));
      [intros H; inversion H; now subst|].
    destruct (outside 1 60 (opt_reaction_time o));
      [intros H; inversion H; now subst|].
    destruct (outside 1 168 (opt_role_removal_hours o));
      [intros H; inversion H; now subst|].
    intros H Hr. inversion H; subst. now destruct Hr.
  - destruct defer as [[]|e]; [|intros H; inversion H; now subst].
    destruct (below 1 (opt_interval_minutes o));
      [intros H; inversion H; now subst|].
    destruct (outside 1 60 (opt_reaction_time o));
      [intros H; inversion H; now subst|].
    destruct (outside 1 168 (opt_role_removal_hours o));
      [intros H; inversion H; now subst|].
    intros H _. inversion H; subst. unfold restart_task_loop, modify.
    split; [|now repeat split].
    destruct (opt_announce_channel o), (opt_logs_channel o),
      (nonempty (opt_sheets_url o)), (opt_interval_minutes o);
      cbn; try destruct (loop_running b); reflexivity.
Qed.

Lemma X24_configure_settings_all_or_nothing_sample :
  configure_settings slow_reactions (Ok tt) (Ok tt)
    (Sample.batch, default_settings "Verified")
  = (Ok tt, (Sample.batch, default_settings "Verified"),
     [ReactionTimeOutOfRange])
  /\ [ReactionTimeOutOfRange] <> [SettingsUpdated]
  /\ Sample.batch = Sample.batch
  /\ default_settings "Verified" = default_settings "Verified".
Proof.
  assert (H : configure_settings slow_reactions (Ok tt) (Ok tt)
                (Sample.batch, default_settings "Verified")
              = (Ok tt, (Sample.batch, default_settings "Verified"),
                 [ReactionTimeOutOfRange])) by reflexivity.
  split; [exact H|]. split; [discriminate|].
  apply (proj1 (X24_configure_settings_all_or_nothing _ _ _ _ _ _ _ _ _ H)).
  discriminate.
Defined.

(** X25.  The settings stay within their ranges: if the interval is at
    least a minute, the reaction time between 1 and 60 seconds and the
    removal delay between 1 and 168 hours, as the defaults are, they are so
    after any number of uses of [/configure_settings], whatever options
    are given. *)
Theorem X25_settings_stay_in_range
    (uses : list (ConfigureOptions * result unit * result unit))
    (b : TaskBot) (s : Settings) :
  settings_in_range s ->
  settings_in_range (snd (configure_all uses (b, s))).
Proof.
  revert b s. induction uses as [|[[o defer] followup] rest IH];
    intros b s Hs; cbn [configure_all]; [exact Hs|].
  destruct (configure_settings o defer followup (b, s))
    as [[r [b' s']] replies] eqn:H. cbn [fst snd].
  apply IH. eapply configure_settings_in_range; eassumption.
Qed.

Lemma X25_settings_stay_in_range_sample :
  settings_in_range (default_settings "Verified")
  /\ settings_in_range
       (snd (configure_all
               [(slow_reactions, Ok tt, Ok tt);
                (daily_removal, Ok tt, Raise HTTPException)]
               (Sample.batch, default_settings "Verified"))).
Proof.
  assert (H : settings_in_range (default_settings "Verified"))
    by (unfold settings_in_range; cbn; lia).
  split; [exact H|].
  apply (X25_settings_stay_in_range
           [(slow_reactions, Ok tt, Ok tt);
            (daily_removal, Ok tt, Raise HTTPException)]
           Sample.batch (default_settings "Verified") H).
Defined.

(** X26.  [/configure_settings] marks the bot configured whether or not an
    announce channel is known.  Without one, [/create_task] is then taken,
    and past its deferral sets the batch up, but starts no loop: the loop is
    off once the reply of the command went through, and as it was when the
    reply raised; and a tick would do nothing but report that the bot is
    not configured. *)
Theorem X26_configured_without_a_channel (o : ConfigureOptions)
    (defer followup : result unit) (b b' : TaskBot) (s s' : Settings)
    (r : result unit) (tasks : Z) (type : string) (winners : option Z)
    (description : option string) (cenv : CreateEnv) (env : TickEnv) :
  configure_settings o defer followup (b, s)
  = (r, (b', s'), [SettingsUpdated]) ->
  announce_channel b = None ->
  opt_announce_channel o = None ->
  ct_defer cenv = Ok tt ->
  let started :=
    snd (create_task tasks type winners description cenv b') in
  configured b' = true
  /\ total_tasks started = tasks
  /\ current_task started = 1
  /\ loop_running started
     = match ct_followup cenv with
       | Ok _ => false
       | Raise _ => loop_running b'
       end
  /\ fst (task_allocation_loop_impl env started) = Ok NotConfigured.
Proof.
  intros H Hch Ho Hd. cbv zeta.
  assert (Hc : configured b' = true /\ announce_channel b' = None).
  { revert H. unfold configure_settings.
    destruct defer as [[]|e]; [|discriminate].
    destruct (below 1 (opt_interval_minutes o)); [discriminate|].
    destruct (outside 1 60 (opt_reaction_time o)); [discriminate|].
    destruct (outside 1 168 (opt_role_removal_hours o)); [discriminate|].
    intros H. inversion H; subst. rewrite Ho.
    unfold restart_task_loop, modify.
    destruct (opt_logs_channel o), (nonempty (opt_sheets_url o)),
      (opt_interval_minutes o);
      cbn; try destruct (loop_running b); cbn; now split. }
  destruct Hc as [Hc Hnone].
  split; [exact Hc|].
  split; [now apply create_task_sets_total|].
  split; [now apply create_task_starts_at_1|].
  rewrite (create_task_run _ _ _ _ _ _ Hc Hd), create_task_start_run.
  cbv zeta. unfold task_allocation_loop_impl. rewrite bind_gets.
  unfold tick_guard.
  destruct (ct_followup cenv) as [[]|e].
  - rewrite send_log_run. unfold restart_task_loop, modify.
    cbn. rewrite Hc, Hnone. cbn. now split.
  - cbn. rewrite Hc, Hnone. cbn. now split.
Qed.

Lemma X26_configured_without_a_channel_sample :
  let b' := set_configured true unconfigured in
  configure_settings no_options (Ok tt) (Ok tt)
    (unconfigured, default_settings "Verified")
  = (Ok tt, (b', default_settings "Verified"), [SettingsUpdated])
  /\ announce_channel unconfigured = None
  /\ opt_announce_channel no_options = None
  /\ ct_defer Sample.create_ok = Ok tt
  /\ let started :=
       snd (create_task 3 "Comment"%string None None Sample.create_ok b') in
     configured b' = true
     /\ total_tasks started = 3
     /\ current_task started = 1
     /\ loop_running started = false
     /\ fst (task_allocation_loop_impl Sample.tick_three started)
        = Ok NotConfigured.
Proof.
  cbv zeta.
  assert (H : configure_settings no_options (Ok tt) (Ok tt)
                (unconfigured, default_settings "Verified")
              = (Ok tt,
                 (set_configured true unconfigured,
                  default_settings "Verified"), [SettingsUpdated]))
    by reflexivity.
  split; [exact H|]. split; [reflexivity|]. split; [reflexivity|].
  split; [reflexivity|].
  exact (X26_configured_without_a_channel _ _ _ _ _ _ _ _ 3
           "Comment"%string None None Sample.create_ok Sample.tick_three
           H eq_refl eq_refl eq_refl).
Defined.

(** ** Assigning a task by hand *)

Lemma keeps_manual_assign_grant {X} (f : TaskBot -> X) env g n user :
  untouched f -> keeps f (manual_assign_grant env g n user).
Proof.
  intros Hf. unfold manual_assign_grant.
  repeat (keeps_step Hf || apply (keeps_get_or_create_role _ Hf)
          || apply (keeps_dm_winner _ Hf)
          || apply (keeps_write_to_sheet _ Hf)).
Qed.

Lemma balanced_manual_assign_grant env g n user :
  balanced (manual_assign_grant env g n user).
Proof.
  unfold manual_assign_grant.
  apply balanced_bind; [apply balanced_gets|intro name].
  apply balanced_bind; [apply balanced_get_or_create_role|intro role].
  apply balanced_grant.
  repeat (balanced_step || apply balanced_dm_winner
          || apply balanced_write_to_sheet).
Qed.

(** The settlement of the command is that of the cycle. *)
Lemma process_winner_is_manual_assign_grant env g start i w s :
  process_winner env (Some g) start i w s
  = (match fst (manual_assign_grant env g (start + Z.of_nat i) w s) with
     | Ok _ => Ok (Some (w, start + Z.of_nat i))
     | Raise e => Raise e
     end,
     snd (manual_assign_grant env g (start + Z.of_nat i) w s)).
Proof.
  unfold process_winner, manual_assign_grant. unfold bind, gets.
  destruct (get_or_create_role g (TASK_ROLE_NAME s) (se_create_role env) s)
    as [[role|e] s1]; [|reflexivity].
  destruct (io _ (se_add_roles env) s1) as [[u|e] s2]; [|reflexivity].
  destruct (modify _ s2) as [[u'|e] s3]; [|reflexivity].
  destruct (dm_winner (se_dm env) w (start + Z.of_nat i) s3)
    as [[sent|e] s4]; [|reflexivity].
  now destruct (write_to_sheet _ _ _ s4) as [[[]|e] s5].
Qed.

Lemma manual_assign_grant_settles env g n user s :
  is_ok (fst (manual_assign_grant env g n user s))
  = settles env g (TASK_ROLE_NAME s) (announce_channel s).
Proof.
  rewrite <- (process_winner_settles env g n 0 user s).
  rewrite process_winner_is_manual_assign_grant. cbn [fst Z.of_nat].
  rewrite Z.add_0_r. now destruct (fst (manual_assign_grant env g n user s)).
Qed.

Lemma manual_assign_grant_granted env g n user s s' :
  manual_assign_grant env g n user s = (Ok tt, s') ->
  exists role,
    In (IO (AddRoles (member_id user) role n) true) (trace s')
    /\ In (member_id user, role) (role_removal_tasks s').
Proof.
  unfold manual_assign_grant. rewrite bind_gets. intros H.
  apply bind_inv in H as (role & s1 & _ & H).
  apply bind_inv in H as (? & s2 & K2 & H).
  pose proof (io_inv _ _ _ _ _ K2) as Hadd.
  rewrite io_run in K2. inversion K2; subst s2. rewrite Hadd in H.
  apply bind_inv in H as (? & s3 & K3 & H).
  unfold modify in K3. inversion K3; subst s3.
  assert (Hb : balanced
                 (dm_winner (se_dm env) user n ;;
                  write_to_sheet (se_sheet env) n (member_name user)))
    by repeat (balanced_step || apply balanced_dm_winner
               || apply balanced_write_to_sheet).
  match type of H with
  | _ ?st = _ => destruct (Hb st) as (d & Ht & Hr)
  end.
  rewrite H in Ht, Hr.
  cbn [snd trace set_trace set_role_removal_tasks role_removal_tasks]
    in Ht, Hr.
  exists (role_id role). rewrite Ht, Hr, !in_app_iff. cbn. tauto.
Qed.

Lemma only_records_same (s : TaskBot) :
  s = set_role_removal_tasks (role_removal_tasks s) (set_trace (trace s) s).
Proof. now destruct s. Qed.

Lemma only_records_ret {A} (a : A) : only_records (ret a).
Proof. intros s. eexists _, _. apply only_records_same. Qed.

Lemma only_records_raise {A} (e : exn) : only_records (@raise A e).
Proof. intros s. eexists _, _. apply only_records_same. Qed.

Lemma only_records_lift {A} (r : result A) : only_records (lift r).
Proof. intros s. eexists _, _. apply only_records_same. Qed.

Lemma only_records_gets {A} (f : TaskBot -> A) : only_records (gets f).
Proof. intros s. eexists _, _. apply only_records_same. Qed.

Lemma only_records_emit (e : effect) : only_records (emit e).
Proof.
  intros s. exists (trace s ++ [e]), (role_removal_tasks s). now destruct s.
Qed.

Lemma only_records_bind {A B} (m : M A) (k : A -> M B) :
  only_records m -> (forall a, only_records (k a)) -> only_records (bind m k).
Proof.
  intros Hm Hk s. destruct (Hm s) as (t1 & l1 & H1). unfold bind.
  destruct (m s) as [[a|e] s1]; cbn [fst snd] in *.
  - destruct (Hk a s1) as (t2 & l2 & H2). exists t2, l2.
    rewrite H2, H1. reflexivity.
  - now exists t1, l1.
Qed.

Lemma only_records_try_except {A} (m : M A) c (h : exn -> M A) :
  only_records m -> (forall e, only_records (h e)) ->
  only_records (try_except m c h).
Proof.
  intros Hm Hh s. destruct (Hm s) as (t1 & l1 & H1). unfold try_except.
  destruct (m s) as [[a|e] s1]; cbn [fst snd] in *.
  - now exists t1, l1.
  - destruct (c e).
    + destruct (Hh e s1) as (t2 & l2 & H2). exists t2, l2.
      rewrite H2, H1. reflexivity.
    + now exists t1, l1.
Qed.

Lemma only_records_io {A} (c : call) (answer : result A) :
  only_records (io c answer).
Proof.
  apply only_records_bind;
    [apply only_records_emit|intros; apply only_records_lift].
Qed.

Lemma only_records_log l m : only_records (log l m).
Proof. apply only_records_emit. Qed.

Lemma only_records_schedule (p : Z * Z) :
  only_records
    (modify (fun b => set_role_removal_tasks (role_removal_tasks b ++ [p]) b)).
Proof.
  intros s. exists (trace s), (role_removal_tasks s ++ [p]). now destruct s.
Qed.

Ltac only_records_step :=
  first
    [ apply only_records_ret | apply only_records_raise
    | apply only_records_lift | apply only_records_gets
    | apply only_records_log | apply only_records_io
    | apply only_records_emit | apply only_records_schedule
    | apply only_records_bind; [|intro]
    | apply only_records_try_except; [|intro]
    | match goal with
      | |- only_records (match ?x with _ => _ end) => destruct x
      end ].

Lemma only_records_send_log answer text :
  only_records (send_log answer text).
Proof. unfold send_log. repeat only_records_step. Qed.

Lemma only_records_sheet_loop sheet n name attempts :
  only_records (sheet_loop sheet n name attempts).
Proof.
  induction attempts as [|a rest IH]; cbn [sheet_loop].
  - apply only_records_ret.
  - unfold sheet_try. repeat (only_records_step || apply IH).
Qed.

Lemma only_records_manual_assign_grant env g n user :
  only_records (manual_assign_grant env g n user).
Proof.
  unfold manual_assign_grant, get_or_create_role, dm_winner, write_to_sheet.
  repeat (only_records_step || apply only_records_send_log
          || apply only_records_sheet_loop).
Qed.

(** What [manual_assign] leaves of the bot, whichever way it goes. *)
Lemma manual_assign_frame env guild n user b r b' said :
  manual_assign env guild n user b = (r, b', said) ->
  exists d,
    b' = set_role_removal_tasks (role_removal_tasks b ++ roles_added d)
           (set_trace (trace b ++ d) b).
Proof.
  assert (Hsame : exists d,
             b = set_role_removal_tasks (role_removal_tasks b ++ roles_added d)
                   (set_trace (trace b ++ d) b)).
  { exists []. cbn. rewrite !app_nil_r. apply only_records_same. }
  unfold manual_assign. intros H.
  destruct (ma_defer env) as [[]|e]; [|inversion H; now subst].
  destruct (negb (configured b)); [inversion H; now subst|].
  destruct (total_tasks b =? 0); [inversion H; now subst|].
  destruct (negb _); [inversion H; now subst|].
  destruct guild as [g|]; [|inversion H; now subst].
  clear Hsame.
  assert (Htry : forall r1 b1 said1,
             manual_assign_try env g n user b = (r1, b1, said1) ->
             exists d,
               b1 = set_role_removal_tasks
                      (role_removal_tasks b ++ roles_added d)
                      (set_trace (trace b ++ d) b)).
  { unfold manual_assign_try. intros r1 b1 said1 H1.
    destruct (balanced_manual_assign_grant (ma_settle env) g n user b)
      as (d & Ht & Hr).
    destruct (only_records_manual_assign_grant (ma_settle env) g n user b)
      as (t & l & Hs).
    assert (Hb0 : snd (manual_assign_grant (ma_settle env) g n user b)
                  = set_role_removal_tasks
                      (role_removal_tasks b ++ roles_added d)
                      (set_trace (trace b ++ d) b)).
    { rewrite Hs in Ht, Hr |- *. cbn in Ht, Hr. now subst t l. }
    clear t l Hs Ht Hr.
    destruct (manual_assign_grant (ma_settle env) g n user b)
      as [[u|e] b0]; cbn [snd] in Hb0; subst b0.
    - cbn [logs_channel set_role_removal_tasks set_trace] in H1.
      destruct (logs_channel b) as [c|].
      + destruct (ma_log_send env) as [[]|e]; inversion H1; subst.
        * now exists d.
        * exists (d ++ [Log ERROR (LLogSendFailed e)]).
          unfold log, emit, modify.
          cbn [snd trace set_trace role_removal_tasks
                 set_role_removal_tasks].
          rewrite roles_added_app, <- !app_assoc. cbn.
          now rewrite app_nil_r.
      + inversion H1; subst. now exists d.
    - inversion H1; subst. now exists d. }
  destruct (manual_assign_try env g n user b) as [[[u|e] b1] said1] eqn:Ht.
  - inversion H; subst. eapply Htry; reflexivity.
  - destruct (is_Forbidden e); inversion H; subst; eapply Htry; reflexivity.
Qed.



(** X28.  A manual assignment is invisible to the cycle: whichever way the
    command goes, it changes nothing of the bot but the removals scheduled,
    one for each role it granted; the counter, the size of the batch, the
    records of the rounds, the pause and the stop are as before, so the
    guard of the next tick and the tasks it offers are the same, the number
    assigned by hand included. *)
Theorem X28_manual_assign_leaves_the_counter (env : ManualEnv)
    (guild : option Guild) (n : Z) (user : Member) (b b' : TaskBot)
    (r : result unit) (said : list remark) :
  manual_assign env guild n user b = (r, b', said) ->
  (exists d,
      b' = set_role_removal_tasks (role_removal_tasks b ++ roles_added d)
             (set_trace (trace b ++ d) b))
  /\ current_task b' = current_task b
  /\ total_tasks b' = total_tasks b
  /\ tasks_this_round b' = tasks_this_round b
  /\ tick_guard b' = tick_guard b
  /\ reaction_timestamps b' = reaction_timestamps b.
Proof.
  intros H. apply manual_assign_frame in H as (d & ->).
  split; [now exists d|]. now repeat split.
Qed.

Lemma X28_manual_assign_leaves_the_counter_sample :
  let b' :=
    snd (fst (manual_assign manual_ok (Some Sample.guild) 2 Sample.alice
                Sample.batch)) in
  manual_assign manual_ok (Some Sample.guild) 2 Sample.alice Sample.batch
  = (Ok tt,
     snd (fst (manual_assign manual_ok (Some Sample.guild) 2 Sample.alice
                 Sample.batch)),
     [LogsSendAssigned 11 2 1 true; Followup (Assigned 2 1) true])
  /\ current_task b' = current_task Sample.batch
  /\ tick_guard b' = tick_guard Sample.batch.
Proof.
  cbv zeta.
  assert (H : manual_assign manual_ok (Some Sample.guild) 2 Sample.alice Sample.batch
              = (Ok tt,
                 snd (fst (manual_assign manual_ok (Some Sample.guild) 2 Sample.alice
                             Sample.batch)),
                 [LogsSendAssigned 11 2 1 true; Followup (Assigned 2 1) true]))
    by (vm_compute; reflexivity).
  split; [exact H|].
  destruct (X28_manual_assign_leaves_the_counter _ _ _ _ _ _ _ _ H)
    as (_ & Hc & _ & _ & Hg & _).
  now split.
Defined.

Lemma manual_assign_try_assigned env g n user b r1 b1 said1 n' m ok :
  manual_assign_try env g n user b = (r1, b1, said1) ->
  In (Followup (Assigned n' m) ok) said1 ->
  n' = n /\ m = member_id user /\ ok = is_ok (ma_followup env)
  /\ r1 = ma_followup env
  /\ exists role,
       In (IO (AddRoles (member_id user) role n) true) (trace b1)
       /\ In (member_id user, role) (role_removal_tasks b1).
Proof.
  unfold manual_assign_try. intros H Hin.
  destruct (manual_assign_grant (ma_settle env) g n user b)
    as [[[]|e] b0] eqn:Hg; [|inversion H; subst; destruct Hin].
  apply manual_assign_grant_granted in Hg as (role & Ht & Hr).
  assert (Hlog : forall e,
             In (IO (AddRoles (member_id user) role n) true)
                (trace (snd (log ERROR (LLogSendFailed e) b0)))
             /\ In (member_id user, role)
                  (role_removal_tasks
                     (snd (log ERROR (LLogSendFailed e) b0)))).
  { intros e. unfold log, emit, modify.
    cbn [snd trace set_trace role_removal_tasks]. rewrite in_app_iff. tauto. }
  destruct (logs_channel b0) as [c|];
    [destruct (ma_log_send env) as [[]|e]|];
    inversion H; subst; cbn [app] in Hin;
    repeat (destruct Hin as [Hin|Hin]; try discriminate);
    inversion Hin; subst; repeat split; try reflexivity;
    exists role; first [now split|apply Hlog].
Qed.

(** X29.  [/manual_assign] reports what happened: it answers that the task
    was assigned only for a task number of the batch and after the role was
    granted to that member and its removal scheduled; and nothing raised by
    Discord or the sheet while settling gets past it, only what the
    deferral or the replies themselves raise. *)
Theorem X29_manual_assign_reports (env : ManualEnv) (guild : option Guild)
    (n : Z) (user : Member) (b b' : TaskBot) (r : result unit)
    (said : list remark) :
  manual_assign env guild n user b = (r, b', said) ->
  (forall n' m ok,
      In (Followup (Assigned n' m) ok) said ->
      n' = n /\ m = member_id user
      /\ configured b = true /\ 1 <= n <= total_tasks b
      /\ exists role,
           In (IO (AddRoles (member_id user) role n) true) (trace b')
           /\ In (member_id user, role) (role_removal_tasks b'))
  /\ (forall e,
        r = Raise e ->
        ma_defer env = Raise e \/ ma_followup env = Raise e
        \/ ma_followup_error env = Raise e).
Proof.
  unfold manual_assign. intros H.
  destruct (ma_defer env) as [[]|e0].
  2:{ inversion H; subst. split; [intros ? ? ? []|]. intros e He. now left. }
  destruct (configured b) eqn:Hc; cbn [negb] in H.
  2:{ inversion H; subst. split; [intros ? ? ? [Hx|[]]; discriminate|].
      intros e He. right. now left. }
  destruct (total_tasks b =? 0).
  { inversion H; subst. split; [intros ? ? ? [Hx|[]]; discriminate|].
    intros e He. right. now left. }
  destruct ((1 <=? n) && (n <=? total_tasks b)) eqn:Hn; cbn [negb] in H.
  2:{ inversion H; subst. split; [intros ? ? ? [Hx|[]]; discriminate|].
      intros e He. right. now left. }
  apply andb_true_iff in Hn as [H1 H2].
  apply Z.leb_le in H1. apply Z.leb_le in H2.
  destruct guild as [g|].
  2:{ inversion H; subst. split; [intros ? ? ? []|]. discriminate. }
  destruct (manual_assign_try env g n user b) as [[r1 b1] said1] eqn:Ht.
  assert (Hassigned : forall n' m ok,
             In (Followup (Assigned n' m) ok) said1 ->
             n' = n /\ m = member_id user
             /\ configured b = true /\ 1 <= n <= total_tasks b
             /\ exists role,
                  In (IO (AddRoles (member_id user) role n) true) (trace b1)
                  /\ In (member_id user, role) (role_removal_tasks b1)).
  { intros n' m ok Hin.
    destruct (manual_assign_try_assigned _ _ _ _ _ _ _ _ _ _ _ Ht Hin)
      as (-> & -> & _ & _ & Hrole).
    repeat split; try assumption; lia. }
  rewrite Hc in Hassigned.
  destruct r1 as [[]|e].
  - inversion H; subst. split; [exact Hassigned|discriminate].
  - destruct (is_Forbidden e); inversion H; subst.
    + split.
      * intros n' m ok Hin. apply in_app_iff in Hin as [Hin|Hin].
        -- now apply (Hassigned n' m ok).
        -- destruct Hin as [Hx|[Hx|[]]]; discriminate.
      * intros e' He. right. now right.
    + split.
      * intros n' m ok Hin. apply in_app_iff in Hin as [Hin|Hin].
        -- now apply (Hassigned n' m ok).
        -- destruct Hin as [Hx|[Hx|[]]]; discriminate.
      * intros e' He. right. now right.
Qed.

Lemma X29_manual_assign_reports_sample :
  let b' :=
    snd (fst (manual_assign manual_ok (Some Sample.guild) 2 Sample.alice
                Sample.batch)) in
  manual_assign manual_ok (Some Sample.guild) 2 Sample.alice Sample.batch
  = (Ok tt,
     snd (fst (manual_assign manual_ok (Some Sample.guild) 2 Sample.alice
                 Sample.batch)),
     [LogsSendAssigned 11 2 1 true; Followup (Assigned 2 1) true])
  /\ In (Followup (Assigned 2 1) true)
       [LogsSendAssigned 11 2 1 true; Followup (Assigned 2 1) true]
  /\ exists role,
       In (IO (AddRoles (member_id Sample.alice) role 2) true) (trace b')
       /\ In (member_id Sample.alice, role) (role_removal_tasks b').
Proof.
  cbv zeta.
  assert (H : manual_assign manual_ok (Some Sample.guild) 2 Sample.alice Sample.batch
              = (Ok tt,
                 snd (fst (manual_assign manual_ok (Some Sample.guild) 2 Sample.alice
                             Sample.batch)),
                 [LogsSendAssigned 11 2 1 true; Followup (Assigned 2 1) true]))
    by (vm_compute; reflexivity).
  assert (Hin : In (Followup (Assigned 2 1) true)
                  [LogsSendAssigned 11 2 1 true; Followup (Assigned 2 1) true])
    by (right; now left).
  split; [exact H|]. split; [exact Hin|].
  destruct (proj1 (X29_manual_assign_reports _ _ _ _ _ _ _ _ H) _ _ _ Hin)
    as (_ & _ & _ & _ & Hrole).
  exact Hrole.
Defined.

(** ** The cleanup at startup *)

Lemma removals_app t1 t2 : removals (t1 ++ t2) = removals t1 ++ removals t2.
Proof. apply flat_map_app. Qed.

Lemma cleanup_members_spec remove role members :
  forall i,
    let t := fst (cleanup_members remove role i members) in
    let r := snd (cleanup_members remove role i members) in
    let all := map (fun m => (member_id m, role_id role)) members in
    (exists rest, all = removals t ++ rest /\ (r = Ok tt -> rest = []))
    /\ length (List.filter is_sleep t) = length (List.filter is_removed t)
    /\ (forall e, r = Raise e ->
        exists k, remove k = Raise e /\ is_HTTPException e = false)
    /\ ((forall k e, remove k = Raise e -> is_HTTPException e = true) ->
        r = Ok tt).
Proof.
  induction members as [|m rest IH]; intros i; cbv zeta.
  - cbn. split; [now exists []|]. split; [reflexivity|].
    split; [discriminate|reflexivity].
  - cbn [cleanup_members map].
    specialize (IH (S i)). cbv zeta in IH.
    destruct (cleanup_members remove role (S i) rest) as [t r].
    cbn [fst snd] in IH. destruct IH as ((rest' & Hp & Hok) & Hs & Hr & Hall).
    destruct (remove i) as [[]|e] eqn:Hi; cbn [is_ok].
    + cbn. split; [exists rest'; now rewrite Hp|].
      split; [now rewrite Hs|]. now split.
    + destruct (is_Forbidden e) eqn:Hf;
        [|destruct (is_HTTPException e) eqn:Hh].
      * cbn. split; [exists rest'; now rewrite Hp|]. now split.
      * cbn. split; [exists rest'; now rewrite Hp|]. now split.
      * cbn. split; [eexists; split; [reflexivity|discriminate]|].
        split; [reflexivity|]. split.
        -- intros e' He. inversion He; subst. now exists i.
        -- intros H. rewrite (H _ _ Hi) in Hh. discriminate.
Qed.

Lemma cleanup_guilds_spec remove name guilds :
  forall j,
    let t := fst (cleanup_guilds remove name j guilds) in
    let r := snd (cleanup_guilds remove name j guilds) in
    (exists rest,
        lingering name guilds = removals t ++ rest
        /\ (r = Ok tt -> rest = []))
    /\ length (List.filter is_sleep t) = length (List.filter is_removed t)
    /\ (forall e, r = Raise e ->
        exists g k, remove g k = Raise e /\ is_HTTPException e = false)
    /\ ((forall g k e, remove g k = Raise e -> is_HTTPException e = true) ->
        r = Ok tt).
Proof.
  induction guilds as [|g rest IH]; intros j; cbv zeta.
  - cbn. split; [now exists []|]. split; [reflexivity|].
    split; [discriminate|reflexivity].
  - cbn [cleanup_guilds lingering flat_map].
    fold (lingering name rest).
    specialize (IH (S j)). cbv zeta in IH.
    destruct (utils_get (guild_roles g) name) as [role|]; [|exact IH].
    destruct (role_members g role) as [|m ms] eqn:Hm; [exact IH|].
    pose proof (cleanup_members_spec (remove j) role (m :: ms) 0) as Hg.
    cbv zeta in Hg.
    destruct (cleanup_members (remove j) role 0 (m :: ms)) as [t r].
    cbn [fst snd] in Hg.
    destruct Hg as ((ms' & Hp & Hok) & Hs & Hr & Hall).
    destruct r as [[]|e].
    + destruct (cleanup_guilds remove name (S j) rest) as [t' r'].
      cbn [fst snd] in *.
      destruct IH as ((rest' & Hp' & Hok') & Hs' & Hr' & Hall').
      rewrite (Hok eq_refl), app_nil_r in Hp.
      split; [|split; [|now split]].
      * exists rest'. split; [|exact Hok'].
        change (removals (FoundLingering (length (m :: ms)) :: t ++ t'))
          with (removals (t ++ t')).
        now rewrite removals_app, Hp, Hp', app_assoc.
      * cbn [List.filter is_sleep is_removed].
        now rewrite !List.filter_app, !length_app, Hs, Hs'.
    + cbn [fst snd]. split; [|split; [exact Hs|split]].
      * exists (ms' ++ lingering name rest). split; [|discriminate].
        change (removals (FoundLingering (length (m :: ms)) :: t))
          with (removals t).
        now rewrite Hp, app_assoc.
      * intros e' He. inversion He; subst.
        destruct (Hr _ eq_refl) as (k & Hk & Hh). now exists j, k.
      * intros H. exfalso.
        assert (Hok' : @Raise unit e = Ok tt) by (apply Hall, H).
        discriminate.
Qed.

(** X30.  The cleanup at startup strips holders of the task role and
    nobody else: the [remove_roles] calls it makes are, in order and once
    each, for the first of the cached holders of the role found under
    [TASK_ROLE_NAME], guild by guild, and for all of them when it returns;
    it sleeps once for each removal that went through; a member that cannot
    be stripped does not stop it, and it raises only what [remove_roles]
    raised outside [discord.HTTPException]. *)
Theorem X30_cleanup_lingering_roles (remove : nat -> nat -> result unit)
    (guilds : list Guild) (b : TaskBot) :
  let t := fst (cleanup_lingering_roles remove guilds b) in
  let r := snd (cleanup_lingering_roles remove guilds b) in
  (exists rest,
      lingering (TASK_ROLE_NAME b) guilds = removals t ++ rest
      /\ (r = Ok tt -> rest = []))
  /\ length (List.filter is_sleep t) = length (List.filter is_removed t)
  /\ (forall e, r = Raise e ->
      exists g k, remove g k = Raise e /\ is_HTTPException e = false)
  /\ ((forall g k e, remove g k = Raise e -> is_HTTPException e = true) ->
      r = Ok tt).
Proof. apply cleanup_guilds_spec. Qed.

Lemma X30_cleanup_lingering_roles_sample :
  cleanup_lingering_roles (fun _ _ => Raise Forbidden)
    [Sample.guild; Sample.guild] Sample.batch
  = ([FoundLingering 1; RemoveRoles 3 900 false; RemoveForbidden 3;
      FoundLingering 1; RemoveRoles 3 900 false; RemoveForbidden 3], Ok tt)
  /\ snd (cleanup_lingering_roles (fun _ _ => Raise Forbidden)
            [Sample.guild; Sample.guild] Sample.batch)
     = Ok tt.
Proof.
  split; [reflexivity|].
  apply (proj2 (proj2 (proj2
           (X30_cleanup_lingering_roles (fun _ _ => Raise Forbidden)
              [Sample.guild; Sample.guild] Sample.batch)))).
  intros g k e H. inversion H. reflexivity.
Defined.
